(** * Invitation renderer: a shallow embedding of [make_invite.py]

    The repository renders an invitation onto an A4 template.  Two entry
    points exist: [make_invite.py], whose text comes from a JSON document,
    and its predecessor [make_invite copy.py], whose text comes from the
    process environment.  Both share the same helpers, character for
    character; they are embedded once here and the two drivers live in the
    modules [Json] and [Legacy].

    Conventions of the embedding:
    - a Python [str] is the list of its Unicode code points ([list N]);
    - a Python [int] is a [Z];
    - [os.environ] and a JSON object are finite maps ([gmap]);
    - a call that may raise returns a [pyresult];
    - the Pillow drawing surface is the list of the primitive calls
      ([draw.line], [draw.text]) made on it, in order;
    - a float is an exact binary64 value, every operation rounded as
      IEEE 754 rounds it.

    The file has four parts: the embedding of the scripts (the two
    renderers and the pure functions of the mail script
    [sendmail_image.py]), the vocabulary the properties are stated in, the
    properties C1 to C10 with the lemmas they rest on, and further
    properties of the helpers, the drivers and the mail script. *)

From Stdlib Require Import ZArith NArith Lia Ascii String.
From stdpp Require Import base option list gmap strings.

#[local] Open Scope Z_scope.

(** ** Python strings *)

Abbreviation pystr := (list N).

(** An ASCII literal of the source, as code points. *)
Fixpoint lit (s : string) : pystr :=
  match s with
  | EmptyString => []
  | String a s' => N_of_ascii a :: lit s'
  end.

Definition NL : N := 10%N.      (* "\n" *)
Definition COMMA : N := 44%N.   (* "," *)
Definition BULLET : N := 8226%N. (* U+2022, the fallback ornament *)
Definition FLORAL_HEART : N := 10086%N. (* U+2766, the default ornament *)

(** Truth value of a [str]: non-empty. *)
Definition truthy (s : pystr) : bool :=
  match s with [] => false | _ :: _ => true end.

(** [str.isspace] on one code point (CPython's [_PyUnicode_IsWhitespace]). *)
Definition is_space (c : N) : bool :=
  (((9 <=? c) && (c <=? 13)) || ((28 <=? c) && (c <=? 32))
   || (c =? 133) || (c =? 160) || (c =? 5760)
   || ((8192 <=? c) && (c <=? 8202))
   || (c =? 8232) || (c =? 8233) || (c =? 8239) || (c =? 8287)
   || (c =? 12288))%N.

Fixpoint drop_while (p : N → bool) (s : pystr) : pystr :=
  match s with
  | [] => []
  | c :: s' => if p c then drop_while p s' else s
  end.

(** [s.strip(chars)]: characters satisfying [p] are removed at both ends. *)
Definition strip_with (p : N → bool) (s : pystr) : pystr :=
  rev (drop_while p (rev (drop_while p s))).

(** [s.strip()] *)
Definition py_strip : pystr → pystr := strip_with is_space.

(** [s.strip("\n")] *)
Definition strip_nl : pystr → pystr := strip_with (N.eqb NL).

(** [s.split(sep)] for a one-character separator: always at least one
    segment, empty segments kept. *)
Fixpoint split_on (sep : N) (s : pystr) : list pystr :=
  match s with
  | [] => [[]]
  | c :: s' =>
      if (c =? sep)%N then [] :: split_on sep s'
      else match split_on sep s' with
           | seg :: rest => (c :: seg) :: rest
           | [] => [[c]]
           end
  end.

(** [sep.join(parts)] for a one-character separator. *)
Fixpoint join_with (sep : N) (parts : list pystr) : pystr :=
  match parts with
  | [] => []
  | [p] => p
  | p :: ps => p ++ sep :: join_with sep ps
  end.

(** ** Exceptions and results *)

(** The exception classes the scripts meet.  Each derives from
    [Exception], so [except Exception] catches every one of them;
    [FileNotFoundError], [IsADirectoryError] and Pillow's
    [UnidentifiedImageError] are classes of [OSError], [UnicodeDecodeError]
    and [json.JSONDecodeError] of [ValueError]. *)
Inductive exc_class := ValueError | TypeError | KeyError | OSError.

(** The message is kept for the exceptions the scripts build themselves;
    library exceptions carry the empty message. *)
Inductive exn := Exn (cls : exc_class) (msg : pystr).

Inductive pyresult (A : Type) :=
  | Ok (a : A)
  | Raise (e : exn).
Arguments Ok {A} a.
Arguments Raise {A} e.

#[export] Instance pyresult_ret : MRet pyresult := λ A a, Ok a.
#[export] Instance pyresult_bind : MBind pyresult := λ A B f m,
  match m with Ok a => f a | Raise e => Raise e end.
#[export] Instance pyresult_fmap : FMap pyresult := λ A B f m,
  match m with Ok a => Ok (f a) | Raise e => Raise e end.

Definition raises {A} (m : pyresult A) (c : exc_class) : Prop :=
  ∃ msg, m = Raise (Exn c msg).

Fixpoint mapM_result {A B} (f : A → pyresult B) (l : list A) : pyresult (list B) :=
  match l with
  | [] => Ok []
  | a :: l' => b ← f a; bs ← mapM_result f l'; Ok (b :: bs)
  end.

(** ** [int(str)] *)

Definition digit_val (c : N) : option Z :=
  if ((48 <=? c) && (c <=? 57))%N then Some (Z.of_N c - 48) else None.

(** Digits with single underscores between them, as [int] accepts. *)
Fixpoint int_digits (acc : Z) (after_digit : bool) (s : pystr) : option Z :=
  match s with
  | [] => if after_digit then Some acc else None
  | c :: s' =>
      match digit_val c with
      | Some d => int_digits (10 * acc + d) true s'
      | None =>
          if (c =? 95)%N && after_digit then int_digits acc false s' else None
      end
  end.

(** [int(s)] in base ten: surrounding whitespace, an optional sign, digits.
    Decimal digits outside ASCII, which [int] maps to their value, are not
    in the table [digit_val]. *)
Definition py_int (s : pystr) : pyresult Z :=
  let parsed :=
    match py_strip s with
    | 45%N :: r => Z.opp <$> int_digits 0 false r
    | 43%N :: r => int_digits 0 false r
    | r => int_digits 0 false r
    end in
  match parsed with
  | Some z => Ok z
  | None => Raise (Exn ValueError [])
  end.

(** [str(n)] for an [int]: the decimal numeral, as a configuration file
    would spell an integer. *)
Fixpoint digits_fuel (fuel : nat) (n : Z) (acc : pystr) : pystr :=
  match fuel with
  | O => acc
  | S fuel' =>
      let acc' := Z.to_N (48 + n mod 10) :: acc in
      if n <? 10 then acc' else digits_fuel fuel' (n / 10) acc'
  end.

Definition py_str (z : Z) : pystr :=
  let n := Z.abs z in
  let ds := digits_fuel (S (Z.to_nat (Z.log2 n))) n [] in
  if z <? 0 then 45%N :: ds else ds.

(** ** Configuration helpers (identical in both scripts) *)

Section Environ.
  (** [os.environ] after [load_dotenv()]. *)
Variable environ : gmap pystr pystr.

Definition getenv (key : pystr) : option pystr := environ !! key.

Definition env_int (key : pystr) (default : Z) : pyresult Z :=
    match getenv key with
    | Some v => if truthy v && truthy (py_strip v) then py_int v else Ok default
    | None => Ok default
    end.

Definition env_int_opt (key : pystr) : pyresult (option Z) :=
    match getenv key with
    | None => Ok None
    | Some v =>
        let v := py_strip v in
        if truthy v then Some <$> py_int v else Ok None
    end.

Definition env_str (key : pystr) (default : pystr) : pystr :=
    match getenv key with Some v => v | None => default end.

Definition env_color (key : pystr) (default : pystr) : pyresult (Z * Z * Z * Z) :=
    let raw := env_str key default in
    let parts := map py_strip (split_on COMMA raw) in
    vals ← mapM_result py_int (take 3 parts);
    match vals with
    | [r; g; b] => Ok (r, g, b, 255)
    | _ => Raise (Exn ValueError [])
    end.
End Environ.

(** ** Python floats

    [ensure_a4] and [draw_hook_divider] multiply an [int] by a float
    literal.  A float is kept as sign, integer significand and binary
    exponent; every operation rounds its exact result to 53 significant
    bits, ties to even, as IEEE 754 binary64 does.  The exponent is not
    bounded here, so overflow to infinity (beyond about 1e308) and
    subnormals do not appear. *)

Record float := Float { f_neg : bool; f_mant : Z; f_exp : Z }.

(** [n / d] rounded to the nearest integer, ties to even ([0 <= n], [0 < d]). *)
Definition round_half_even (n d : Z) : Z :=
  let q := n / d in
  let r := n mod d in
  if 2 * r <? d then q
  else if d <? 2 * r then q + 1
  else if Z.even q then q else q + 1.

(** [m * 2^e] rounded to 53 significant bits. *)
Definition round53 (m e : Z) : Z * Z :=
  let k := Z.log2 m - 52 in
  if k <=? 0 then (m, e) else (round_half_even m (2 ^ k), e + k).

(** The float nearest to the decimal literal [n / d]. *)
Definition float_of_decimal (n d : Z) : float :=
  let s0 := 53 - Z.log2 n + Z.log2 d in
  let s := if 2 ^ 53 <=? (n * 2 ^ s0) / d then s0 - 1 else s0 in
  Float false (round_half_even (n * 2 ^ s) d) (- s).

(** [float(n)] for an [int]. *)
Definition float_of_int (n : Z) : float :=
  let '(m, e) := round53 (Z.abs n) 0 in Float (n <? 0) m e.

Definition float_mul (a b : float) : float :=
  let '(m, e) := round53 (f_mant a * f_mant b) (f_exp a + f_exp b) in
  Float (xorb (f_neg a) (f_neg b)) m e.

Definition signed (neg : bool) (z : Z) : Z := if neg then - z else z.

(** [round(x)]: nearest integer, ties to even. *)
Definition py_round (x : float) : Z :=
  signed (f_neg x)
    (if 0 <=? f_exp x then f_mant x * 2 ^ f_exp x
     else round_half_even (f_mant x) (2 ^ (- f_exp x))).

(** [int(x)]: truncation towards zero. *)
Definition py_trunc (x : float) : Z :=
  signed (f_neg x)
    (if 0 <=? f_exp x then f_mant x * 2 ^ f_exp x
     else f_mant x / 2 ^ (- f_exp x)).

Definition F_8_27 : float := float_of_decimal 827 100.
Definition F_11_69 : float := float_of_decimal 1169 100.
Definition F_0_55 : float := float_of_decimal 55 100.

(** ** JSON values after [json.load] *)

#[warnings="-register-all"]
Inductive pyval :=
  | PyNone
  | PyBool (b : bool)
  | PyInt (z : Z)
  | PyFloat (x : float)
  | PyStr (s : pystr)
  | PyList (l : list pyval)
  | PyDict (d : gmap pystr pyval).

Definition is_str (v : pyval) : Prop := ∃ s, v = PyStr s.

(** ** Pillow: fonts, images, the drawing surface *)

(** A font, as far as the scripts use one: [font.size] (every font has
    one, as a [FreeTypeFont] does), the size of the mask
    [font.getmask(text)] rasterizes (the call may raise), and the box
    [draw.textbbox((0, 0), text, font=font)]. *)
Record font := Font {
  font_size : Z;
  getmask_size : pystr → pyresult (Z * Z);
  textbbox : pystr → Z * Z * Z * Z;
}.

Abbreviation color := (Z * Z * Z * Z)%type.

Inductive draw_call :=
  | Line (x0 y0 x1 y1 : Z) (fill : color) (width : Z)
  | Text (x y : Z) (text : pystr) (f : font) (fill : color).

(** Pixel content, up to the operations applied to it. *)
Inductive raster :=
  | Decoded (path : pystr)
  | Converted (mode : pystr) (r : raster)
  | Resampled (w h : Z) (r : raster).

Record Image := { size : Z * Z; data : raster }.

(** [ImageDraw.Draw(img)]: the image and the calls drawn on it so far.
    [draw.line] and [draw.text] record their call and do not raise. *)
Record ImageDraw := { im : Image; calls : list draw_call }.

Definition draw_line (draw : ImageDraw) (x0 y0 x1 y1 : Z) (fill : color) (width : Z) : ImageDraw :=
  {| im := im draw; calls := calls draw ++ [Line x0 y0 x1 y1 fill width] |}.

Definition draw_text (draw : ImageDraw) (x y : Z) (text : pystr) (f : font) (fill : color) : ImageDraw :=
  {| im := im draw; calls := calls draw ++ [Text x y text f fill] |}.

(** [img.resize(size, LANCZOS)]: Pillow refuses a side below one pixel. *)
Definition resize (img : Image) (target : Z * Z) : pyresult Image :=
  if (0 <? target.1) && (0 <? target.2)
  then Ok {| size := target; data := Resampled target.1 target.2 (data img) |}
  else Raise (Exn ValueError (lit "height and width must be > 0")).

(** ** Files *)

Inductive file :=
  | Directory
  | TextFile (s : pystr)
  | ImageFile (sz : Z * Z)
  | SavedPng (drawn : ImageDraw).

Definition path_exists (fs : gmap pystr file) (path : pystr) : bool :=
  bool_decide (is_Some (fs !! path)).

(** [Image.open(path)] *)
Definition Image_open (fs : gmap pystr file) (path : pystr) : pyresult Image :=
  match fs !! path with
  | Some (ImageFile sz) => Ok {| size := sz; data := Decoded path |}
  | Some (SavedPng d) => Ok {| size := size (im d); data := Decoded path |}
  | Some (TextFile _) | Some Directory | None => Raise (Exn OSError [])
  end.

(** [img.convert(mode)] *)
Definition convert (mode : pystr) (img : Image) : Image :=
  {| size := size img; data := Converted mode (data img) |}.

(** [img.save(path, "PNG")]: the file holds the image as drawn.  Writing
    fails on a directory and on the empty path; permissions and missing
    parent directories are outside this model of the files. *)
Definition save (fs : gmap pystr file) (drawn : ImageDraw) (path : pystr)
    : pyresult (gmap pystr file) :=
  match fs !! path with
  | Some Directory => Raise (Exn OSError [])
  | _ => if truthy path then Ok (<[path := SavedPng drawn]> fs) else Raise (Exn OSError [])
  end.

(** ** Drawing helpers (identical in both scripts) *)

Definition ensure_a4 (img : Image) (dpi : Z) : pyresult Image :=
  let target_w := py_round (float_mul F_8_27 (float_of_int dpi)) in
  let target_h := py_round (float_mul F_11_69 (float_of_int dpi)) in
  if decide (size img ≠ (target_w, target_h))
  then resize img (target_w, target_h)
  else Ok img.

(** One iteration of the loop of [draw_centered_multiline]; the state is
    the cursor [y] and the surface. *)
Definition line_step (f : font) (center_x : Z) (fill : color) (line_spacing_px : Z)
    (st : Z * ImageDraw) (line : pystr) : Z * ImageDraw :=
  let '(y, draw) := st in
  if negb (truthy (py_strip line)) then (y + (font_size f + line_spacing_px), draw)
  else
    let '(x0, y0, x1, y1) := textbbox f line in
    let w := x1 - x0 in
    let h := y1 - y0 in
    (y + (h + line_spacing_px), draw_text draw (center_x - w / 2) y line f fill).

Definition draw_centered_multiline (draw : ImageDraw) (text : pystr) (f : font)
    (center_x top_y : Z) (fill : color) (line_spacing_px : Z) : Z * ImageDraw :=
  fold_left (line_step f center_x fill line_spacing_px) (split_on NL text) (top_y, draw).

Section Fonts.
(** [ImageFont.truetype] and the font of [ImageFont.load_default()]. *)
Variable truetype : pystr → Z → pyresult font.
Variable load_default : font.

Definition load_font (path : pystr) (size : Z) : font :=
  match truetype path size with
  | Ok f => f
  | Raise _ => load_default
  end.

(** The glyph probe of [draw_hook_divider]: [try ... except Exception]. *)
Definition probe_hook_char (hook_font : font) (hook_char : pystr) : pystr :=
  match getmask_size hook_font hook_char with
  | Ok m => if decide (m = (0, 0)) then [BULLET] else hook_char
  | Raise _ => [BULLET]
  end.

Definition draw_hook_divider (draw : ImageDraw) (center_x y width : Z) (fill : color)
    (thickness : Z) (hook_char : pystr) (hook_font : option font) (hook_gap : Z)
    : ImageDraw :=
  let half := width / 2 in
  let draw := draw_line draw (center_x - half) y (center_x - hook_gap) y fill thickness in
  let draw := draw_line draw (center_x + hook_gap) y (center_x + half) y fill thickness in
  let hook_font := match hook_font with Some f => f | None => load_default end in
  let hook_char := probe_hook_char hook_font hook_char in
  let '(x0, y0, x1, y1) := textbbox hook_font hook_char in
  let w := x1 - x0 in
  let h := y1 - y0 in
  draw_text draw (center_x - w / 2) (y - py_trunc (float_mul (float_of_int h) F_0_55))
    hook_char hook_font fill.

Definition draw_divider_pair (draw : ImageDraw) (center_x width : Z) (fill : color)
    (thickness : Z) (hook_char : pystr) (hook_font : font) (hook_gap : Z)
    (line_1_y line_2_y : option Z) : ImageDraw :=
  let draw :=
    match line_1_y with
    | Some y => draw_hook_divider draw center_x y width fill thickness hook_char
                  (Some hook_font) hook_gap
    | None => draw
    end in
  match line_2_y with
  | Some y => draw_hook_divider draw center_x y width fill thickness hook_char
                (Some hook_font) hook_gap
  | None => draw
  end.
End Fonts.

(** ** Shared configuration

    Both scripts read the same keys, in the same order, with the same
    defaults; the values are the scripts' upper-case variables. *)

Record config := {
  DPI : Z;
  FONT_TITLE_PATH : pystr;
  FONT_BODY_PATH : pystr;
  FONT_HOOK_PATH : pystr;
  TITLE_SIZE : Z;
  BODY_SIZE : Z;
  SMALL_SIZE : Z;
  HOOK_SIZE : Z;
  RSVP_SIZE : Z;
  Y_INTRO : Z;
  Y_TITLE : Z;
  Y_DETAILS : Z;
  Y_MESSAGE : Z;
  Y_SIGN : Z;
  Y_RSVP : Z;
  LINE_WIDTH : Z;
  LINE_THICKNESS : Z;
  LINE_COLOR : color;
  HOOK_GAP : Z;
  HOOK_CHAR : pystr;
  DETAILS_DIVIDER_LINE_1_Y : option Z;
  DETAILS_DIVIDER_LINE_2_Y : option Z;
  MESSAGE_DIVIDER_LINE_1_Y : option Z;
  MESSAGE_DIVIDER_LINE_2_Y : option Z;
  SMALL_DIVIDER_WIDTH : Z;
  SMALL_DIVIDER_LINE_1_Y : option Z;
  SMALL_DIVIDER_LINE_2_Y : option Z;
  SMALL_DIVIDER_THICKNESS : Z;
  SMALL_DIVIDER_COLOR : color;
  SMALL_DIVIDER_HOOK_GAP : Z;
  SMALL_DIVIDER_HOOK_CHAR : pystr;
}.

(** The text of one invitation, block by block. *)
Record content := {
  INTRO : pystr;
  TITLE : pystr;
  DETAILS : pystr;
  MESSAGE : pystr;
  SIGN : pystr;
  RSVP : pystr;
}.

Record fonts := {
  font_title : font;
  font_body : font;
  font_small : font;
  font_hook : font;
  font_rsvp : font;
}.

Definition TEXT_COLOR : color := (45, 45, 45, 255).

(** The six text blocks of the page, in drawing order. *)
Inductive block := Intro | Title | Details | Message | Sign | Rsvp.

Definition block_text (c : content) (b : block) : pystr :=
  match b with
  | Intro => INTRO c | Title => TITLE c | Details => DETAILS c
  | Message => MESSAGE c | Sign => SIGN c | Rsvp => RSVP c
  end.

Definition block_font (fs : fonts) (b : block) : font :=
  match b with
  | Intro => font_small fs | Title => font_title fs | Details => font_body fs
  | Message => font_small fs | Sign => font_body fs | Rsvp => font_rsvp fs
  end.

Definition block_anchor (cfg : config) (b : block) : Z :=
  match b with
  | Intro => Y_INTRO cfg | Title => Y_TITLE cfg | Details => Y_DETAILS cfg
  | Message => Y_MESSAGE cfg | Sign => Y_SIGN cfg | Rsvp => Y_RSVP cfg
  end.

Definition block_spacing (b : block) : Z :=
  match b with
  | Intro => 10 | Title => 6 | Details => 14
  | Message => 14 | Sign => 12 | Rsvp => 10
  end.

(** The keys of the lines a block is assembled from (of the document, or
    of the environment in the older script). *)
Definition block_keys (b : block) : list pystr :=
  match b with
  | Intro => [lit "INTRO_TEXT"]
  | Title => [lit "TITLE_LINE_1"; lit "TITLE_LINE_2"]
  | Details => [lit "DETAIL_LINE_1"; lit "DETAIL_LINE_2"; lit "DETAIL_LINE_3"]
  | Message => [lit "MESSAGE_LINE_1"; lit "MESSAGE_LINE_2"]
  | Sign => [lit "SIGN_LINE_1"; lit "SIGN_LINE_2"]
  | Rsvp => [lit "RSVP_TEXT"]
  end.

(** The number of configured lines a block is assembled from. *)
Definition block_lines (b : block) : Z :=
  match b with
  | Intro => 1 | Title => 2 | Details => 3
  | Message => 2 | Sign => 2 | Rsvp => 1
  end.

Section World.
Variable environ : gmap pystr pystr.
Variable truetype : pystr → Z → pyresult font.
Variable load_default : font.
(** [json.loads] on the text of a file. *)
Variable json_loads : pystr → pyresult pyval.

Definition load_config : pyresult config :=
  DPI ← env_int environ (lit "DPI") 300;
  let FONT_TITLE_PATH := env_str environ (lit "FONT_TITLE") [] in
  let FONT_BODY_PATH := env_str environ (lit "FONT_BODY") [] in
  let FONT_HOOK_PATH := env_str environ (lit "FONT_HOOK") FONT_BODY_PATH in
  TITLE_SIZE ← env_int environ (lit "TITLE_SIZE") 120;
  BODY_SIZE ← env_int environ (lit "BODY_SIZE") 52;
  SMALL_SIZE ← env_int environ (lit "SMALL_SIZE") 44;
  HOOK_SIZE ← env_int environ (lit "HOOK_SIZE") 34;
  RSVP_SIZE ← env_int environ (lit "RSVP_SIZE") BODY_SIZE;
  Y_INTRO ← env_int environ (lit "Y_INTRO") 780;
  Y_TITLE ← env_int environ (lit "Y_TITLE") 900;
  Y_DETAILS ← env_int environ (lit "Y_DETAILS") 1320;
  Y_MESSAGE ← env_int environ (lit "Y_MESSAGE") 1840;
  Y_SIGN ← env_int environ (lit "Y_SIGN") 2320;
  Y_RSVP ← env_int environ (lit "Y_RSVP") 3000;
  LINE_WIDTH ← env_int environ (lit "LINE_WIDTH") 900;
  LINE_THICKNESS ← env_int environ (lit "LINE_THICKNESS") 2;
  LINE_COLOR ← env_color environ (lit "LINE_COLOR") (lit "180,180,180");
  HOOK_GAP ← env_int environ (lit "HOOK_GAP") 22;
  let HOOK_CHAR := env_str environ (lit "HOOK_CHAR") [FLORAL_HEART] in
  DETAILS_DIVIDER_LINE_1_Y ← env_int_opt environ (lit "DETAILS_DIVIDER_LINE_1_Y");
  DETAILS_DIVIDER_LINE_2_Y ← env_int_opt environ (lit "DETAILS_DIVIDER_LINE_2_Y");
  MESSAGE_DIVIDER_LINE_1_Y ← env_int_opt environ (lit "MESSAGE_DIVIDER_LINE_1_Y");
  MESSAGE_DIVIDER_LINE_2_Y ← env_int_opt environ (lit "MESSAGE_DIVIDER_LINE_2_Y");
  SMALL_DIVIDER_WIDTH ← env_int environ (lit "SMALL_DIVIDER_WIDTH") 150;
  SMALL_DIVIDER_LINE_1_Y ← env_int_opt environ (lit "SMALL_DIVIDER_LINE_1_Y");
  SMALL_DIVIDER_LINE_2_Y ← env_int_opt environ (lit "SMALL_DIVIDER_LINE_2_Y");
  SMALL_DIVIDER_THICKNESS ← env_int environ (lit "SMALL_DIVIDER_THICKNESS") LINE_THICKNESS;
  SMALL_DIVIDER_COLOR ← env_color environ (lit "SMALL_DIVIDER_COLOR") (lit "180,180,180");
  SMALL_DIVIDER_HOOK_GAP ← env_int environ (lit "SMALL_DIVIDER_HOOK_GAP") HOOK_GAP;
  let SMALL_DIVIDER_HOOK_CHAR := env_str environ (lit "SMALL_DIVIDER_HOOK_CHAR") HOOK_CHAR in
  Ok {|
    DPI := DPI; FONT_TITLE_PATH := FONT_TITLE_PATH; FONT_BODY_PATH := FONT_BODY_PATH;
    FONT_HOOK_PATH := FONT_HOOK_PATH; TITLE_SIZE := TITLE_SIZE; BODY_SIZE := BODY_SIZE;
    SMALL_SIZE := SMALL_SIZE; HOOK_SIZE := HOOK_SIZE; RSVP_SIZE := RSVP_SIZE;
    Y_INTRO := Y_INTRO; Y_TITLE := Y_TITLE; Y_DETAILS := Y_DETAILS;
    Y_MESSAGE := Y_MESSAGE; Y_SIGN := Y_SIGN; Y_RSVP := Y_RSVP;
    LINE_WIDTH := LINE_WIDTH; LINE_THICKNESS := LINE_THICKNESS; LINE_COLOR := LINE_COLOR;
    HOOK_GAP := HOOK_GAP; HOOK_CHAR := HOOK_CHAR;
    DETAILS_DIVIDER_LINE_1_Y := DETAILS_DIVIDER_LINE_1_Y;
    DETAILS_DIVIDER_LINE_2_Y := DETAILS_DIVIDER_LINE_2_Y;
    MESSAGE_DIVIDER_LINE_1_Y := MESSAGE_DIVIDER_LINE_1_Y;
    MESSAGE_DIVIDER_LINE_2_Y := MESSAGE_DIVIDER_LINE_2_Y;
    SMALL_DIVIDER_WIDTH := SMALL_DIVIDER_WIDTH;
    SMALL_DIVIDER_LINE_1_Y := SMALL_DIVIDER_LINE_1_Y;
    SMALL_DIVIDER_LINE_2_Y := SMALL_DIVIDER_LINE_2_Y;
    SMALL_DIVIDER_THICKNESS := SMALL_DIVIDER_THICKNESS;
    SMALL_DIVIDER_COLOR := SMALL_DIVIDER_COLOR;
    SMALL_DIVIDER_HOOK_GAP := SMALL_DIVIDER_HOOK_GAP;
    SMALL_DIVIDER_HOOK_CHAR := SMALL_DIVIDER_HOOK_CHAR;
  |}.

Definition load_fonts (cfg : config) : fonts :=
  {| font_title := load_font truetype load_default (FONT_TITLE_PATH cfg) (TITLE_SIZE cfg);
     font_body := load_font truetype load_default (FONT_BODY_PATH cfg) (BODY_SIZE cfg);
     font_small := load_font truetype load_default (FONT_BODY_PATH cfg) (SMALL_SIZE cfg);
     font_hook := load_font truetype load_default (FONT_HOOK_PATH cfg) (HOOK_SIZE cfg);
     font_rsvp := load_font truetype load_default (FONT_BODY_PATH cfg) (RSVP_SIZE cfg) |}.

(** The three divider pairs, as both scripts call them. *)
Definition small_divider (cfg : config) (fs : fonts) (cx : Z) (draw : ImageDraw) : ImageDraw :=
  draw_divider_pair load_default draw (cx + 50) (SMALL_DIVIDER_WIDTH cfg)
    (SMALL_DIVIDER_COLOR cfg) (SMALL_DIVIDER_THICKNESS cfg) (SMALL_DIVIDER_HOOK_CHAR cfg)
    (font_hook fs) (SMALL_DIVIDER_HOOK_GAP cfg)
    (SMALL_DIVIDER_LINE_1_Y cfg) (SMALL_DIVIDER_LINE_2_Y cfg).

Definition details_divider (cfg : config) (fs : fonts) (cx : Z) (draw : ImageDraw) : ImageDraw :=
  draw_divider_pair load_default draw (cx + 50) (LINE_WIDTH cfg)
    (LINE_COLOR cfg) (LINE_THICKNESS cfg) (HOOK_CHAR cfg)
    (font_hook fs) (HOOK_GAP cfg)
    (DETAILS_DIVIDER_LINE_1_Y cfg) (DETAILS_DIVIDER_LINE_2_Y cfg).

Definition message_divider (cfg : config) (fs : fonts) (cx : Z) (draw : ImageDraw) : ImageDraw :=
  draw_divider_pair load_default draw (cx + 50) (LINE_WIDTH cfg)
    (LINE_COLOR cfg) (LINE_THICKNESS cfg) (HOOK_CHAR cfg)
    (font_hook fs) (HOOK_GAP cfg)
    (MESSAGE_DIVIDER_LINE_1_Y cfg) (MESSAGE_DIVIDER_LINE_2_Y cfg).
End World.

(** ** [make_invite.py]: the document-driven script *)

Module Json.

Definition get_required (d : gmap pystr pyval) (key : pystr) : pyresult pystr :=
  match d !! key with
  | None =>
      Raise (Exn KeyError
               (lit "Missing required key in invitation JSON: '" ++ key ++ lit "'"))
  | Some PyNone => Ok []
  | Some (PyStr s) => Ok s
  | Some _ =>
      Raise (Exn TypeError (lit "Invitation JSON key '" ++ key ++ lit "' must be a string."))
  end.

Definition get_optional (d : gmap pystr pyval) (key : pystr) (default : pystr)
    : pyresult pystr :=
  match (match d !! key with Some v => v | None => PyStr default end) with
  | PyNone => Ok []
  | PyStr s => Ok s
  | _ =>
      Raise (Exn TypeError (lit "Invitation JSON key '" ++ key ++ lit "' must be a string."))
  end.

(** The content keys of the document, in the order [main] reads them. *)
Definition content_keys : list pystr :=
  [ lit "INTRO_TEXT"; lit "TITLE_LINE_1"; lit "TITLE_LINE_2";
    lit "DETAIL_LINE_1"; lit "DETAIL_LINE_2"; lit "DETAIL_LINE_3";
    lit "MESSAGE_LINE_1"; lit "MESSAGE_LINE_2";
    lit "SIGN_LINE_1"; lit "SIGN_LINE_2"; lit "RSVP_TEXT" ].

(** How [main] assembles a block from its lines: joined by newlines, then
    [.strip("\n")]. *)
Definition assemble (lines : list pystr) : pystr := strip_nl (join_with NL lines).

(** The intro and the RSVP are single fields, taken as they are. *)
Definition assemble_block (b : block) (lines : list pystr) : pystr :=
  match b with
  | Intro | Rsvp => join_with NL lines
  | Title | Details | Message | Sign => assemble lines
  end.

Definition load_content (inv : gmap pystr pyval) : pyresult content :=
  INTRO ← get_optional inv (lit "INTRO_TEXT") [];
  title_1 ← get_optional inv (lit "TITLE_LINE_1") [];
  title_2 ← get_optional inv (lit "TITLE_LINE_2") [];
  let TITLE := strip_nl (title_1 ++ NL :: title_2) in
  detail_1 ← get_optional inv (lit "DETAIL_LINE_1") [];
  detail_2 ← get_optional inv (lit "DETAIL_LINE_2") [];
  detail_3 ← get_optional inv (lit "DETAIL_LINE_3") [];
  let DETAILS := strip_nl (join_with NL [detail_1; detail_2; detail_3]) in
  message_1 ← get_optional inv (lit "MESSAGE_LINE_1") [];
  message_2 ← get_optional inv (lit "MESSAGE_LINE_2") [];
  let MESSAGE := strip_nl (message_1 ++ NL :: message_2) in
  sign_1 ← get_optional inv (lit "SIGN_LINE_1") [];
  sign_2 ← get_optional inv (lit "SIGN_LINE_2") [];
  let SIGN := strip_nl (sign_1 ++ NL :: sign_2) in
  RSVP ← get_optional inv (lit "RSVP_TEXT") [];
  Ok {| INTRO := INTRO; TITLE := TITLE; DETAILS := DETAILS;
        MESSAGE := MESSAGE; SIGN := SIGN; RSVP := RSVP |}.

Section Driver.
Variable environ : gmap pystr pystr.
Variable truetype : pystr → Z → pyresult font.
Variable load_default : font.
Variable json_loads : pystr → pyresult pyval.

Definition read_invitation_json (fs : gmap pystr file) (path : pystr)
    : pyresult (gmap pystr pyval) :=
  match fs !! path with
  | Some (TextFile s) =>
      data ← json_loads s;
      match data with
      | PyDict d => Ok d
      | _ => Raise (Exn ValueError (lit "Invitation JSON must be a JSON object."))
      end
  | Some (ImageFile _) | Some (SavedPng _) => Raise (Exn ValueError [])
  | Some Directory | None => Raise (Exn OSError [])
  end.

(** One guarded text step of [main]: [if TEXT: draw_centered_multiline(...)]. *)
Definition text_step (cfg : config) (c : content) (fs : fonts) (cx : Z) (b : block)
    (draw : ImageDraw) : ImageDraw :=
  if truthy (block_text c b)
  then (draw_centered_multiline draw (block_text c b) (block_font fs b) (cx + 50)
          (block_anchor cfg b) TEXT_COLOR (block_spacing b)).2
  else draw.

(** The "Build" part of [main], from [ImageDraw.Draw(img)] to the last
    drawing call. *)
Definition build (cfg : config) (c : content) (img : Image) : ImageDraw :=
  let draw := {| im := img; calls := [] |} in
  let cx := (size img).1 / 2 in
  let fs := load_fonts truetype load_default cfg in
  let draw :=
    if truthy (INTRO c)
    then (draw_centered_multiline draw (INTRO c) (font_small fs) (cx + 50) (Y_INTRO cfg)
            TEXT_COLOR 10).2
    else draw in
  let draw :=
    if truthy (TITLE c)
    then (draw_centered_multiline draw (TITLE c) (font_title fs) (cx + 50) (Y_TITLE cfg)
            TEXT_COLOR 6).2
    else draw in
  let draw := small_divider load_default cfg fs cx draw in
  let draw :=
    if truthy (DETAILS c)
    then (draw_centered_multiline draw (DETAILS c) (font_body fs) (cx + 50) (Y_DETAILS cfg)
            TEXT_COLOR 14).2
    else draw in
  let draw := details_divider load_default cfg fs cx draw in
  let draw :=
    if truthy (MESSAGE c)
    then (draw_centered_multiline draw (MESSAGE c) (font_small fs) (cx + 50) (Y_MESSAGE cfg)
            TEXT_COLOR 14).2
    else draw in
  let draw := message_divider load_default cfg fs cx draw in
  let draw :=
    if truthy (SIGN c)
    then (draw_centered_multiline draw (SIGN c) (font_body fs) (cx + 50) (Y_SIGN cfg)
            TEXT_COLOR 12).2
    else draw in
  if truthy (RSVP c)
  then (draw_centered_multiline draw (RSVP c) (font_rsvp fs) (cx + 50) (Y_RSVP cfg)
          TEXT_COLOR 10).2
  else draw.

(** [main] between the template check and [img.save]. *)
Definition render (fs : gmap pystr file) (json_path TEMPLATE : pystr) : pyresult ImageDraw :=
  cfg ← load_config environ;
  inv ← read_invitation_json fs json_path;
  c ← load_content inv;
  img ← Image_open fs TEMPLATE;
  img ← ensure_a4 (convert (lit "RGBA") img) (DPI cfg);
  Ok (build cfg c img).

(** [main(argv)]: the value returned (or the exception that escapes) and
    the files afterwards.  What the script prints is not modelled. *)
Definition main (argv : list pystr) (fs : gmap pystr file)
    : pyresult Z * gmap pystr file :=
  if decide (length argv < 2)%nat then (Ok 2, fs)
  else
    let json_path := nth 1 argv [] in
    let output_path :=
      if decide (3 ≤ length argv)%nat then nth 2 argv []
      else env_str environ (lit "OUTPUT_IMAGE") (lit "invite.png") in
    let TEMPLATE := env_str environ (lit "TEMPLATE_IMAGE") [] in
    if negb (truthy TEMPLATE) || negb (path_exists fs TEMPLATE) then (Ok 2, fs)
    else
      match drawn ← render fs json_path TEMPLATE; save fs drawn output_path with
      | Ok fs' => (Ok 0, fs')
      | Raise e => (Raise e, fs)
      end.

(** [raise SystemExit(main(sys.argv))]: the status of the process.  An
    exception that escapes [main] ends the interpreter with status 1. *)
Definition exit_status (r : pyresult Z) : Z :=
  match r with Ok n => n | Raise _ => 1 end.
End Driver.
End Json.

(** ** [make_invite copy.py]: the environment-only script *)

Module Legacy.
Section Driver.
Variable environ : gmap pystr pystr.
Variable truetype : pystr → Z → pyresult font.
Variable load_default : font.

(** The "Text" assignments of the script. *)
Definition load_content : content :=
  {| INTRO := env_str environ (lit "INTRO_TEXT") [];
     TITLE := env_str environ (lit "TITLE_LINE_1") [] ++ NL :: env_str environ (lit "TITLE_LINE_2") [];
     DETAILS := join_with NL [env_str environ (lit "DETAIL_LINE_1") [];
                              env_str environ (lit "DETAIL_LINE_2") [];
                              env_str environ (lit "DETAIL_LINE_3") []];
     MESSAGE := env_str environ (lit "MESSAGE_LINE_1") [] ++ NL :: env_str environ (lit "MESSAGE_LINE_2") [];
     SIGN := env_str environ (lit "SIGN_LINE_1") [] ++ NL :: env_str environ (lit "SIGN_LINE_2") [];
     RSVP := env_str environ (lit "RSVP_TEXT") [] |}.

(** One text step of the script: the call is unconditional. *)
Definition text_step (cfg : config) (c : content) (fs : fonts) (cx : Z) (b : block)
    (draw : ImageDraw) : Z * ImageDraw :=
  draw_centered_multiline draw (block_text c b) (block_font fs b) (cx + 50)
    (block_anchor cfg b) TEXT_COLOR (block_spacing b).

(** The "Build" part of the script. *)
Definition build (cfg : config) (c : content) (img : Image) : ImageDraw :=
  let draw := {| im := img; calls := [] |} in
  let cx := (size img).1 / 2 in
  let fs := load_fonts truetype load_default cfg in
  let draw := (draw_centered_multiline draw (INTRO c) (font_small fs) (cx + 50) (Y_INTRO cfg)
                 TEXT_COLOR 10).2 in
  let draw := (draw_centered_multiline draw (TITLE c) (font_title fs) (cx + 50) (Y_TITLE cfg)
                 TEXT_COLOR 6).2 in
  let draw := small_divider load_default cfg fs cx draw in
  let draw := (draw_centered_multiline draw (DETAILS c) (font_body fs) (cx + 50) (Y_DETAILS cfg)
                 TEXT_COLOR 14).2 in
  let draw := details_divider load_default cfg fs cx draw in
  let draw := (draw_centered_multiline draw (MESSAGE c) (font_small fs) (cx + 50) (Y_MESSAGE cfg)
                 TEXT_COLOR 14).2 in
  let draw := message_divider load_default cfg fs cx draw in
  let draw := (draw_centered_multiline draw (SIGN c) (font_body fs) (cx + 50) (Y_SIGN cfg)
                 TEXT_COLOR 12).2 in
  (draw_centered_multiline draw (RSVP c) (font_rsvp fs) (cx + 50) (Y_RSVP cfg)
     TEXT_COLOR 10).2.

(** The module body: configuration, build, [img.save(OUTPUT, "PNG")].  The
    text is read between the sizes and the positions; [env_str] cannot
    raise, so it is read here after the configuration. *)
Definition script (fs : gmap pystr file) : pyresult unit * gmap pystr file :=
  let TEMPLATE := env_str environ (lit "TEMPLATE_IMAGE") [] in
  let OUTPUT := env_str environ (lit "OUTPUT_IMAGE") (lit "invite.png") in
  match
    cfg ← load_config environ;
    let c := load_content in
    img ← Image_open fs TEMPLATE;
    img ← ensure_a4 (convert (lit "RGBA") img) (DPI cfg);
    save fs (build cfg c img) OUTPUT
  with
  | Ok fs' => (Ok (), fs')
  | Raise e => (Raise e, fs)
  end.
End Driver.
End Legacy.

(** ** The mail script ([sendmail_image.py])

    The script that mails the finished invitation.  Its pure parts are
    embedded: the recipient lists, the plain-text body, and the checks its
    main block makes before the first message is built. *)

Module Mail.

(** [s.replace(old, new)] for one-character [old] and [new]. *)
Definition replace_char (old new : N) (s : pystr) : pystr :=
  (λ c, if (c =? old)%N then new else c) <$> s.

Definition parse_recipients (value : pystr) : list pystr :=
  if negb (truthy value) then []
  else
    let raw := replace_char NL COMMA value in
    py_strip <$> List.filter (λ x, truthy (py_strip x)) (split_on COMMA raw).

Definition A_RING : N := 229%N.  (* U+00E5 *)
Definition AE : N := 230%N.      (* U+00E6 *)

Definition build_plain_text (preheader name date time_ address deadline signoff : pystr)
    : pystr :=
  let parts := [] in
  let parts :=
    if truthy (py_strip preheader) then (parts ++ [py_strip preheader]) ++ [[]]
    else parts in
  let parts := parts ++ [lit "Invitation til konfirmation"] in
  let parts := parts ++ [[]] in
  let parts := parts ++ [name ++ lit "s konfirmation"] in
  let parts := parts ++ [date] in
  let parts := parts ++ [time_] in
  let parts := parts ++ [[]] in
  let parts := parts ++ [lit "Vi h" ++ A_RING :: lit "ber, at I vil v" ++ AE
                         :: lit "re med til at fejre dagen sammen med os med god mad, hyggeligt samv"
                         ++ AE :: lit "r og festlig stemning."] in
  let parts := parts ++ [[]] in
  let parts := parts ++ [lit "Adresse: " ++ address] in
  let parts := parts ++ [lit "Tilmelding senest: " ++ deadline] in
  let parts := parts ++ [[]] in
  let parts := parts ++ [lit "K" ++ AE :: lit "rlig hilsen"] in
  let parts := parts ++ [signoff] in
  py_strip (join_with NL parts) ++ [NL].

(** What the main block has in hand when the sending starts. *)
Record groups := Groups {
  to_church : list pystr;
  to_home : list pystr;
  image_1 : pystr;
  image_2 : pystr;
}.

(** Truth value of a [list]: non-empty. *)
Definition nonempty {A} (l : list A) : bool :=
  match l with [] => false | _ :: _ => true end.

(** The main block up to its last check: the recipient groups, the two
    image paths, the three [raise ValueError]. *)
Definition checks (environ : gmap pystr pystr) : pyresult groups :=
  let to_church := parse_recipients (env_str environ (lit "TO_CHURCH") []) in
  let to_home := parse_recipients (env_str environ (lit "TO_HOME") []) in
  let image_1 := py_strip (env_str environ (lit "IMAGE_PATH_1") []) in
  let image_2 := py_strip (env_str environ (lit "IMAGE_PATH_2") []) in
  if negb (nonempty to_church || nonempty to_home)
  then Raise (Exn ValueError (lit "No recipients. Set TO_CHURCH and/or TO_HOME."))
  else if negb (truthy image_1)
  then Raise (Exn ValueError (lit "IMAGE_PATH_1 is required when sending church variant."))
  else if negb (truthy image_2)
  then Raise (Exn ValueError (lit "IMAGE_PATH_2 is required when sending home variant."))
  else Ok {| to_church := to_church; to_home := to_home;
             image_1 := image_1; image_2 := image_2 |}.
End Mail.

(** * Vocabulary of the properties

    The definitions of this part are not in the scripts: they name what
    the properties are about, and give the worked examples their data. *)

(** ** Strings and numerals *)

Definition is_digit (c : N) : Prop := (48 ≤ c ≤ 57)%N.

(** Empty or made of whitespace only, as a proposition and as a test. *)
Definition blank (s : pystr) : Prop := Forall (λ c, is_space c = true) s.
Definition is_blank (s : pystr) : bool := forallb is_space s.

Definition sum_Z (l : list Z) : Z := foldr Z.add 0 l.

(** ** Colours *)

(** The components [env_color] looks at: the first three. *)
Definition color_parts (raw : pystr) : list pystr := take 3 (split_on COMMA raw).

(** Malformed, in the words of C8: fewer than three components, or some
    component that is no integer. *)
Definition color_malformed (raw : pystr) : Prop :=
  (length (split_on COMMA raw) < 3)%nat
  ∨ ∃ s, s ∈ split_on COMMA raw ∧ raises (py_int s) ValueError.

(** ** Content fields *)

(** A value is refused when it is neither a string nor [None] (JSON null). *)
Definition refused (o : option pyval) : Prop :=
  ∃ v, o = Some v ∧ v ≠ PyNone ∧ ¬ is_str v.

(** ** Text blocks *)

(** How far one segment moves the cursor. *)
Definition line_advance (f : font) (line_spacing_px : Z) (seg : pystr) : Z :=
  if is_blank seg then font_size f + line_spacing_px
  else let '(_, y0, _, y1) := textbbox f seg in (y1 - y0) + line_spacing_px.

(** What one segment draws when the cursor is at [y]. *)
Definition line_text (f : font) (center_x : Z) (fill : color) (y : Z) (seg : pystr)
    : list draw_call :=
  if is_blank seg then []
  else let '(x0, _, x1, _) := textbbox f seg in
       [Text (center_x - (x1 - x0) / 2) y seg f fill].

(** What a list of segments draws, the cursor starting at [y]. *)
Fixpoint lines_text (f : font) (center_x : Z) (fill : color) (line_spacing_px : Z)
    (y : Z) (segs : list pystr) : list draw_call :=
  match segs with
  | [] => []
  | seg :: rest =>
      line_text f center_x fill y seg
      ++ lines_text f center_x fill line_spacing_px
           (y + line_advance f line_spacing_px seg) rest
  end.

(** ** Dividers *)

Definition is_text (c : draw_call) : bool :=
  match c with Text _ _ _ _ _ => true | Line _ _ _ _ _ _ => false end.

(** The rules on a surface: each rule carries exactly one ornament. *)
Definition rules (draw : ImageDraw) : nat := length (List.filter is_text (calls draw)).

(** The ornaments drawn, in order. *)
Definition ornaments (draw : ImageDraw) : list pystr :=
  omap (λ c, match c with Text _ _ t _ _ => Some t | Line _ _ _ _ _ _ => None end)
       (calls draw).

Definition present (y : option Z) : nat := match y with Some _ => 1%nat | None => 0%nat end.

(** ** The canvas *)

(** The target size of [ensure_a4]. *)
Definition a4_width (dpi : Z) : Z := py_round (float_mul F_8_27 (float_of_int dpi)).
Definition a4_height (dpi : Z) : Z := py_round (float_mul F_11_69 (float_of_int dpi)).

(** The float computation gives the decimal products 8.27 * dpi and
    11.69 * dpi rounded exactly, ties to even. *)
Definition a4_exact (dpi : Z) : bool :=
  (a4_width dpi =? round_half_even (827 * dpi) 100)
  && (a4_height dpi =? round_half_even (1169 * dpi) 100).

(** ** The entry point *)

(** The path [main] writes to, and the template it reads. *)
Definition output_path_of (environ : gmap pystr pystr) (argv : list pystr) : pystr :=
  if decide (3 ≤ length argv)%nat then nth 2 argv []
  else env_str environ (lit "OUTPUT_IMAGE") (lit "invite.png").

Definition TEMPLATE_of (environ : gmap pystr pystr) : pystr :=
  env_str environ (lit "TEMPLATE_IMAGE") [].

(** ** Data of the worked examples *)

(** A font whose glyphs are [size] wide and high. *)
Definition mono_font (size : Z) : font :=
  Font size (λ s, Ok (size * Z.of_nat (length s), size))
       (λ s, (0, 0, size * Z.of_nat (length s), size)).

Definition mono_fonts : fonts :=
  {| font_title := mono_font 120; font_body := mono_font 52; font_small := mono_font 44;
     font_hook := mono_font 34; font_rsvp := mono_font 52 |}.

(** A font without the floral heart, one whose probe fails, one that has it. *)
Definition font_without_heart : font :=
  Font 34 (λ s, if decide (s = [FLORAL_HEART]) then Ok (0, 0) else Ok (20, 30))
       (λ _, (0, 0, 20, 30)).
Definition font_broken : font :=
  Font 34 (λ _, Raise (Exn OSError [])) (λ _, (0, 0, 20, 30)).
Definition font_with_heart : font :=
  Font 34 (λ _, Ok (20, 30)) (λ _, (0, 0, 20, 30)).

Definition blank_page : ImageDraw :=
  {| im := {| size := (2481, 3507); data := Decoded (lit "template.png") |}; calls := [] |}.

(** The configuration of an environment that sets nothing. *)
Definition default_config : config := {|
  DPI := 300;
  FONT_TITLE_PATH := []; FONT_BODY_PATH := []; FONT_HOOK_PATH := [];
  TITLE_SIZE := 120; BODY_SIZE := 52; SMALL_SIZE := 44; HOOK_SIZE := 34; RSVP_SIZE := 52;
  Y_INTRO := 780; Y_TITLE := 900; Y_DETAILS := 1320; Y_MESSAGE := 1840;
  Y_SIGN := 2320; Y_RSVP := 3000;
  LINE_WIDTH := 900; LINE_THICKNESS := 2; LINE_COLOR := (180, 180, 180, 255);
  HOOK_GAP := 22; HOOK_CHAR := [FLORAL_HEART];
  DETAILS_DIVIDER_LINE_1_Y := None; DETAILS_DIVIDER_LINE_2_Y := None;
  MESSAGE_DIVIDER_LINE_1_Y := None; MESSAGE_DIVIDER_LINE_2_Y := None;
  SMALL_DIVIDER_WIDTH := 150;
  SMALL_DIVIDER_LINE_1_Y := None; SMALL_DIVIDER_LINE_2_Y := None;
  SMALL_DIVIDER_THICKNESS := 2; SMALL_DIVIDER_COLOR := (180, 180, 180, 255);
  SMALL_DIVIDER_HOOK_GAP := 22; SMALL_DIVIDER_HOOK_CHAR := [FLORAL_HEART];
|}.

(** A document with a title only, and the content [main] reads from it. *)
Definition jane_doe : gmap pystr pyval :=
  <[lit "TITLE_LINE_1" := PyStr (lit "Jane")]> (<[lit "TITLE_LINE_2" := PyStr (lit "Doe")]> ∅).

Definition jane_doe_content : content :=
  {| INTRO := []; TITLE := lit "Jane" ++ NL :: lit "Doe"; DETAILS := [];
     MESSAGE := []; SIGN := []; RSVP := [] |}.

(** A complete run: a template of 2000 x 2800 pixels, 300 DPI, the title
    "Jane" / "Doe", nothing else set. *)
Definition demo_environ : gmap pystr pystr :=
  {[ lit "TEMPLATE_IMAGE" := lit "template.png" ]}.
Definition demo_files : gmap pystr file :=
  <[lit "template.png" := ImageFile (2000, 2800)]> (<[lit "home.json" := TextFile []]> ∅).
Definition demo_argv : list pystr :=
  [lit "make_invite.py"; lit "home.json"; lit "home.png"].
Definition demo_page : Image :=
  {| size := (2481, 3507);
     data := Resampled 2481 3507 (Converted (lit "RGBA") (Decoded (lit "template.png"))) |}.

(** ** Configuration *)

(** A key counts as unset for the integer lookups when it is missing or its
    value is blank. *)
Definition unset (environ : gmap pystr pystr) (key : pystr) : Prop :=
  environ !! key = None ∨ ∃ v, environ !! key = Some v ∧ blank v.


(** ** Extents and counts *)

(** The height of the box of a text in a font. *)
Definition bbox_height (f : font) (text : pystr) : Z :=
  let '(_, y0, _, y1) := textbbox f text in y1 - y0.

Definition is_line (c : draw_call) : bool := negb (is_text c).

(** The line segments on a surface: two per rule. *)
Definition segments (draw : ImageDraw) : nat := length (List.filter is_line (calls draw)).

(** A text call of a given font and colour between two heights. *)
Definition text_within (f : font) (fill : color) (lo hi : Z) (c : draw_call) : Prop :=
  ∃ x y t, c = Text x y t f fill ∧ lo ≤ y ≤ hi ∧ is_blank t = false.

(** An exception of a given class. *)
Definition exn_is (e : exn) (c : exc_class) : Prop := ∃ msg, e = Exn c msg.

(** The set coordinates among the six of the three divider pairs. *)
Definition dividers_set (cfg : config) : nat :=
  (present (SMALL_DIVIDER_LINE_1_Y cfg) + present (SMALL_DIVIDER_LINE_2_Y cfg)
   + present (DETAILS_DIVIDER_LINE_1_Y cfg) + present (DETAILS_DIVIDER_LINE_2_Y cfg)
   + present (MESSAGE_DIVIDER_LINE_1_Y cfg) + present (MESSAGE_DIVIDER_LINE_2_Y cfg))%nat.

(** ** Recipients *)

(** An address as [parse_recipients] returns them: not empty, without a
    separator, without white space at either end. *)
Definition address (r : pystr) : Prop :=
  r ≠ [] ∧ (COMMA ∉ r) ∧ (NL ∉ r) ∧ py_strip r = r.

(** A character that never starts or ends an address. *)
Definition filler (c : N) : Prop := is_space c = true ∨ c = COMMA.

(** * Properties *)

(** ** Worked values *)

Example py_int_examples :
  py_int (lit " -12 ") = Ok (-12) ∧ py_int (lit "1_000") = Ok 1000
  ∧ py_int (lit "007") = Ok 7 ∧ raises (py_int (lit "1__0")) ValueError
  ∧ raises (py_int (lit "- 1")) ValueError ∧ raises (py_int []) ValueError.
Proof. repeat split; try reflexivity; by eexists. Qed.

Example split_examples :
  split_on NL [] = [[]] ∧ split_on NL (lit "a") = [lit "a"]
  ∧ split_on COMMA (lit "1,,2,") = [lit "1"; []; lit "2"; []].
Proof. repeat split. Qed.

Example float_literals :
  F_8_27 = Float false 4655596114794250 (-49)
  ∧ F_11_69 = Float false 6580884955495137 (-49)
  ∧ F_0_55 = Float false 4953959590107546 (-53).
Proof. repeat split; vm_compute; reflexivity. Qed.

(** ** Facts about [strip] and [split] *)

Section StripFacts.
Variable p : N → bool.

Lemma drop_while_nil_iff s :
  drop_while p s = [] ↔ Forall (λ c, p c = true) s.
Proof.
  induction s as [|c s IH]; simpl.
  - split; [constructor | done].
  - destruct (p c) eqn:Hc.
    + rewrite IH. split; [by constructor | by inversion 1].
    + split; [done | inversion 1; congruence].
Qed.

Lemma drop_while_head s c t : drop_while p s = c :: t → p c = false.
Proof.
  induction s as [|d s IH]; simpl; [done|].
  destruct (p d) eqn:Hd; [done | congruence].
Qed.

Lemma drop_while_fix s : p <$> head s ≠ Some true → drop_while p s = s.
Proof. destruct s as [|c s]; simpl; [done|]. by destruct (p c). Qed.

Lemma drop_while_rev_fix s : p <$> last s ≠ Some true → drop_while p (rev s) = rev s.
Proof.
  intros Hl. apply drop_while_fix.
  destruct s as [|c t _] using rev_ind; [done|].
  rewrite rev_unit. simpl. by rewrite last_snoc in Hl.
Qed.

Lemma drop_while_suffix s :
  ∃ pre, s = pre ++ drop_while p s ∧ Forall (λ c, p c = true) pre.
Proof.
  induction s as [|c s (pre & Hs & Hpre)]; simpl.
  - by exists [].
  - destruct (p c) eqn:Hc.
    + exists (c :: pre). split; [simpl; by rewrite <- Hs | by constructor].
    + by exists [].
Qed.

Lemma strip_with_nil_iff s :
  strip_with p s = [] ↔ Forall (λ c, p c = true) s.
Proof.
  unfold strip_with. split.
  - intros H. apply (f_equal (@rev N)) in H. rewrite rev_involutive in H.
    simpl in H. apply drop_while_nil_iff in H.
    apply Forall_rev in H. rewrite rev_involutive in H.
    destruct (drop_while p s) as [|c t] eqn:E.
    + by apply drop_while_nil_iff.
    + apply drop_while_head in E. inversion H; congruence.
  - intros H. apply drop_while_nil_iff in H. by rewrite H.
Qed.

(** A stripped string neither starts nor ends with a stripped character. *)
Lemma strip_with_head s : p <$> head (strip_with p s) ≠ Some true.
Proof.
  unfold strip_with.
  destruct (drop_while_suffix (rev (drop_while p s))) as (pre & Hs & Hpre).
  destruct (drop_while p s) as [|c t] eqn:E; [done|].
  apply drop_while_head in E.
  set (u := drop_while p (rev (c :: t))) in *.
  destruct u as [|d u] using rev_ind; [done|].
  rewrite rev_unit. simpl.
  rewrite app_assoc in Hs. apply (f_equal (@rev N)) in Hs.
  rewrite rev_involutive, rev_unit in Hs. congruence.
Qed.

Lemma strip_with_last s : p <$> last (strip_with p s) ≠ Some true.
Proof.
  unfold strip_with.
  destruct (drop_while p (rev (drop_while p s))) as [|c t] eqn:E; [done|].
  apply drop_while_head in E. simpl. rewrite last_snoc. simpl. congruence.
Qed.

(** Stripping leaves a string alone when neither end can be stripped. *)
Lemma strip_with_fix s :
  p <$> head s ≠ Some true → p <$> last s ≠ Some true → strip_with p s = s.
Proof.
  intros Hh Hl. unfold strip_with. rewrite (drop_while_fix s Hh).
  rewrite drop_while_rev_fix by done. apply rev_involutive.
Qed.

Lemma strip_with_idemp s : strip_with p (strip_with p s) = strip_with p s.
Proof. apply strip_with_fix; [apply strip_with_head | apply strip_with_last]. Qed.

(** Leading stripped characters do not change the result. *)
Lemma strip_with_cons c s : p c = true → strip_with p (c :: s) = strip_with p s.
Proof. intros Hc. unfold strip_with. simpl. by rewrite Hc. Qed.

(** Only the two ends are touched: the string is its stripped form between
    two runs of stripped characters. *)
Lemma strip_with_decompose s :
  ∃ pre post, s = pre ++ strip_with p s ++ post
              ∧ Forall (λ c, p c = true) pre ∧ Forall (λ c, p c = true) post.
Proof.
  destruct (drop_while_suffix s) as (pre & Hs & Hpre).
  destruct (drop_while_suffix (rev (drop_while p s))) as (tsop & Ht & Hpost).
  exists pre, (rev tsop). unfold strip_with.
  split; [|split; [done|by apply Forall_rev]].
  rewrite <- rev_app_distr, <- Ht, rev_involutive. exact Hs.
Qed.
End StripFacts.

Lemma py_strip_blank s : py_strip s = [] ↔ blank s.
Proof. apply strip_with_nil_iff. Qed.

Lemma truthy_false_iff s : truthy s = false ↔ s = [].
Proof. by destruct s. Qed.

Lemma truthy_true_iff s : truthy s = true ↔ s ≠ [].
Proof. by destruct s. Qed.

Lemma py_int_strip s : py_int (py_strip s) = py_int s.
Proof. unfold py_int, py_strip. by rewrite strip_with_idemp. Qed.

Section SplitFacts.
Variable sep : N.

Lemma split_on_nonempty s : split_on sep s ≠ [].
Proof.
  destruct s as [|c s]; simpl; [done|].
  destruct (c =? sep)%N; [done|]. by destruct (split_on sep s).
Qed.

(** One segment more than there are separators. *)
Lemma length_split_on s :
  length (split_on sep s) = S (length (filter (λ c, c = sep) s)).
Proof.
  induction s as [|c s IH]; simpl; [done|].
  destruct (N.eqb_spec c sep) as [->|Hne].
  - rewrite filter_cons_True by done. simpl. by rewrite IH.
  - rewrite filter_cons_False by done.
    pose proof (split_on_nonempty s).
    destruct (split_on sep s); [done|]. exact IH.
Qed.

Lemma split_on_no_sep s : sep ∉ s → split_on sep s = [s].
Proof.
  induction s as [|c s IH]; simpl; [done|].
  intros Hnin. apply not_elem_of_cons in Hnin as [Hne Hnin].
  destruct (N.eqb_spec c sep) as [->|_]; [done|]. by rewrite IH.
Qed.

Lemma split_on_app a b :
  split_on sep (a ++ sep :: b) = split_on sep a ++ split_on sep b.
Proof.
  induction a as [|c a IH]; simpl.
  - by rewrite N.eqb_refl.
  - destruct (c =? sep)%N; [by rewrite IH|]. rewrite IH.
    pose proof (split_on_nonempty a). by destruct (split_on sep a).
Qed.

Lemma split_on_join parts :
  parts ≠ [] → Forall (λ s, sep ∉ s) parts →
  split_on sep (join_with sep parts) = parts.
Proof.
  induction parts as [|q parts IH]; [done|]. intros _ Hall.
  apply Forall_cons in Hall as [Hq Hall].
  destruct parts as [|q' parts].
  - by apply split_on_no_sep.
  - change (join_with sep (q :: q' :: parts))
      with (q ++ sep :: join_with sep (q' :: parts)).
    rewrite split_on_app, split_on_no_sep by done.
    simpl. f_equal. by apply IH.
Qed.
End SplitFacts.

(** ** Decimal numerals: [int(str(z)) == z] *)

Lemma digit_val_digit d : 0 ≤ d < 10 → digit_val (Z.to_N (48 + d)) = Some d.
Proof.
  intros Hd. unfold digit_val.
  assert (H1 : (48 <=? Z.to_N (48 + d))%N = true) by (apply N.leb_le; lia).
  assert (H2 : (Z.to_N (48 + d) <=? 57)%N = true) by (apply N.leb_le; lia).
  rewrite H1, H2. simpl. f_equal. lia.
Qed.

Lemma is_digit_of d : 0 ≤ d < 10 → is_digit (Z.to_N (48 + d)).
Proof. unfold is_digit. lia. Qed.

Lemma int_digits_last_digit a b n rest' :
  0 ≤ n →
  int_digits a b (Z.to_N (48 + n mod 10) :: rest')
  = int_digits (10 * a + n mod 10) true rest'.
Proof.
  intros Hn. cbn [int_digits].
  rewrite digit_val_digit; [done|]. apply Z.mod_pos_bound. lia.
Qed.

Lemma digits_fuel_spec fuel : ∀ n rest,
  0 ≤ n < 2 ^ Z.of_nat (S fuel) →
  ∃ ds, digits_fuel (S fuel) n rest = ds ++ rest
        ∧ ds ≠ [] ∧ Forall is_digit ds
        ∧ ∀ a b rest', int_digits a b (ds ++ rest')
                       = int_digits (a * 10 ^ Z.of_nat (length ds) + n) true rest'.
Proof.
  assert (Hone : ∀ n rest, 0 ≤ n < 10 →
    ∃ ds, Z.to_N (48 + n mod 10) :: rest = ds ++ rest
        ∧ ds ≠ [] ∧ Forall is_digit ds
        ∧ ∀ a b rest', int_digits a b (ds ++ rest')
                       = int_digits (a * 10 ^ Z.of_nat (length ds) + n) true rest').
  { intros n rest Hn. exists [Z.to_N (48 + n mod 10)].
    split; [done|]. split; [done|].
    split; [constructor; [apply is_digit_of, Z.mod_pos_bound; lia | constructor]|].
    intros a b rest'. cbn [app]. rewrite int_digits_last_digit by lia.
    f_equal. cbn [length]. change (10 ^ Z.of_nat 1) with 10.
    rewrite Z.mod_small by lia. lia. }
  induction fuel as [|fuel IH]; intros n rest Hn.
  - change (2 ^ Z.of_nat 1) with 2 in Hn. cbn [digits_fuel].
    assert (Hlt : (n <? 10) = true) by (apply Z.ltb_lt; lia).
    rewrite Hlt. apply Hone. lia.
  - cbn [digits_fuel]. destruct (Z.ltb_spec n 10) as [Hlt|Hge]; [apply Hone; lia|].
    destruct (IH (n / 10) (Z.to_N (48 + n mod 10) :: rest)) as (ds & Hds & Hne & Hdig & Hval).
    { split; [apply Z.div_pos; lia|].
      apply Z.div_lt_upper_bound; [lia|].
      rewrite (Nat2Z.inj_succ (S fuel)), Z.pow_succ_r in Hn by lia. lia. }
    cbn [digits_fuel] in Hds. rewrite Hds.
    exists (ds ++ [Z.to_N (48 + n mod 10)]).
    split; [by rewrite <- app_assoc|]. split; [by destruct ds|].
    split; [apply Forall_app; split;
            [done|constructor; [apply is_digit_of, Z.mod_pos_bound; lia|constructor]]|].
    intros a b rest'. rewrite <- app_assoc. cbn [app]. rewrite Hval.
    rewrite int_digits_last_digit by lia. f_equal.
    rewrite length_app, Nat2Z.inj_add. cbn [length].
    rewrite Z.pow_add_r by lia. change (10 ^ Z.of_nat 1) with 10.
    pose proof (Z.div_mod n 10 ltac:(lia)). lia.
Qed.

Lemma is_digit_not_space c : is_digit c → is_space c = false.
Proof.
  unfold is_digit, is_space. intros Hc.
  repeat match goal with
         | |- context [(?a <=? ?b)%N] => destruct (N.leb_spec a b); try lia
         | |- context [(?a =? ?b)%N] => destruct (N.eqb_spec a b); try lia
         end; reflexivity.
Qed.

Lemma py_str_nonneg z :
  0 ≤ z → ∃ d ds, py_str z = d :: ds ∧ Forall is_digit (d :: ds)
                  ∧ int_digits 0 false (d :: ds) = Some z.
Proof.
  intros Hz. unfold py_str.
  assert (Hlt : (z <? 0) = false) by (apply Z.ltb_ge; lia). rewrite Hlt.
  rewrite Z.abs_eq by lia.
  destruct (digits_fuel_spec (Z.to_nat (Z.log2 z)) z []) as (ds & Hds & Hne & Hdig & Hval).
  { split; [lia|]. rewrite Nat2Z.inj_succ, Z2Nat.id by apply Z.log2_nonneg.
    destruct (Z.eq_dec z 0) as [->|]; [done|]. apply Z.log2_spec. lia. }
  rewrite Hds, app_nil_r. destruct ds as [|d ds]; [done|].
  exists d, ds. split; [done|]. split; [done|].
  specialize (Hval 0 false []). rewrite app_nil_r in Hval. rewrite Hval.
  cbn [int_digits]. f_equal; lia.
Qed.

Lemma py_str_shape z :
  ∃ d ds, Forall is_digit (d :: ds)
          ∧ int_digits 0 false (d :: ds) = Some (Z.abs z)
          ∧ py_str z = if z <? 0 then 45%N :: d :: ds else d :: ds.
Proof.
  destruct (py_str_nonneg (Z.abs z)) as (d & ds & Hs & Hdig & Hval); [lia|].
  exists d, ds. split; [done|]. split; [done|].
  unfold py_str in *. rewrite Z.abs_idemp in Hs.
  assert (Hlt : (Z.abs z <? 0) = false) by (apply Z.ltb_ge; lia).
  rewrite Hlt in Hs. by rewrite Hs.
Qed.

Lemma py_strip_fix s :
  s ≠ [] → Forall (λ c, is_space c = false) s → py_strip s = s.
Proof.
  intros Hne Hall. apply strip_with_fix.
  - destruct s as [|c s]; [done|]. apply Forall_cons in Hall as [Hc _].
    simpl. congruence.
  - destruct s as [|c s _] using rev_ind; [done|].
    apply Forall_app in Hall as [_ Hc]. apply Forall_cons in Hc as [Hc _].
    rewrite last_snoc. simpl. congruence.
Qed.

(** Reading back the numeral of an integer gives the integer. *)
Lemma py_int_py_str z : py_int (py_str z) = Ok z.
Proof.
  destruct (py_str_shape z) as (d & ds & Hdig & Hval & Hs).
  assert (Hsp : Forall (λ c, is_space c = false) (d :: ds)).
  { eapply Forall_impl; [exact Hdig|]. apply is_digit_not_space. }
  assert (Hd : is_digit d) by (by apply Forall_cons in Hdig as [? _]).
  unfold py_int. rewrite Hs. destruct (Z.ltb_spec z 0) as [Hneg|Hpos].
  - rewrite py_strip_fix; [|done|by constructor].
    rewrite Hval. simpl. f_equal. lia.
  - rewrite py_strip_fix by done.
    assert (int_digits 0 false (d :: ds) = Some z) as Hz by (rewrite Hval; f_equal; lia).
    unfold is_digit in Hd.
    assert (Hm : match d :: ds with
                 | 45%N :: r => Z.opp <$> int_digits 0 false r
                 | 43%N :: r => int_digits 0 false r
                 | r => int_digits 0 false r
                 end = int_digits 0 false (d :: ds)).
    { destruct d as [|q]; [reflexivity|].
      repeat (destruct q as [q|q|]; try reflexivity); exfalso; lia. }
    by rewrite Hm, Hz.
Qed.

Lemma py_str_no_comma z : COMMA ∉ py_str z.
Proof.
  destruct (py_str_shape z) as (d & ds & Hdig & _ & Hs). rewrite Hs.
  assert (Hnc : COMMA ∉ d :: ds).
  { intros Hin. rewrite Forall_forall in Hdig. apply Hdig in Hin.
    unfold is_digit, COMMA in Hin. lia. }
  destruct (z <? 0); [|done]. apply not_elem_of_cons. split; [done|exact Hnc].
Qed.

Lemma py_str_not_blank z : ¬ blank (py_str z).
Proof.
  destruct (py_str_shape z) as (d & ds & Hdig & _ & Hs). rewrite Hs.
  apply Forall_cons in Hdig as [Hd _]. apply is_digit_not_space in Hd.
  destruct (z <? 0); intros Hb; apply Forall_cons in Hb as [Hc Hb].
  - discriminate Hc.
  - congruence.
Qed.

(** ** The optional-integer lookup *)

Lemma fmap_Some_not_None (r : pyresult Z) : Some <$> r ≠ Ok None.
Proof. by destruct r. Qed.

(** C7.  [env_int_opt] answers "absent" ([None]) exactly when the key is
    missing or its value is blank (empty or whitespace only).  For every
    other value the answer is that of [int] on the value: the parsed
    integer (the error of [int] when the value is no integer); the
    decimal numeral of an integer gives that integer.  The value "0" gives
    the integer zero, which is not "absent". *)
Theorem env_int_opt_absent_iff_missing_or_blank (environ : gmap pystr pystr) (key : pystr) :
  (env_int_opt environ key = Ok None
     ↔ environ !! key = None ∨ ∃ v, environ !! key = Some v ∧ blank v)
  ∧ (∀ v, environ !! key = Some v → ¬ blank v →
       env_int_opt environ key = Some <$> py_int v)
  ∧ (∀ v z, environ !! key = Some v → ¬ blank v → py_int v = Ok z →
       env_int_opt environ key = Ok (Some z))
  ∧ (∀ z, environ !! key = Some (py_str z) → env_int_opt environ key = Ok (Some z))
  ∧ (environ !! key = Some (lit "0") →
       env_int_opt environ key = Ok (Some 0) ∧ Ok (Some 0) ≠ Ok (@None Z)).
Proof.
  assert (Hnb : ∀ v, environ !! key = Some v → ¬ blank v →
                env_int_opt environ key = Some <$> py_int v).
  { intros v Hv Hnb. unfold env_int_opt, getenv. rewrite Hv.
    destruct (py_strip v) as [|c t] eqn:E.
    - by apply py_strip_blank in E.
    - simpl. by rewrite <- E, py_int_strip. }
  split; [split|split; [|split; [|split]]].
  - unfold env_int_opt, getenv at 1. destruct (environ !! key) as [v|] eqn:Hv; [|by left].
    intros H. right. exists v. split; [done|].
    destruct (py_strip v) as [|c t] eqn:E; [by apply py_strip_blank|].
    simpl in H. by apply fmap_Some_not_None in H.
  - intros [Hnone | (v & Hv & Hb)]; unfold env_int_opt, getenv.
    + by rewrite Hnone.
    + rewrite Hv. apply py_strip_blank in Hb. by rewrite Hb.
  - exact Hnb.
  - intros v z Hv Hb Hz. rewrite (Hnb v Hv Hb), Hz. reflexivity.
  - intros z Hv. rewrite (Hnb _ Hv (py_str_not_blank z)), py_int_py_str. reflexivity.
  - intros Hv. unfold env_int_opt, getenv. rewrite Hv. by split.
Qed.

Lemma env_int_opt_absent_iff_missing_or_blank_witness :
  let environ : gmap pystr pystr :=
    <[lit "A_Y" := lit " 0 "]> (<[lit "B_Y" := lit "  "]> ∅) in
  env_int_opt environ (lit "A_Y") = Ok (Some 0)
  ∧ env_int_opt environ (lit "B_Y") = Ok None
  ∧ env_int_opt environ (lit "C_Y") = Ok None.
Proof.
  intros environ. split; [|split].
  - apply (proj1 (proj2 (proj2 (env_int_opt_absent_iff_missing_or_blank environ (lit "A_Y"))))
             (lit " 0 ")).
    + reflexivity.
    + intros Hb. apply py_strip_blank in Hb. discriminate Hb.
    + reflexivity.
  - apply (proj1 (env_int_opt_absent_iff_missing_or_blank environ (lit "B_Y"))).
    right. exists (lit "  "). split; [reflexivity|]. by apply py_strip_blank.
  - apply (proj1 (env_int_opt_absent_iff_missing_or_blank environ (lit "C_Y"))).
    by left.
Defined.

(** ** Colour parsing *)

Lemma py_int_error s e : py_int s = Raise e → e = Exn ValueError [].
Proof. unfold py_int. destruct (match py_strip s with [] => _ | _ => _ end); congruence. Qed.

Lemma py_int_cases s : (∃ z, py_int s = Ok z) ∨ py_int s = Raise (Exn ValueError []).
Proof.
  destruct (py_int s) as [z|e] eqn:E; [left; by exists z|right].
  by rewrite (py_int_error _ _ E).
Qed.

(** [map(int, ...)] consumed in order: all the integers, or the first error. *)
Lemma mapM_py_int_cases (l : list pystr) :
  (∃ zs, mapM_result py_int l = Ok zs ∧ Forall2 (λ s z, py_int s = Ok z) l zs)
  ∨ (mapM_result py_int l = Raise (Exn ValueError [])
     ∧ ∃ s, s ∈ l ∧ py_int s = Raise (Exn ValueError [])).
Proof.
  induction l as [|s l IH]; simpl.
  - left. exists []. by split.
  - destruct (py_int_cases s) as [[z Hz]|He].
    + rewrite Hz. simpl. destruct IH as [(zs & Hzs & Hall)|(Hr & s' & Hin & Hs')].
      * left. exists (z :: zs). rewrite Hzs. split; [done|by constructor].
      * right. rewrite Hr. split; [done|]. exists s'. split; [by right|done].
    + right. rewrite He. split; [done|]. exists s. split; [by left|done].
Qed.

(** What [env_color] does on every value: the colour of the first three
    components when there are three and each is an integer, a [ValueError]
    otherwise. *)
Lemma env_color_cases (environ : gmap pystr pystr) (key default : pystr) :
  let raw := env_str environ key default in
  (∃ a b c r g b', color_parts raw = [a; b; c]
      ∧ py_int a = Ok r ∧ py_int b = Ok g ∧ py_int c = Ok b'
      ∧ env_color environ key default = Ok (r, g, b', 255))
  ∨ (env_color environ key default = Raise (Exn ValueError [])
     ∧ ((length (split_on COMMA raw) < 3)%nat
        ∨ ∃ s, s ∈ color_parts raw ∧ py_int s = Raise (Exn ValueError []))).
Proof.
  intros raw. unfold env_color, color_parts. fold raw.
  rewrite <- fmap_take.
  destruct (mapM_py_int_cases (py_strip <$> take 3 (split_on COMMA raw)))
    as [(zs & Hzs & Hall)|(Hr & s & Hin & Hs)].
  - change (map py_strip) with (fmap (M:=list) py_strip). rewrite Hzs. simpl.
    destruct (take 3 (split_on COMMA raw)) as [|a [|b [|c [|d l]]]] eqn:E.
    + right. inversion Hall; subst. split; [done|]. left.
      apply (f_equal length) in E. rewrite length_take in E. cbn [length] in E. lia.
    + right. inversion Hall as [|? ? ? ? ? H1]; subst. inversion H1; subst.
      split; [done|]. left.
      apply (f_equal length) in E. rewrite length_take in E. cbn [length] in E. lia.
    + right. inversion Hall as [|? ? ? ? ? H1]; subst.
      inversion H1 as [|? ? ? ? ? H2]; subst. inversion H2; subst.
      split; [done|]. left.
      apply (f_equal length) in E. rewrite length_take in E. cbn [length] in E. lia.
    + left. inversion Hall as [|? r ? ? Hr H1]; subst.
      inversion H1 as [|? g ? ? Hg H2]; subst.
      inversion H2 as [|? b' ? ? Hb H3]; subst. inversion H3; subst.
      exists a, b, c, r, g, b'. rewrite py_int_strip in Hr, Hg, Hb. done.
    + apply (f_equal length) in E. rewrite length_take in E. cbn [length] in E. lia.
  - right. change (map py_strip) with (fmap (M:=list) py_strip). rewrite Hr.
    split; [done|]. right.
    apply list_elem_of_fmap in Hin as (s0 & -> & Hin0).
    exists s0. split; [done|]. by rewrite py_int_strip in Hs.
Qed.

(** C8, as stated, fails: a fourth component that is no integer does not
    make [env_color] raise; [parts[:3]] drops it. *)
Lemma env_color_ignores_fourth_component :
  let environ : gmap pystr pystr := {[ lit "LINE_COLOR" := lit "1,2,3,x" ]} in
  color_malformed (env_str environ (lit "LINE_COLOR") (lit "180,180,180"))
  ∧ env_color environ (lit "LINE_COLOR") (lit "180,180,180") = Ok (1, 2, 3, 255)
  ∧ ¬ raises (env_color environ (lit "LINE_COLOR") (lit "180,180,180")) ValueError.
Proof.
  intros environ. split; [|split].
  - right. exists (lit "x"). split.
    + vm_compute. do 3 right. left.
    + by exists [].
  - reflexivity.
  - intros [msg H]. discriminate H.
Qed.

(** C8, amended.  A value "r,g,b" of three integer numerals gives
    [(r, g, b, 255)]; so do three components that [int] reads as [r], [g]
    and [b], whatever follows them.  A value with fewer than three
    components, or with a non-integer among its first three, raises
    [ValueError]: the default colour is only used when the key is missing. *)
Theorem env_color_triple_or_error (environ : gmap pystr pystr) (key default : pystr) :
  (∀ r g b, env_str environ key default = py_str r ++ COMMA :: py_str g ++ COMMA :: py_str b →
     env_color environ key default = Ok (r, g, b, 255))
  ∧ (∀ a b c rest r g b', split_on COMMA (env_str environ key default) = a :: b :: c :: rest →
       py_int a = Ok r → py_int b = Ok g → py_int c = Ok b' →
       env_color environ key default = Ok (r, g, b', 255))
  ∧ ((length (split_on COMMA (env_str environ key default)) < 3)%nat →
       raises (env_color environ key default) ValueError)
  ∧ (∀ s, s ∈ color_parts (env_str environ key default) → raises (py_int s) ValueError →
       raises (env_color environ key default) ValueError)
  ∧ (∀ v, environ !! key = Some v → env_str environ key default = v).
Proof.
  assert (Hthree : ∀ a b c rest r g b',
    split_on COMMA (env_str environ key default) = a :: b :: c :: rest →
    py_int a = Ok r → py_int b = Ok g → py_int c = Ok b' →
    env_color environ key default = Ok (r, g, b', 255)).
  { intros a b c rest r g b' Hsplit Ha Hb Hc.
    destruct (env_color_cases environ key default)
      as [(a' & b0 & c' & r' & g' & b1 & Hp & Ha' & Hb' & Hc' & Hres)|(_ & [Hlen|(s & Hin & Hs)])].
    - unfold color_parts in Hp. rewrite Hsplit in Hp. simpl in Hp.
      injection Hp as <- <- <-. congruence.
    - rewrite Hsplit in Hlen. simpl in Hlen. lia.
    - unfold color_parts in Hin. rewrite Hsplit in Hin. simpl in Hin.
      apply elem_of_cons in Hin as [->|Hin]; [congruence|].
      apply elem_of_cons in Hin as [->|Hin]; [congruence|].
      apply elem_of_cons in Hin as [->|Hin]; [congruence|].
      by apply elem_of_nil in Hin. }
  split; [|split; [exact Hthree|split; [|split]]].
  - intros r g b Hraw.
    apply (Hthree (py_str r) (py_str g) (py_str b) []); try apply py_int_py_str.
    rewrite Hraw.
    change (py_str r ++ COMMA :: py_str g ++ COMMA :: py_str b)
      with (join_with COMMA [py_str r; py_str g; py_str b]).
    apply split_on_join; [done|]. repeat constructor; apply py_str_no_comma.
  - intros Hlen.
    destruct (env_color_cases environ key default)
      as [(a & b & c & r & g & b' & Hp & _)|(Hres & _)].
    + apply (f_equal length) in Hp. unfold color_parts in Hp.
      rewrite length_take in Hp. cbn [length] in Hp. lia.
    + by exists [].
  - intros s Hin [msg Hs].
    destruct (env_color_cases environ key default)
      as [(a & b & c & r & g & b' & Hp & Ha & Hb & Hc & _)|(Hres & _)].
    + rewrite Hp in Hin.
      apply elem_of_cons in Hin as [->|Hin]; [congruence|].
      apply elem_of_cons in Hin as [->|Hin]; [congruence|].
      apply elem_of_cons in Hin as [->|Hin]; [congruence|].
      by apply elem_of_nil in Hin.
    + by exists [].
  - intros v Hv. unfold env_str, getenv. by rewrite Hv.
Qed.

Lemma env_color_triple_or_error_witness :
  let environ : gmap pystr pystr :=
    <[lit "LINE_COLOR" := py_str 12 ++ COMMA :: py_str 0 ++ COMMA :: py_str 255]>
      (<[lit "SMALL_DIVIDER_COLOR" := lit "1,2"]> ∅) in
  env_color environ (lit "LINE_COLOR") (lit "180,180,180") = Ok (12, 0, 255, 255)
  ∧ raises (env_color environ (lit "SMALL_DIVIDER_COLOR") (lit "180,180,180")) ValueError.
Proof.
  intros environ. split.
  - apply (proj1 (env_color_triple_or_error environ (lit "LINE_COLOR") (lit "180,180,180"))).
    reflexivity.
  - apply (proj1 (proj2 (proj2 (env_color_triple_or_error environ
             (lit "SMALL_DIVIDER_COLOR") (lit "180,180,180"))))).
    vm_compute. lia.
Defined.

(** ** Content fields of the document *)

Lemma get_optional_cases (d : gmap pystr pyval) (key : pystr) :
  (∃ s, Json.get_optional d key [] = Ok s ∧ ¬ refused (d !! key))
  ∨ (∃ msg, Json.get_optional d key [] = Raise (Exn TypeError msg) ∧ refused (d !! key)).
Proof.
  unfold Json.get_optional, refused.
  destruct (d !! key) as [[]|];
    try (right; eexists; split; [reflexivity|];
         eexists; split; [reflexivity|]; split; [done|]; by intros [? ?]);
    left; eexists; (split; [reflexivity|]); intros (v & Hv & Hnn & Hns);
    try discriminate Hv; injection Hv as <-; try done.
  apply Hns. by eexists.
Qed.

(** [get_required] differs on a missing key only, which it refuses;
    [main] reads every content field with [get_optional]. *)
Lemma get_required_cases (d : gmap pystr pyval) (key : pystr) :
  (d !! key = None → raises (Json.get_required d key) KeyError)
  ∧ (is_Some (d !! key) → Json.get_required d key = Json.get_optional d key []).
Proof.
  unfold Json.get_required, Json.get_optional. split.
  - intros ->. by eexists.
  - intros [v ->]. by destruct v.
Qed.

Lemma load_content_refused (inv : gmap pystr pyval) (key : pystr) :
  key ∈ Json.content_keys → refused (inv !! key) →
  raises (Json.load_content inv) TypeError.
Proof.
  intros Hkey Hbad. unfold Json.load_content.
  repeat match goal with
         | |- context [Json.get_optional inv ?k []] =>
             destruct (get_optional_cases inv k) as [(? & -> & ?)|(? & -> & ?)];
             cbn [mbind pyresult_bind]; [|by eexists]
         end.
  unfold Json.content_keys in Hkey.
  repeat (apply elem_of_cons in Hkey as [->|Hkey]; [done|]).
  by apply elem_of_nil in Hkey.
Qed.

(** C2, as stated, fails: JSON null is not a string, yet a field holding
    it is read as the empty string and the document loads. *)
Lemma get_optional_null_is_empty :
  let inv : gmap pystr pyval := {[ lit "INTRO_TEXT" := PyNone ]} in
  inv !! lit "INTRO_TEXT" = Some PyNone
  ∧ ¬ is_str PyNone
  ∧ Json.get_optional inv (lit "INTRO_TEXT") [] = Ok []
  ∧ Json.load_content inv
    = Ok {| INTRO := []; TITLE := []; DETAILS := []; MESSAGE := []; SIGN := []; RSVP := [] |}.
Proof.
  intros inv. split; [reflexivity|]. split; [by intros [s Hs]|].
  split; reflexivity.
Qed.

(** C2, amended.  For every content field of the document: a value that is
    neither a string nor null raises [TypeError], in [get_optional], in
    the loading of the content and so in the whole render, which stops
    before the template is opened; an absent field and a null field are
    both read as the empty string; a string is read as itself. *)
Theorem content_field_string_null_or_type_error
    (environ : gmap pystr pystr) (json_loads : pystr → pyresult pyval)
    (truetype : pystr → Z → pyresult font) (load_default : font)
    (inv : gmap pystr pyval) (key : pystr) :
  key ∈ Json.content_keys →
  (inv !! key = None → Json.get_optional inv key [] = Ok [])
  ∧ (inv !! key = Some PyNone → Json.get_optional inv key [] = Ok [])
  ∧ (∀ s, inv !! key = Some (PyStr s) → Json.get_optional inv key [] = Ok s)
  ∧ (refused (inv !! key) →
       raises (Json.get_optional inv key []) TypeError
       ∧ raises (Json.load_content inv) TypeError
       ∧ ∀ fs json_path TEMPLATE cfg,
           load_config environ = Ok cfg →
           Json.read_invitation_json json_loads fs json_path = Ok inv →
           raises (Json.render environ truetype load_default json_loads fs json_path TEMPLATE)
                  TypeError).
Proof.
  intros Hkey. unfold Json.get_optional.
  split; [by intros ->|]. split; [by intros ->|]. split; [by intros s ->|].
  intros Hbad. split; [|split].
  - destruct (get_optional_cases inv key) as [(s & _ & Hok)|(msg & Hr & _)]; [done|].
    by exists msg.
  - by apply (load_content_refused inv key).
  - intros fs json_path TEMPLATE cfg Hcfg Hinv.
    destruct (load_content_refused inv key Hkey Hbad) as [msg Hmsg].
    exists msg. unfold Json.render.
    rewrite Hcfg. cbn [mbind pyresult_bind].
    rewrite Hinv. cbn [mbind pyresult_bind].
    by rewrite Hmsg.
Qed.

Lemma content_field_string_null_or_type_error_witness :
  let inv : gmap pystr pyval :=
    <[lit "TITLE_LINE_1" := PyStr (lit "Jane")]> (<[lit "RSVP_TEXT" := PyInt 7]> ∅) in
  Json.get_optional inv (lit "TITLE_LINE_1") [] = Ok (lit "Jane")
  ∧ Json.get_optional inv (lit "TITLE_LINE_2") [] = Ok []
  ∧ raises (Json.load_content inv) TypeError.
Proof.
  intros inv.
  pose (f := Font 10 (λ _, Ok (1, 1)) (λ _, (0, 0, 1, 1))).
  pose proof (content_field_string_null_or_type_error ∅ (λ _, Ok PyNone) (λ _ _, Ok f) f inv)
    as H.
  split; [|split].
  - apply (H (lit "TITLE_LINE_1")).
    + unfold Json.content_keys. do 1 right. left.
    + reflexivity.
  - apply (proj1 (H (lit "TITLE_LINE_2") ltac:(unfold Json.content_keys; do 2 right; left))).
    reflexivity.
  - apply (proj2 (proj2 (proj2 (H (lit "RSVP_TEXT")
             ltac:(unfold Json.content_keys; do 10 right; left))))).
    exists (PyInt 7). split; [reflexivity|]. split; [done|]. by intros [s Hs].
Defined.

(** ** The text block renderer *)

Lemma is_blank_spec s : is_blank s = true ↔ blank s.
Proof.
  unfold is_blank, blank. rewrite forallb_forall, Forall_forall.
  split; intros H c Hc; apply H; by apply list_elem_of_In.
Qed.

Lemma strip_test_is_blank s : negb (truthy (py_strip s)) = is_blank s.
Proof.
  destruct (is_blank s) eqn:E.
  - apply is_blank_spec, py_strip_blank in E. by rewrite E.
  - destruct (py_strip s) eqn:Es; [|done].
    apply py_strip_blank, is_blank_spec in Es. congruence.
Qed.

Lemma line_step_spec f cx fill sp y draw seg :
  line_step f cx fill sp (y, draw) seg
  = (y + line_advance f sp seg,
     {| im := im draw; calls := calls draw ++ line_text f cx fill y seg |}).
Proof.
  unfold line_step, line_advance, line_text. rewrite strip_test_is_blank.
  destruct (is_blank seg).
  - rewrite app_nil_r. by destruct draw.
  - by destruct (textbbox f seg) as [[[x0 y0] x1] y1].
Qed.

Lemma fold_line_step f cx fill sp segs : ∀ y draw,
  fold_left (line_step f cx fill sp) segs (y, draw)
  = (y + sum_Z (map (line_advance f sp) segs),
     {| im := im draw; calls := calls draw ++ lines_text f cx fill sp y segs |}).
Proof.
  induction segs as [|seg segs IH]; intros y draw;
    cbn [fold_left map sum_Z foldr lines_text].
  - rewrite Z.add_0_r, app_nil_r. by destruct draw.
  - rewrite line_step_spec, IH. cbn [im calls]. rewrite <- app_assoc.
    f_equal. fold (sum_Z (map (line_advance f sp) segs)). lia.
Qed.

Lemma length_lines_text f cx fill sp segs : ∀ y,
  length (lines_text f cx fill sp y segs)
  = length (filter (λ s, is_blank s = false) segs).
Proof.
  induction segs as [|seg segs IH]; intros y; simpl; [done|].
  rewrite length_app, IH. unfold line_text.
  destruct (is_blank seg) eqn:E.
  - by rewrite filter_cons_False by congruence.
  - rewrite filter_cons_True by done.
    by destruct (textbbox f seg) as [[[x0 y0] x1] y1].
Qed.

(** C3.  [draw_centered_multiline] handles one line per segment of
    [text.split("\n")], empty segments included: as many lines as there
    are newline characters, plus one.  The value returned is the starting
    cursor moved by every segment in turn, by the font's size plus the
    spacing for a blank segment and by the height of its bounding box plus
    the spacing for any other; the calls added to the surface are exactly
    one [draw.text] per non-blank segment, each at the cursor reached by
    the segments before it, and nothing for a blank one. *)
Theorem draw_centered_multiline_per_segment
    (draw : ImageDraw) (text : pystr) (f : font) (center_x top_y : Z)
    (fill : color) (line_spacing_px : Z) :
  let segs := split_on NL text in
  length segs = S (length (filter (λ c, c = NL) text))
  ∧ draw_centered_multiline draw text f center_x top_y fill line_spacing_px
    = (top_y + sum_Z (map (line_advance f line_spacing_px) segs),
       {| im := im draw;
          calls := calls draw ++ lines_text f center_x fill line_spacing_px top_y segs |})
  ∧ length (lines_text f center_x fill line_spacing_px top_y segs)
    = length (filter (λ s, is_blank s = false) segs)
  ∧ (∀ seg y, blank seg →
       line_advance f line_spacing_px seg = font_size f + line_spacing_px
       ∧ line_text f center_x fill y seg = [])
  ∧ (∀ seg y x0 y0 x1 y1, ¬ blank seg → textbbox f seg = (x0, y0, x1, y1) →
       line_advance f line_spacing_px seg = (y1 - y0) + line_spacing_px
       ∧ line_text f center_x fill y seg = [Text (center_x - (x1 - x0) / 2) y seg f fill]).
Proof.
  intros segs. split; [apply length_split_on|].
  split; [apply fold_line_step|]. split; [apply length_lines_text|]. split.
  - intros seg y Hb. apply is_blank_spec in Hb.
    unfold line_advance, line_text. by rewrite Hb.
  - intros seg y x0 y0 x1 y1 Hnb Hbox.
    assert (Hb : is_blank seg = false).
    { destruct (is_blank seg) eqn:E; [|done]. by apply is_blank_spec in E. }
    unfold line_advance, line_text. by rewrite Hb, Hbox.
Qed.

Example draw_centered_multiline_example :
  draw_centered_multiline {| im := {| size := (100, 100); data := Decoded [] |}; calls := [] |}
    (lit "ab" ++ NL :: NL :: lit "  " ++ NL :: lit "c") (mono_font 10) 50 0 TEXT_COLOR 4
  = (56, {| im := {| size := (100, 100); data := Decoded [] |};
            calls := [Text 40 0 (lit "ab") (mono_font 10) TEXT_COLOR;
                      Text 45 42 (lit "c") (mono_font 10) TEXT_COLOR] |}).
Proof. reflexivity. Qed.

Lemma draw_centered_multiline_per_segment_witness :
  let draw := {| im := {| size := (100, 100); data := Decoded [] |}; calls := [] |} in
  let text := lit "ab" ++ NL :: NL :: lit "c" in
  length (split_on NL text) = 3%nat
  ∧ (draw_centered_multiline draw text (mono_font 10) 50 0 TEXT_COLOR 4).1 = 42
  ∧ line_advance (mono_font 10) 4 [] = 14.
Proof.
  intros draw text.
  pose proof (draw_centered_multiline_per_segment draw text (mono_font 10) 50 0 TEXT_COLOR 4)
    as (Hlen & Hrun & _ & Hblank & _).
  split; [exact Hlen|]. split; [by rewrite Hrun|].
  apply (Hblank [] 0). constructor.
Defined.

(** ** The divider renderer *)

Section Divider.
Variable load_default : font.

Lemma draw_hook_divider_calls draw cx y width fill thickness hook_char hook_font hook_gap :
  let f := match hook_font with Some f => f | None => load_default end in
  let glyph := probe_hook_char f hook_char in
  let '(x0, y0, x1, y1) := textbbox f glyph in
  draw_hook_divider load_default draw cx y width fill thickness hook_char hook_font hook_gap
  = {| im := im draw;
       calls := calls draw ++
         [ Line (cx - width / 2) y (cx - hook_gap) y fill thickness;
           Line (cx + hook_gap) y (cx + width / 2) y fill thickness;
           Text (cx - (x1 - x0) / 2)
                (y - py_trunc (float_mul (float_of_int (y1 - y0)) F_0_55))
                glyph f fill ] |}.
Proof.
  intros f glyph. unfold draw_hook_divider. fold f. fold glyph.
  destruct (textbbox f glyph) as [[[x0 y0] x1] y1].
  unfold draw_text, draw_line. cbn [im calls]. by rewrite <- !app_assoc.
Qed.

Lemma draw_hook_divider_rules draw cx y width fill thickness hook_char hook_font hook_gap :
  rules (draw_hook_divider load_default draw cx y width fill thickness hook_char
           hook_font hook_gap) = S (rules draw).
Proof.
  pose proof (draw_hook_divider_calls draw cx y width fill thickness hook_char hook_font
                hook_gap) as H. cbv zeta in H.
  destruct (textbbox _ _) as [[[x0 y0] x1] y1]. rewrite H. unfold rules. cbn [calls].
  rewrite List.filter_app, length_app. cbn [List.filter is_text length]. lia.
Qed.

(** C5.  The glyph probe of [draw_hook_divider] has a value for every
    outcome of [getmask]: the bullet when the call raises, whatever the
    exception, and when the mask has size (0, 0); the requested glyph
    otherwise.  The divider is then two line segments and one ornament, and
    the ornament drawn is that value, a function of the font and the
    requested glyph alone. *)
Theorem hook_glyph_fallback_is_bullet
    (draw : ImageDraw) (cx y width : Z) (fill : color) (thickness : Z)
    (hook_char : pystr) (hook_font : option font) (hook_gap : Z) :
  let f := match hook_font with Some f => f | None => load_default end in
  let after := draw_hook_divider load_default draw cx y width fill thickness hook_char
                 hook_font hook_gap in
  ornaments after = ornaments draw ++ [probe_hook_char f hook_char]
  ∧ (∀ e, getmask_size f hook_char = Raise e → ornaments after = ornaments draw ++ [[BULLET]])
  ∧ (getmask_size f hook_char = Ok (0, 0) → ornaments after = ornaments draw ++ [[BULLET]])
  ∧ (∀ m, getmask_size f hook_char = Ok m → m ≠ (0, 0) →
       ornaments after = ornaments draw ++ [hook_char])
  ∧ length (calls after) = (length (calls draw) + 3)%nat.
Proof.
  intros f after.
  assert (Horn : ornaments after = ornaments draw ++ [probe_hook_char f hook_char]).
  { pose proof (draw_hook_divider_calls draw cx y width fill thickness hook_char hook_font
                  hook_gap) as H. cbv zeta in H. fold f in H.
    destruct (textbbox f (probe_hook_char f hook_char)) as [[[x0 y0] x1] y1].
    unfold after. rewrite H. unfold ornaments. cbn [calls].
    by rewrite omap_app. }
  split; [exact Horn|]. rewrite Horn. unfold probe_hook_char.
  split; [by intros e ->|]. split; [by intros ->|]. split.
  - intros m -> Hm. by rewrite decide_False.
  - pose proof (draw_hook_divider_calls draw cx y width fill thickness hook_char hook_font
                  hook_gap) as H. cbv zeta in H. fold f in H.
    destruct (textbbox f _) as [[[x0 y0] x1] y1].
    unfold after. rewrite H. cbn [calls]. rewrite length_app. reflexivity.
Qed.
End Divider.

Lemma hook_glyph_fallback_is_bullet_witness :
  ornaments (draw_hook_divider font_with_heart blank_page 1290 1500 900 (180, 180, 180, 255) 2
               [FLORAL_HEART] (Some font_without_heart) 22) = [[BULLET]]
  ∧ ornaments (draw_hook_divider font_with_heart blank_page 1290 1500 900 (180, 180, 180, 255) 2
                 [FLORAL_HEART] (Some font_broken) 22) = [[BULLET]]
  ∧ ornaments (draw_hook_divider font_with_heart blank_page 1290 1500 900 (180, 180, 180, 255) 2
                 [FLORAL_HEART] None 22) = [[FLORAL_HEART]].
Proof.
  split; [|split].
  - apply (proj1 (proj2 (proj2 (hook_glyph_fallback_is_bullet font_with_heart blank_page
             1290 1500 900 (180, 180, 180, 255) 2 [FLORAL_HEART] (Some font_without_heart) 22)))).
    reflexivity.
  - apply (proj1 (proj2 (hook_glyph_fallback_is_bullet font_with_heart blank_page
             1290 1500 900 (180, 180, 180, 255) 2 [FLORAL_HEART] (Some font_broken) 22))
             (Exn OSError [])).
    reflexivity.
  - apply (proj1 (proj2 (proj2 (proj2 (hook_glyph_fallback_is_bullet font_with_heart blank_page
             1290 1500 900 (180, 180, 180, 255) 2 [FLORAL_HEART] None 22)))) (20, 30)).
    + reflexivity.
    + done.
Defined.

Example draw_hook_divider_example :
  calls (draw_hook_divider font_with_heart blank_page 1290 1500 900 (180, 180, 180, 255) 2
           [FLORAL_HEART] (Some font_without_heart) 22)
  = [ Line 840 1500 1268 1500 (180, 180, 180, 255) 2;
      Line 1312 1500 1740 1500 (180, 180, 180, 255) 2;
      Text 1280 1484 [BULLET] font_without_heart (180, 180, 180, 255) ].
Proof. vm_compute. reflexivity. Qed.

(** ** Divider pairs *)

(** Each of the two coordinates is tested on its own. *)
Lemma draw_divider_pair_rules load_default draw cx width fill thickness hook_char hook_font
    hook_gap (line_1_y line_2_y : option Z) :
  rules (draw_divider_pair load_default draw cx width fill thickness hook_char hook_font
           hook_gap line_1_y line_2_y)
  = (rules draw + present line_1_y + present line_2_y)%nat.
Proof.
  unfold draw_divider_pair.
  destruct line_1_y, line_2_y; rewrite ?draw_hook_divider_rules; simpl; lia.
Qed.

(** C1.  With no coordinate no rule is drawn, with the first only one
    rule, with both two rules.  With the second coordinate only, the
    first being absent, [draw_divider_pair] still draws one rule, at the
    second coordinate: the absence of the first does not suppress the
    pair. *)
Theorem draw_divider_pair_second_without_first
    (load_default : font) (draw : ImageDraw) (cx width : Z) (fill : color) (thickness : Z)
    (hook_char : pystr) (hook_font : font) (hook_gap : Z) (y1 y2 : Z) :
  draw_divider_pair load_default draw cx width fill thickness hook_char hook_font hook_gap
    None None = draw
  ∧ rules (draw_divider_pair load_default draw cx width fill thickness hook_char hook_font
             hook_gap (Some y1) None) = S (rules draw)
  ∧ rules (draw_divider_pair load_default draw cx width fill thickness hook_char hook_font
             hook_gap (Some y1) (Some y2)) = S (S (rules draw))
  ∧ draw_divider_pair load_default draw cx width fill thickness hook_char hook_font hook_gap
      None (Some y2)
    = draw_hook_divider load_default draw cx y2 width fill thickness hook_char
        (Some hook_font) hook_gap
  ∧ rules (draw_divider_pair load_default draw cx width fill thickness hook_char hook_font
             hook_gap None (Some y2)) = S (rules draw).
Proof.
  rewrite !draw_divider_pair_rules. cbn [present].
  repeat split; try reflexivity; lia.
Qed.

Example draw_divider_pair_second_only_example :
  calls (draw_divider_pair font_with_heart blank_page 1290 150 (180, 180, 180, 255) 2
           [FLORAL_HEART] font_with_heart 22 None (Some 1250))
  = [ Line 1215 1250 1268 1250 (180, 180, 180, 255) 2;
      Line 1312 1250 1365 1250 (180, 180, 180, 255) 2;
      Text 1280 1234 [FLORAL_HEART] font_with_heart (180, 180, 180, 255) ].
Proof. vm_compute. reflexivity. Qed.

(** ** The canvas preparer *)

Lemma round_half_even_lower n d : 0 < d → n / d ≤ round_half_even n d.
Proof.
  intros Hd. unfold round_half_even.
  destruct (2 * (n mod d) <? d); [lia|].
  destruct (d <? 2 * (n mod d)); [lia|].
  destruct (Z.even (n / d)); lia.
Qed.

(** Rounding to 53 bits keeps a significand that reaches 2^52 above it,
    and never lowers the exponent. *)
Lemma round53_lower m e m' e' :
  round53 m e = (m', e') → 2 ^ 52 ≤ m → 2 ^ 52 ≤ m' ∧ e ≤ e'.
Proof.
  unfold round53. intros H Hm.
  destruct (Z.leb_spec (Z.log2 m - 52) 0) as [Hk|Hk].
  - injection H as <- <-. lia.
  - injection H as <- <-. split; [|lia].
    etransitivity; [|apply round_half_even_lower; apply Z.pow_pos_nonneg; lia].
    apply Z.div_le_lower_bound; [apply Z.pow_pos_nonneg; lia|].
    rewrite <- Z.pow_add_r by lia.
    replace (Z.log2 m - 52 + 52) with (Z.log2 m) by lia.
    apply Z.log2_spec. lia.
Qed.

Lemma round53_pos m e m' e' :
  round53 m e = (m', e') → 0 < m → 0 < m' ∧ e ≤ e'.
Proof.
  unfold round53. intros H Hm.
  destruct (Z.leb_spec (Z.log2 m - 52) 0) as [Hk|Hk].
  - injection H as <- <-. lia.
  - destruct (round53_lower m e m' e') as [H1 H2].
    + unfold round53. destruct (Z.leb_spec (Z.log2 m - 52) 0); [lia|done].
    + pose proof (Z.log2_spec m Hm) as [Hlo _].
      etransitivity; [|exact Hlo]. apply Z.pow_le_mono_r; lia.
    + lia.
Qed.

(** A positive DPI times a literal of at least 2^52 * 2^-49 = 8 rounds to a
    positive number of pixels. *)
Lemma scaled_positive (c : float) (dpi : Z) :
  f_neg c = false → 2 ^ 52 ≤ f_mant c → -49 ≤ f_exp c → 0 < dpi →
  0 < py_round (float_mul c (float_of_int dpi)).
Proof.
  intros Hneg Hmant Hexp Hdpi.
  unfold float_of_int. rewrite Z.abs_eq by lia.
  destruct (round53 dpi 0) as [md ed] eqn:Ed.
  apply round53_pos in Ed as [Hmd Hed]; [|done].
  assert (Hlt : (dpi <? 0) = false) by (apply Z.ltb_ge; lia). rewrite Hlt.
  unfold float_mul. cbn [f_mant f_exp f_neg].
  destruct (round53 (f_mant c * md) (f_exp c + ed)) as [mp ep] eqn:Ep.
  apply round53_lower in Ep as [Hmp Hep]; [|nia].
  unfold py_round. cbn [f_mant f_exp f_neg]. rewrite Hneg. cbn [xorb signed].
  destruct (Z.leb_spec 0 ep) as [Hpos|Hnegexp].
  - apply Z.mul_pos_pos; [lia|]. apply Z.pow_pos_nonneg; lia.
  - eapply Z.lt_le_trans; [|apply round_half_even_lower; apply Z.pow_pos_nonneg; lia].
    apply Z.div_str_pos. split; [apply Z.pow_pos_nonneg; lia|].
    etransitivity; [|exact Hmp]. apply Z.pow_le_mono_r; lia.
Qed.

Lemma a4_size_positive dpi : 0 < dpi → 0 < a4_width dpi ∧ 0 < a4_height dpi.
Proof.
  intros Hdpi. split; apply scaled_positive; try done; vm_compute; congruence.
Qed.

(** Up to 2400 DPI the two float products round as the exact decimal
    products do: every case is computed. *)
Lemma a4_exact_upto_2400 : forallb (λ n, a4_exact (Z.of_nat n)) (seq 1 2400) = true.
Proof. vm_compute. reflexivity. Qed.

Lemma a4_size_decimal dpi :
  1 ≤ dpi ≤ 2400 →
  a4_width dpi = round_half_even (827 * dpi) 100
  ∧ a4_height dpi = round_half_even (1169 * dpi) 100.
Proof.
  intros Hdpi. pose proof a4_exact_upto_2400 as H.
  rewrite forallb_forall in H. specialize (H (Z.to_nat dpi)).
  rewrite Z2Nat.id in H by lia. unfold a4_exact in H.
  apply andb_true_iff in H as [Hw Hh]; [by apply Z.eqb_eq in Hw, Hh|].
  apply in_seq. lia.
Qed.

(** C4.  For every image and every positive DPI, [ensure_a4] returns an
    image of exactly [round(8.27 * dpi)] by [round(11.69 * dpi)] pixels; an
    image that already has that size is returned as it is, and only an
    image of another size is resampled.  Up to 2400 DPI the two sides are
    the decimal products rounded to the nearest integer, ties to even. *)
Theorem ensure_a4_exact_size (img : Image) (dpi : Z) :
  0 < dpi →
  ∃ img', ensure_a4 img dpi = Ok img'
    ∧ size img' = (a4_width dpi, a4_height dpi)
    ∧ (size img = (a4_width dpi, a4_height dpi) → img' = img)
    ∧ (size img ≠ (a4_width dpi, a4_height dpi) →
         data img' = Resampled (a4_width dpi) (a4_height dpi) (data img))
    ∧ (dpi ≤ 2400 →
         size img' = (round_half_even (827 * dpi) 100, round_half_even (1169 * dpi) 100)).
Proof.
  intros Hdpi. destruct (a4_size_positive dpi Hdpi) as [Hw Hh].
  assert (Hdec : dpi ≤ 2400 →
    (a4_width dpi, a4_height dpi)
    = (round_half_even (827 * dpi) 100, round_half_even (1169 * dpi) 100)).
  { intros Hle. destruct (a4_size_decimal dpi) as [-> ->]; [lia|done]. }
  unfold ensure_a4. fold (a4_width dpi) (a4_height dpi).
  destruct (decide (size img ≠ (a4_width dpi, a4_height dpi))) as [Hne|Heq].
  - unfold resize. cbn [fst snd].
    apply Z.ltb_lt in Hw, Hh. rewrite Hw, Hh. cbn [andb].
    eexists. split; [reflexivity|]. cbn [size data]. by repeat split.
  - apply dec_stable in Heq. exists img. repeat split; try done.
    intros Hle. by rewrite Heq, Hdec.
Qed.

Lemma ensure_a4_exact_size_witness :
  (∃ img', ensure_a4 {| size := (2000, 2800); data := Decoded (lit "t.png") |} 300 = Ok img'
     ∧ size img' = (2481, 3507))
  ∧ ensure_a4 {| size := (2481, 3507); data := Decoded (lit "t.png") |} 300
    = Ok {| size := (2481, 3507); data := Decoded (lit "t.png") |}.
Proof.
  split.
  - destruct (ensure_a4_exact_size {| size := (2000, 2800); data := Decoded (lit "t.png") |}
                300 ltac:(lia)) as (img' & Hres & Hsize & _).
    exists img'. split; [exact Hres|]. rewrite Hsize. vm_compute. reflexivity.
  - destruct (ensure_a4_exact_size {| size := (2481, 3507); data := Decoded (lit "t.png") |}
                300 ltac:(lia)) as (img' & Hres & _ & Hsame & _).
    rewrite Hres. f_equal. apply Hsame. vm_compute. reflexivity.
Defined.

Example a4_size_examples :
  (a4_width 300, a4_height 300) = (2481, 3507)
  ∧ (a4_width 72, a4_height 72) = (595, 842)
  ∧ (a4_width 50, a4_height 50) = (414, 584)
  ∧ (a4_width 150, a4_height 150) = (1240, 1754).
Proof. repeat split; vm_compute; reflexivity. Qed.

(** ** The composition drivers *)

Section Drivers.
Variable environ : gmap pystr pystr.
Variable truetype : pystr → Z → pyresult font.
Variable load_default : font.

(** [main] draws its six text blocks through the guarded step, the dividers
    in between. *)
Lemma json_build_steps cfg c img :
  let fs := load_fonts truetype load_default cfg in
  let cx := (size img).1 / 2 in
  Json.build truetype load_default cfg c img
  = Json.text_step cfg c fs cx Rsvp
      (Json.text_step cfg c fs cx Sign
         (message_divider load_default cfg fs cx
            (Json.text_step cfg c fs cx Message
               (details_divider load_default cfg fs cx
                  (Json.text_step cfg c fs cx Details
                     (small_divider load_default cfg fs cx
                        (Json.text_step cfg c fs cx Title
                           (Json.text_step cfg c fs cx Intro
                              {| im := img; calls := [] |})))))))).
Proof. reflexivity. Qed.

(** The older script draws the same blocks through the unguarded step. *)
Lemma legacy_build_steps cfg c img :
  let fs := load_fonts truetype load_default cfg in
  let cx := (size img).1 / 2 in
  Legacy.build truetype load_default cfg c img
  = let draw := (Legacy.text_step cfg c fs cx Intro {| im := img; calls := [] |}).2 in
    let draw := (Legacy.text_step cfg c fs cx Title draw).2 in
    let draw := small_divider load_default cfg fs cx draw in
    let draw := (Legacy.text_step cfg c fs cx Details draw).2 in
    let draw := details_divider load_default cfg fs cx draw in
    let draw := (Legacy.text_step cfg c fs cx Message draw).2 in
    let draw := message_divider load_default cfg fs cx draw in
    let draw := (Legacy.text_step cfg c fs cx Sign draw).2 in
    (Legacy.text_step cfg c fs cx Rsvp draw).2.
Proof. reflexivity. Qed.

(** The text of a block in the older script: its lines joined by newlines. *)
Lemma legacy_block_text b :
  block_text (Legacy.load_content environ) b
  = join_with NL (map (λ k, env_str environ k []) (block_keys b)).
Proof. by destruct b. Qed.
End Drivers.

(** The text of a block in [main]: the fields read by [get_optional],
    assembled. *)
Lemma json_block_text inv c b :
  Json.load_content inv = Ok c →
  ∃ lines, Forall2 (λ k s, Json.get_optional inv k [] = Ok s) (block_keys b) lines
           ∧ block_text c b = Json.assemble_block b lines.
Proof.
  unfold Json.load_content.
  repeat match goal with
         | |- context [Json.get_optional inv ?k []] =>
             let s := fresh "s" in let E := fresh "E" in
             destruct (Json.get_optional inv k []) as [s|?] eqn:E;
             cbn [mbind pyresult_bind]; [|discriminate]
         end.
  intros [= <-]. destruct b; cbn [block_text block_keys INTRO TITLE DETAILS MESSAGE SIGN RSVP];
    eexists; (split; [repeat (constructor; [eassumption|]); constructor|]); reflexivity.
Qed.

(** Blank lines only: the cursor moves, nothing is drawn. *)
Lemma draw_blank_lines draw f cx top_y fill sp (n : nat) :
  draw_centered_multiline draw (replicate n NL) f cx top_y fill sp
  = (top_y + Z.of_nat (S n) * (font_size f + sp), draw).
Proof.
  unfold draw_centered_multiline.
  assert (Hsplit : split_on NL (replicate n NL) = replicate (S n) []).
  { induction n as [|n IH]; [done|]. cbn [replicate split_on].
    rewrite N.eqb_refl. by rewrite IH. }
  rewrite Hsplit. clear Hsplit. generalize (S n) as k. intros k.
  revert top_y. induction k as [|k IH]; intros top_y.
  - cbn [replicate fold_left]. f_equal. lia.
  - cbn [replicate fold_left]. unfold line_step at 2. cbn [py_strip strip_with drop_while rev app truthy negb].
    rewrite IH. f_equal. lia.
Qed.

Lemma join_empty_lines (keys : list pystr) (line : pystr → pystr) :
  Forall (λ k, line k = []) keys →
  join_with NL (map line keys) = replicate (Nat.pred (length keys)) NL.
Proof.
  induction keys as [|k keys IH]; [done|]. intros Hall.
  apply Forall_cons in Hall as [Hk Hall]. specialize (IH Hall).
  destruct keys as [|k' keys].
  - cbn [map join_with]. by rewrite Hk.
  - change (join_with NL (map line (k :: k' :: keys)))
      with (line k ++ NL :: join_with NL (map line (k' :: keys))).
    rewrite Hk, IH. reflexivity.
Qed.

Lemma json_block_text_empty inv c b :
  Json.load_content inv = Ok c →
  Forall (λ k, Json.get_optional inv k [] = Ok []) (block_keys b) →
  block_text c b = [].
Proof.
  intros Hc Hall. destruct (json_block_text inv c b Hc) as (lines & Hlines & ->).
  assert (Hnil : lines = replicate (length (block_keys b)) []).
  { clear Hc. induction Hlines as [|k s keys lines Hk _ IH]; [done|].
    apply Forall_cons in Hall as [Hk' Hall]. cbn [length replicate].
    rewrite (IH Hall). congruence. }
  rewrite Hnil. by destruct b.
Qed.

(** C6.  [main] draws the page as six guarded text steps with the divider
    pairs in between, the older script as the same six steps unguarded.
    In [main] each step is guarded by its text: an empty text leaves the
    surface as it was, and a page whose six texts are empty carries the
    divider pairs only.  The text is empty in particular when
    [get_optional] reads every field of the block as empty.  In the older
    script the step is the call itself, whatever the text: when the lines
    of a block are unset (or empty) the text consists of the joining
    newlines alone, every line of it is blank, nothing is drawn and the
    cursor returned has moved by one font size plus spacing per line. *)
Theorem text_step_guarded_in_json_unguarded_in_legacy
    (environ : gmap pystr pystr) (truetype : pystr → Z → pyresult font) (load_default : font)
    (cfg : config) (fs : fonts) (cx : Z) (b : block) (draw : ImageDraw) :
  (∀ c img,
     let fs := load_fonts truetype load_default cfg in
     let cx := (size img).1 / 2 in
     Json.build truetype load_default cfg c img
     = Json.text_step cfg c fs cx Rsvp
         (Json.text_step cfg c fs cx Sign
            (message_divider load_default cfg fs cx
               (Json.text_step cfg c fs cx Message
                  (details_divider load_default cfg fs cx
                     (Json.text_step cfg c fs cx Details
                        (small_divider load_default cfg fs cx
                           (Json.text_step cfg c fs cx Title
                              (Json.text_step cfg c fs cx Intro
                                 {| im := img; calls := [] |})))))))))
  ∧ (∀ c, block_text c b = [] → Json.text_step cfg c fs cx b draw = draw)
  ∧ (∀ inv c, Json.load_content inv = Ok c →
       Forall (λ k, Json.get_optional inv k [] = Ok []) (block_keys b) →
       Json.text_step cfg c fs cx b draw = draw)
  ∧ (∀ c img, (∀ b', block_text c b' = []) →
       Json.build truetype load_default cfg c img
       = message_divider load_default cfg (load_fonts truetype load_default cfg)
           ((size img).1 / 2)
           (details_divider load_default cfg (load_fonts truetype load_default cfg)
              ((size img).1 / 2)
              (small_divider load_default cfg (load_fonts truetype load_default cfg)
                 ((size img).1 / 2) {| im := img; calls := [] |})))
  ∧ (∀ c img,
       let fs := load_fonts truetype load_default cfg in
       let cx := (size img).1 / 2 in
       Legacy.build truetype load_default cfg c img
       = let draw := (Legacy.text_step cfg c fs cx Intro {| im := img; calls := [] |}).2 in
         let draw := (Legacy.text_step cfg c fs cx Title draw).2 in
         let draw := small_divider load_default cfg fs cx draw in
         let draw := (Legacy.text_step cfg c fs cx Details draw).2 in
         let draw := details_divider load_default cfg fs cx draw in
         let draw := (Legacy.text_step cfg c fs cx Message draw).2 in
         let draw := message_divider load_default cfg fs cx draw in
         let draw := (Legacy.text_step cfg c fs cx Sign draw).2 in
         (Legacy.text_step cfg c fs cx Rsvp draw).2)
  ∧ (∀ c, Legacy.text_step cfg c fs cx b draw
          = draw_centered_multiline draw (block_text c b) (block_font fs b) (cx + 50)
              (block_anchor cfg b) TEXT_COLOR (block_spacing b))
  ∧ (Forall (λ k, env_str environ k [] = []) (block_keys b) →
       Legacy.text_step cfg (Legacy.load_content environ) fs cx b draw
       = (block_anchor cfg b
          + block_lines b * (font_size (block_font fs b) + block_spacing b), draw)).
Proof.
  assert (Hskip : ∀ c b' d, block_text c b' = [] → Json.text_step cfg c fs cx b' d = d).
  { intros c b' d Hc. unfold Json.text_step. by rewrite Hc. }
  split; [intros c img; apply json_build_steps|].
  split; [intros c; apply Hskip|]. split; [|split; [|split; [|split]]].
  - intros inv c Hc Hall. apply Hskip. by apply (json_block_text_empty inv).
  - intros c img Hall. rewrite json_build_steps. cbv zeta.
    unfold Json.text_step. by rewrite !Hall.
  - intros c img. apply legacy_build_steps.
  - reflexivity.
  - intros Hall. unfold Legacy.text_step. rewrite legacy_block_text.
    rewrite join_empty_lines by done. rewrite draw_blank_lines.
    f_equal. f_equal. by destruct b.
Qed.

Example load_config_defaults : load_config ∅ = Ok default_config.
Proof. vm_compute. reflexivity. Qed.

Example load_content_jane_doe : Json.load_content jane_doe = Ok jane_doe_content.
Proof. vm_compute. reflexivity. Qed.

Lemma text_step_guarded_in_json_unguarded_in_legacy_witness :
  Json.text_step default_config jane_doe_content mono_fonts 1240 Details blank_page
  = blank_page
  ∧ Legacy.text_step default_config (Legacy.load_content ∅) mono_fonts 1240 Details blank_page
    = (1320 + 3 * (52 + 14), blank_page).
Proof.
  pose proof (text_step_guarded_in_json_unguarded_in_legacy ∅ (λ _ _, Ok (mono_font 1))
                (mono_font 1) default_config mono_fonts 1240 Details blank_page)
    as (_ & _ & Hjson & _ & _ & _ & Hlegacy).
  split.
  - apply (Hjson jane_doe jane_doe_content load_content_jane_doe). repeat constructor.
  - apply Hlegacy. repeat constructor.
Defined.

(** ** The entry point of [make_invite.py] *)

Section Main.
Variable environ : gmap pystr pystr.
Variable truetype : pystr → Z → pyresult font.
Variable load_default : font.
Variable json_loads : pystr → pyresult pyval.

Abbreviation main := (Json.main environ truetype load_default json_loads).
Abbreviation render := (Json.render environ truetype load_default json_loads).
Abbreviation TEMPLATE := (TEMPLATE_of environ).

(** The three ways out of [main]. *)
Lemma main_cases argv fs :
  (main argv fs = (Ok 2, fs)
   ∧ ((length argv < 2)%nat ∨ TEMPLATE = [] ∨ fs !! TEMPLATE = None))
  ∨ (∃ e, main argv fs = (Raise e, fs)
          ∧ (2 ≤ length argv)%nat ∧ TEMPLATE ≠ [] ∧ is_Some (fs !! TEMPLATE))
  ∨ (∃ drawn fs', main argv fs = (Ok 0, fs')
          ∧ (2 ≤ length argv)%nat ∧ TEMPLATE ≠ [] ∧ is_Some (fs !! TEMPLATE)
          ∧ render fs (nth 1 argv []) TEMPLATE = Ok drawn
          ∧ save fs drawn (output_path_of environ argv) = Ok fs').
Proof.
  unfold Json.main. fold (TEMPLATE_of environ). fold (output_path_of environ argv).
  destruct (decide (length argv < 2)%nat) as [Hlt|Hge]; [left; split; [done|by left]|].
  destruct (truthy TEMPLATE) eqn:Ht; cbn [negb orb].
  - apply truthy_true_iff in Ht. unfold path_exists.
    destruct (bool_decide (is_Some (fs !! TEMPLATE))) eqn:Hex; cbn [negb].
    + apply bool_decide_eq_true in Hex. right.
      destruct (render fs (nth 1 argv []) TEMPLATE) as [drawn|e] eqn:Hr;
        cbn [mbind pyresult_bind].
      * destruct (save fs drawn (output_path_of environ argv)) as [fs'|e] eqn:Hs.
        -- right. exists drawn, fs'. repeat split; try done. lia.
        -- left. exists e. repeat split; try done. lia.
      * left. exists e. repeat split; try done. lia.
    + apply bool_decide_eq_false in Hex. left. split; [done|]. right. right.
      by apply eq_None_not_Some.
  - apply truthy_false_iff in Ht. left. split; [done|]. right. by left.
Qed.

(** C9.  [main] returns 2, and leaves every file as it was, when no
    document path is given and when the template path is unset, empty or
    names no existing file; nothing has been drawn or written by then.  It
    returns 0 exactly when the render and the save both succeed, and only
    then do the files change; 0 and 2 are the only values returned. *)
Theorem main_exit_status (argv : list pystr) (fs : gmap pystr file) :
  ((length argv < 2)%nat → main argv fs = (Ok 2, fs))
  ∧ (environ !! lit "TEMPLATE_IMAGE" = None → main argv fs = (Ok 2, fs))
  ∧ (TEMPLATE = [] ∨ fs !! TEMPLATE = None → main argv fs = (Ok 2, fs))
  ∧ ((main argv fs).1 ≠ Ok 0 → (main argv fs).2 = fs)
  ∧ (∀ n, (main argv fs).1 = Ok n → n = 0 ∨ n = 2)
  ∧ (∀ drawn fs', (2 ≤ length argv)%nat → TEMPLATE ≠ [] → is_Some (fs !! TEMPLATE) →
       render fs (nth 1 argv []) TEMPLATE = Ok drawn →
       save fs drawn (output_path_of environ argv) = Ok fs' →
       main argv fs = (Ok 0, fs') ∧ Json.exit_status (main argv fs).1 = 0)
  ∧ Json.exit_status (Ok 2) = 2.
Proof.
  assert (Htemplate : TEMPLATE = [] ∨ fs !! TEMPLATE = None → main argv fs = (Ok 2, fs)).
  { intros Hbad. unfold Json.main. fold (TEMPLATE_of environ).
    destruct (decide (length argv < 2)%nat); [done|].
    destruct Hbad as [Hbad|Hbad].
    - by rewrite Hbad.
    - unfold path_exists. rewrite Hbad.
      rewrite bool_decide_eq_false_2 by (by intros [? ?]).
      by rewrite orb_true_r. }
  split; [|split; [|split; [exact Htemplate|split; [|split; [|split]]]]].
  - intros Hlt. unfold Json.main. by rewrite decide_True.
  - intros Hunset. apply Htemplate. left. unfold TEMPLATE_of, env_str, getenv.
    by rewrite Hunset.
  - destruct (main_cases argv fs) as [[-> _]|[(e & -> & _)|(drawn & fs' & -> & _)]]; done.
  - intros n. destruct (main_cases argv fs) as [[-> _]|[(e & -> & _)|(drawn & fs' & -> & _)]];
      cbn [fst]; intros [= <-]; auto.
  - intros drawn fs' Hargv Ht Hex Hr Hs.
    assert (main argv fs = (Ok 0, fs')) as ->; [|done].
    unfold Json.main. fold (TEMPLATE_of environ). fold (output_path_of environ argv).
    rewrite decide_False by lia.
    apply truthy_true_iff in Ht. rewrite Ht. unfold path_exists.
    rewrite bool_decide_eq_true_2 by done. cbn [negb orb].
    rewrite Hr. cbn [mbind pyresult_bind]. by rewrite Hs.
  - reflexivity.
Qed.
End Main.

Example demo_run :
  Json.main demo_environ (λ _ sz, Ok (mono_font sz)) (mono_font 10) (λ _, Ok (PyDict jane_doe))
    demo_argv demo_files
  = (Ok 0,
     <[lit "home.png" :=
         SavedPng {| im := demo_page;
                     calls := [Text 1050 900 (lit "Jane") (mono_font 120) TEXT_COLOR;
                               Text 1110 1026 (lit "Doe") (mono_font 120) TEXT_COLOR] |}]>
       demo_files).
Proof. vm_compute. reflexivity. Qed.

Lemma main_exit_status_witness :
  Json.main demo_environ (λ _ sz, Ok (mono_font sz)) (mono_font 10) (λ _, Ok (PyDict jane_doe))
    [lit "make_invite.py"] demo_files = (Ok 2, demo_files)
  ∧ Json.main ∅ (λ _ sz, Ok (mono_font sz)) (mono_font 10) (λ _, Ok (PyDict jane_doe))
      demo_argv demo_files = (Ok 2, demo_files)
  ∧ Json.main demo_environ (λ _ sz, Ok (mono_font sz)) (mono_font 10)
      (λ _, Ok (PyDict jane_doe)) demo_argv (delete (lit "template.png") demo_files)
    = (Ok 2, delete (lit "template.png") demo_files)
  ∧ Json.exit_status
      (Json.main demo_environ (λ _ sz, Ok (mono_font sz)) (mono_font 10)
         (λ _, Ok (PyDict jane_doe)) demo_argv demo_files).1 = 0.
Proof.
  split; [|split; [|split]].
  - apply (proj1 (main_exit_status demo_environ (λ _ sz, Ok (mono_font sz)) (mono_font 10)
                    (λ _, Ok (PyDict jane_doe)) [lit "make_invite.py"] demo_files)).
    simpl. lia.
  - apply (proj1 (proj2 (main_exit_status ∅ (λ _ sz, Ok (mono_font sz)) (mono_font 10)
                    (λ _, Ok (PyDict jane_doe)) demo_argv demo_files))).
    reflexivity.
  - apply (proj1 (proj2 (proj2 (main_exit_status demo_environ (λ _ sz, Ok (mono_font sz))
                    (mono_font 10) (λ _, Ok (PyDict jane_doe)) demo_argv
                    (delete (lit "template.png") demo_files))))).
    right. reflexivity.
  - destruct (main_exit_status demo_environ (λ _ sz, Ok (mono_font sz)) (mono_font 10)
                (λ _, Ok (PyDict jane_doe)) demo_argv demo_files)
      as (_ & _ & _ & _ & _ & Hok & _).
    eapply Hok.
    + simpl. lia.
    + done.
    + by eexists.
    + vm_compute. reflexivity.
    + vm_compute. reflexivity.
Defined.

(** ** Assembling a block from its lines *)

Section DropWhileApp.
Variable p : N → bool.

Lemma drop_while_app_nil a b : drop_while p a = [] → drop_while p (a ++ b) = drop_while p b.
Proof.
  induction a as [|c a IH]; cbn [drop_while app]; [done|].
  destruct (p c); [exact IH|done].
Qed.

Lemma drop_while_app_cons a b :
  drop_while p a ≠ [] → drop_while p (a ++ b) = drop_while p a ++ b.
Proof.
  induction a as [|c a IH]; cbn [drop_while app]; [done|].
  destruct (p c); [exact IH|done].
Qed.
End DropWhileApp.

Lemma head_app_nonempty {A} (a b : list A) : a ≠ [] → head (a ++ b) = head a.
Proof. by destruct a. Qed.

Lemma last_app_nonempty {A} (a b : list A) : b ≠ [] → last (a ++ b) = last b.
Proof.
  intros Hb. destruct b as [|x b _] using rev_ind; [done|].
  by rewrite app_assoc, !last_snoc.
Qed.

Lemma is_nl_true c : (NL =? c)%N = true ↔ c = NL.
Proof. rewrite N.eqb_eq. split; congruence. Qed.

Lemma not_nl_head (s : pystr) : head s ≠ Some NL → N.eqb NL <$> head s ≠ Some true.
Proof.
  destruct s as [|c s]; cbn; [done|]. intros Hc [= H]. apply is_nl_true in H. congruence.
Qed.

Lemma not_nl_last (s : pystr) : last s ≠ Some NL → N.eqb NL <$> last s ≠ Some true.
Proof.
  destruct (last s) as [c|]; cbn; [|done]. intros Hc [= H]. apply is_nl_true in H. congruence.
Qed.

(** An empty line between two lines survives [.strip("\n")] when the text
    neither starts nor ends with a newline. *)
Lemma assemble_interior_blank (d1 d3 : pystr) :
  d1 ≠ [] → d3 ≠ [] → head d1 ≠ Some NL → last d3 ≠ Some NL →
  Json.assemble [d1; []; d3] = d1 ++ NL :: NL :: d3.
Proof.
  intros H1 H3 Hh Hl. unfold Json.assemble, strip_nl. cbn [join_with app].
  apply strip_with_fix.
  - rewrite head_app_nonempty by done. by apply not_nl_head.
  - change (d1 ++ NL :: NL :: d3) with (d1 ++ [NL; NL] ++ d3).
    rewrite app_assoc, last_app_nonempty by done. by apply not_nl_last.
Qed.

(** Empty lines in front leave no trace. *)
Lemma assemble_leading_empty (lines : list pystr) :
  Json.assemble ([] :: lines) = Json.assemble lines.
Proof.
  unfold Json.assemble. destruct lines as [|l lines]; [done|].
  change (join_with NL ([] :: l :: lines)) with (NL :: join_with NL (l :: lines)).
  unfold strip_nl. apply strip_with_cons. apply N.eqb_refl.
Qed.

(** A first line without newline stays the first segment. *)
Lemma strip_nl_first_segment (d t : pystr) :
  d ≠ [] → NL ∉ d → ∃ rest, split_on NL (strip_nl (d ++ NL :: t)) = d :: rest.
Proof.
  intros Hd Hnl.
  assert (Hlast : N.eqb NL <$> last d ≠ Some true).
  { apply not_nl_last. intros Hl. apply Hnl. by apply last_Some_elem_of. }
  assert (Hhead : N.eqb NL <$> head d ≠ Some true).
  { apply not_nl_head. intros Hh. apply Hnl. by apply head_Some_elem_of. }
  unfold strip_nl, strip_with.
  rewrite (drop_while_fix _ (d ++ NL :: t)) by (by rewrite head_app_nonempty).
  change (d ++ NL :: t) with (d ++ [NL] ++ t).
  rewrite !rev_app_distr, <- app_assoc.
  set (A := rev t ++ rev [NL]).
  destruct (drop_while (N.eqb NL) A) as [|c u] eqn:E.
  - rewrite app_assoc. fold A. rewrite (drop_while_app_nil _ A) by done.
    rewrite drop_while_rev_fix by done. rewrite rev_involutive.
    exists []. by apply split_on_no_sep.
  - rewrite app_assoc. fold A. rewrite (drop_while_app_cons _ A) by (by rewrite E).
    rewrite E. destruct (drop_while_suffix (N.eqb NL) A) as (pre & HA & _).
    rewrite E in HA. unfold A in HA. cbn [rev app] in HA.
    destruct (exists_last (l:=c :: u) ltac:(done)) as (u' & x & Hu).
    rewrite Hu in HA |- *.
    rewrite app_assoc in HA. apply app_inj_tail in HA as [_ <-].
    rewrite rev_app_distr, rev_involutive, rev_unit. cbn [app].
    rewrite split_on_app, split_on_no_sep by done.
    by eexists.
Qed.

Lemma Forall2_three {A B} (R : A → B → Prop) a1 a2 a3 l :
  Forall2 R [a1; a2; a3] l → ∃ b1 b2 b3, l = [b1; b2; b3] ∧ R a1 b1 ∧ R a2 b2 ∧ R a3 b3.
Proof.
  intros H. inversion H as [|? b1 ? ? R1 H2]; subst.
  inversion H2 as [|? b2 ? ? R2 H3]; subst.
  inversion H3 as [|? b3 ? ? R3 H4]; subst. inversion H4; subst.
  by exists b1, b2, b3.
Qed.

Lemma details_of_lines inv c d1 d2 d3 :
  Json.load_content inv = Ok c →
  Json.get_optional inv (lit "DETAIL_LINE_1") [] = Ok d1 →
  Json.get_optional inv (lit "DETAIL_LINE_2") [] = Ok d2 →
  Json.get_optional inv (lit "DETAIL_LINE_3") [] = Ok d3 →
  DETAILS c = Json.assemble [d1; d2; d3].
Proof.
  intros Hc H1 H2 H3.
  destruct (json_block_text inv c Details Hc) as (lines & Hlines & Htext).
  cbn [block_text block_keys] in *.
  apply Forall2_three in Hlines as (s1 & s2 & s3 & -> & E1 & E2 & E3).
  rewrite Htext. cbn [Json.assemble_block]. congruence.
Qed.

(** C10, as stated, fails: DETAIL_LINE_1 and DETAIL_LINE_3 are non-empty and
    DETAIL_LINE_2 is empty, yet no blank line is left: the first line is a
    newline, which [.strip("\n")] removes together with the empty line. *)
Lemma details_newline_first_line_drops_blank :
  let inv : gmap pystr pyval :=
    <[lit "DETAIL_LINE_1" := PyStr [NL]]>
      (<[lit "DETAIL_LINE_2" := PyStr []]> (<[lit "DETAIL_LINE_3" := PyStr (lit "x")]> ∅)) in
  Json.get_optional inv (lit "DETAIL_LINE_1") [] = Ok [NL] ∧ [NL] ≠ []
  ∧ Json.get_optional inv (lit "DETAIL_LINE_2") [] = Ok []
  ∧ Json.get_optional inv (lit "DETAIL_LINE_3") [] = Ok (lit "x") ∧ lit "x" ≠ []
  ∧ ∃ c, Json.load_content inv = Ok c
         ∧ DETAILS c = lit "x"
         ∧ split_on NL (DETAILS c) = [lit "x"]
         ∧ draw_centered_multiline blank_page (DETAILS c) (mono_font 52) 1290 1320 TEXT_COLOR 14
           = (1320 + (52 + 14),
              {| im := im blank_page;
                 calls := [Text 1264 1320 (lit "x") (mono_font 52) TEXT_COLOR] |}).
Proof.
  intros inv. repeat split; try done.
  eexists. split; [vm_compute; reflexivity|]. repeat split.
Qed.

(** C10, amended.  Title, details, message and signature are their lines
    joined by newlines and stripped of newlines at the two ends only: what
    is removed is a run of newlines in front and one at the back.  For the
    details, drawn with any font from any anchor [y]: when the middle line
    is empty, the first line is non-empty and does not start with a
    newline, and the third is non-empty and does not end with one, the text
    is the first line, an empty line, the third line; the empty segment is
    among the segments drawn and moves the cursor by the font size plus the
    spacing.  When the first line is empty the text is that of the other
    two lines alone, and a second line that is not blank and holds no
    newline is drawn at the anchor itself. *)
Theorem details_interior_blank_kept_leading_removed
    (inv : gmap pystr pyval) (c : content) (d1 d2 d3 : pystr)
    (draw : ImageDraw) (f : font) (cx y : Z) (fill : color) :
  Json.load_content inv = Ok c →
  Json.get_optional inv (lit "DETAIL_LINE_1") [] = Ok d1 →
  Json.get_optional inv (lit "DETAIL_LINE_2") [] = Ok d2 →
  Json.get_optional inv (lit "DETAIL_LINE_3") [] = Ok d3 →
  (∀ b, b ≠ Intro → b ≠ Rsvp →
     ∃ lines pre post,
       Forall2 (λ k s, Json.get_optional inv k [] = Ok s) (block_keys b) lines
       ∧ block_text c b = strip_nl (join_with NL lines)
       ∧ join_with NL lines = pre ++ block_text c b ++ post
       ∧ Forall (λ ch, ch = NL) pre ∧ Forall (λ ch, ch = NL) post)
  ∧ DETAILS c = strip_nl (join_with NL [d1; d2; d3])
  ∧ (d2 = [] → d1 ≠ [] → d3 ≠ [] → head d1 ≠ Some NL → last d3 ≠ Some NL →
       DETAILS c = d1 ++ NL :: NL :: d3
       ∧ split_on NL (DETAILS c) = split_on NL d1 ++ [] :: split_on NL d3
       ∧ (draw_centered_multiline draw (DETAILS c) f cx y fill 14).1
         = y + sum_Z (map (line_advance f 14) (split_on NL d1))
             + (font_size f + 14)
             + sum_Z (map (line_advance f 14) (split_on NL d3)))
  ∧ (d1 = [] →
       DETAILS c = strip_nl (join_with NL [d2; d3])
       ∧ (d2 = [] → DETAILS c = strip_nl d3)
       ∧ (d2 ≠ [] → NL ∉ d2 → ¬ blank d2 →
            ∃ x rest,
              calls (draw_centered_multiline draw (DETAILS c) f cx y fill 14).2
              = calls draw ++ Text x y d2 f fill :: rest)).
Proof.
  intros Hc H1 H2 H3. pose proof (details_of_lines inv c d1 d2 d3 Hc H1 H2 H3) as HD.
  split.
  { intros b Hi Hr. destruct (json_block_text inv c b Hc) as (lines & Hlines & Htext).
    assert (Hb : block_text c b = strip_nl (join_with NL lines)) by (by destruct b).
    destruct (strip_with_decompose (N.eqb NL) (join_with NL lines))
      as (pre & post & Hdec & Hpre & Hpost).
    exists lines, pre, post. rewrite Hb. split; [done|]. split; [done|].
    split; [exact Hdec|].
    split; (eapply Forall_impl; [eassumption|]); intros ch Hch; by apply is_nl_true. }
  split; [exact HD|]. split.
  - intros -> Hd1 Hd3 Hh Hl. rewrite HD, assemble_interior_blank by done.
    split; [done|].
    assert (Hsplit : split_on NL (d1 ++ NL :: NL :: d3)
                     = split_on NL d1 ++ [] :: split_on NL d3).
    { rewrite split_on_app. reflexivity. }
    split; [exact Hsplit|].
    unfold draw_centered_multiline. rewrite Hsplit, fold_line_step. cbn [fst].
    rewrite map_app. cbn [map]. unfold sum_Z. rewrite foldr_app. cbn [foldr].
    assert (Hblank : line_advance f 14 [] = font_size f + 14) by reflexivity.
    rewrite Hblank.
    assert (Hfold : ∀ l z, foldr Z.add z l = foldr Z.add 0 l + z).
    { induction l as [|a l IH]; intros z; cbn [foldr]; [lia|]. rewrite IH. lia. }
    rewrite (Hfold _ (_ + _)). lia.
  - intros ->. rewrite HD, assemble_leading_empty. split; [done|]. split.
    + intros ->. by rewrite assemble_leading_empty.
    + intros Hd2 Hnl Hnb. unfold Json.assemble. cbn [join_with].
      destruct (strip_nl_first_segment d2 d3 Hd2 Hnl) as (rest & Hrest).
      unfold draw_centered_multiline. rewrite Hrest, fold_line_step. cbn [snd calls].
      cbn [lines_text]. unfold line_text at 1.
      assert (Hb : is_blank d2 = false).
      { destruct (is_blank d2) eqn:E; [|done]. by apply is_blank_spec in E. }
      rewrite Hb. destruct (textbbox f d2) as [[[x0 y0] x1] y1].
      by eexists _, _.
Qed.

Lemma details_interior_blank_kept_leading_removed_witness :
  let inv : gmap pystr pyval :=
    <[lit "DETAIL_LINE_1" := PyStr (lit "Saturday")]>
      (<[lit "DETAIL_LINE_3" := PyStr (lit "2 pm")]> ∅) in
  ∃ c, Json.load_content inv = Ok c
       ∧ DETAILS c = lit "Saturday" ++ NL :: NL :: lit "2 pm"
       ∧ (draw_centered_multiline blank_page (DETAILS c) (mono_font 52) 1290 1320
            TEXT_COLOR 14).1 = 1320 + 3 * (52 + 14).
Proof.
  intros inv. eexists. split; [vm_compute; reflexivity|].
  match goal with |- DETAILS ?c = _ ∧ _ => set (cc := c) end.
  destruct (details_interior_blank_kept_leading_removed inv cc (lit "Saturday") [] (lit "2 pm")
              blank_page (mono_font 52) 1290 1320 TEXT_COLOR)
    as (_ & _ & Hmid & _); [vm_compute; reflexivity..|].
  destruct Hmid as (Htext & _ & Hy); [done..|].
  split; [exact Htext|]. rewrite Hy. vm_compute. reflexivity.
Defined.

(** * Further properties of the helpers, the drivers and the mail script *)

(** ** Integer lookups *)


Lemma env_int_unset environ key default :
  unset environ key → env_int environ key default = Ok default.
Proof.
  intros [Hnone|(v & Hv & Hb)]; unfold env_int, getenv.
  - by rewrite Hnone.
  - rewrite Hv. apply py_strip_blank in Hb. rewrite Hb.
    cbn [truthy]. by rewrite andb_false_r.
Qed.

(** [env_int] gives the default exactly for an unset key, whatever the
    default is; the numeral of an integer gives that integer; any other
    value that is not blank makes it raise [ValueError]: the default never
    stands in for a value that fails to parse. *)
Theorem env_int_default_only_when_unset
    (environ : gmap pystr pystr) (key : pystr) (default : Z) :
  (unset environ key → env_int environ key default = Ok default)
  ∧ (∀ z, environ !! key = Some (py_str z) → env_int environ key default = Ok z)
  ∧ (∀ v, environ !! key = Some v → ¬ blank v →
       env_int environ key default = py_int v)
  ∧ (∀ v, environ !! key = Some v → ¬ blank v → raises (py_int v) ValueError →
       raises (env_int environ key default) ValueError).
Proof.
  assert (Hnb : ∀ v, environ !! key = Some v → ¬ blank v →
                env_int environ key default = py_int v).
  { intros v Hv Hb. unfold env_int, getenv. rewrite Hv.
    destruct (py_strip v) as [|c t] eqn:E; [by apply py_strip_blank in E|].
    assert (Ht : truthy v = true) by (destruct v; [discriminate E|done]).
    by rewrite Ht. }
  split; [apply env_int_unset|split; [|split]].
  - intros z Hv. rewrite (Hnb _ Hv (py_str_not_blank z)). apply py_int_py_str.
  - exact Hnb.
  - intros v Hv Hb Hr. by rewrite (Hnb v Hv Hb).
Qed.

Lemma env_int_default_only_when_unset_witness :
  let environ : gmap pystr pystr :=
    <[lit "DPI" := lit " "]> (<[lit "TITLE_SIZE" := py_str 96]>
      (<[lit "BODY_SIZE" := lit "12pt"]> ∅)) in
  env_int environ (lit "DPI") 300 = Ok 300
  ∧ env_int environ (lit "TITLE_SIZE") 120 = Ok 96
  ∧ raises (env_int environ (lit "BODY_SIZE") 52) ValueError.
Proof.
  intros environ. split; [|split].
  - apply (proj1 (env_int_default_only_when_unset environ (lit "DPI") 300)).
    right. exists (lit " "). split; [reflexivity|]. by apply py_strip_blank.
  - apply (proj1 (proj2 (env_int_default_only_when_unset environ (lit "TITLE_SIZE") 120))).
    reflexivity.
  - apply (proj2 (proj2 (proj2 (env_int_default_only_when_unset environ (lit "BODY_SIZE") 52)))
             (lit "12pt")).
    + reflexivity.
    + intros Hb. apply py_strip_blank in Hb. discriminate Hb.
    + by exists [].
Defined.

(** ** Loading the configuration *)

Lemma env_int_error environ key default e :
  env_int environ key default = Raise e → e = Exn ValueError [].
Proof.
  unfold env_int. destruct (getenv environ key) as [v|]; [|discriminate].
  destruct (truthy v && truthy (py_strip v)); [apply py_int_error|discriminate].
Qed.

Lemma env_int_opt_error environ key e :
  env_int_opt environ key = Raise e → e = Exn ValueError [].
Proof.
  unfold env_int_opt. destruct (getenv environ key) as [v|]; [|discriminate].
  destruct (truthy (py_strip v)); [|discriminate].
  destruct (py_int (py_strip v)) eqn:E; [discriminate|].
  intros [= <-]. by apply py_int_error in E.
Qed.

Lemma env_color_error environ key default e :
  env_color environ key default = Raise e → e = Exn ValueError [].
Proof.
  destruct (env_color_cases environ key default)
    as [(a & b & c & r & g & b' & _ & _ & _ & _ & ->)|[-> _]]; congruence.
Qed.

(** Destructs the lookup at the head of a chain of binds. *)
Ltac step_bind H :=
  match type of H with
  | mbind _ ?m = _ =>
      let E' := fresh "Ebind" in
      destruct m eqn:E'; cbn [mbind pyresult_bind] in H
  end.

Lemma load_config_error_class (environ : gmap pystr pystr) (e : exn) :
  load_config environ = Raise e → e = Exn ValueError [].
Proof.
  intros H. unfold load_config in H.
  repeat (step_bind H;
          [|injection H as <-;
            first [ eapply env_int_error; eassumption
                  | eapply env_int_opt_error; eassumption
                  | eapply env_color_error; eassumption ]]).
  discriminate H.
Qed.

(** Whatever is wrong in the environment, [load_config] fails with a
    [ValueError]: a size, a position or a colour that does not parse. *)
Theorem load_config_raises_only_value_error (environ : gmap pystr pystr) (e : exn) :
  load_config environ = Raise e → e = Exn ValueError [].
Proof. apply load_config_error_class. Qed.

Lemma load_config_raises_only_value_error_witness :
  load_config (<[lit "Y_TITLE" := lit "top"]> ∅) = Raise (Exn ValueError [])
  ∧ load_config (<[lit "LINE_COLOR" := lit "grey"]> ∅) = Raise (Exn ValueError []).
Proof.
  split.
  - destruct (load_config (<[lit "Y_TITLE" := lit "top"]> ∅)) as [cfg|e] eqn:E.
    + vm_compute in E. discriminate E.
    + f_equal. exact (load_config_raises_only_value_error _ e E).
  - destruct (load_config (<[lit "LINE_COLOR" := lit "grey"]> ∅)) as [cfg|e] eqn:E.
    + vm_compute in E. discriminate E.
    + f_equal. exact (load_config_raises_only_value_error _ e E).
Defined.

(** Every field of a loaded configuration is the value of its lookup. *)
Lemma load_config_fields (environ : gmap pystr pystr) (cfg : config) :
  load_config environ = Ok cfg →
  env_int environ (lit "DPI") 300 = Ok (DPI cfg)
  ∧ FONT_TITLE_PATH cfg = env_str environ (lit "FONT_TITLE") []
  ∧ FONT_BODY_PATH cfg = env_str environ (lit "FONT_BODY") []
  ∧ FONT_HOOK_PATH cfg = env_str environ (lit "FONT_HOOK") (FONT_BODY_PATH cfg)
  ∧ env_int environ (lit "TITLE_SIZE") 120 = Ok (TITLE_SIZE cfg)
  ∧ env_int environ (lit "BODY_SIZE") 52 = Ok (BODY_SIZE cfg)
  ∧ env_int environ (lit "SMALL_SIZE") 44 = Ok (SMALL_SIZE cfg)
  ∧ env_int environ (lit "HOOK_SIZE") 34 = Ok (HOOK_SIZE cfg)
  ∧ env_int environ (lit "RSVP_SIZE") (BODY_SIZE cfg) = Ok (RSVP_SIZE cfg)
  ∧ env_int environ (lit "LINE_THICKNESS") 2 = Ok (LINE_THICKNESS cfg)
  ∧ env_color environ (lit "LINE_COLOR") (lit "180,180,180") = Ok (LINE_COLOR cfg)
  ∧ env_int environ (lit "HOOK_GAP") 22 = Ok (HOOK_GAP cfg)
  ∧ HOOK_CHAR cfg = env_str environ (lit "HOOK_CHAR") [FLORAL_HEART]
  ∧ env_int environ (lit "SMALL_DIVIDER_THICKNESS") (LINE_THICKNESS cfg)
    = Ok (SMALL_DIVIDER_THICKNESS cfg)
  ∧ env_color environ (lit "SMALL_DIVIDER_COLOR") (lit "180,180,180")
    = Ok (SMALL_DIVIDER_COLOR cfg)
  ∧ env_int environ (lit "SMALL_DIVIDER_HOOK_GAP") (HOOK_GAP cfg)
    = Ok (SMALL_DIVIDER_HOOK_GAP cfg)
  ∧ SMALL_DIVIDER_HOOK_CHAR cfg
    = env_str environ (lit "SMALL_DIVIDER_HOOK_CHAR") (HOOK_CHAR cfg)
  ∧ env_int_opt environ (lit "SMALL_DIVIDER_LINE_1_Y") = Ok (SMALL_DIVIDER_LINE_1_Y cfg)
  ∧ env_int_opt environ (lit "SMALL_DIVIDER_LINE_2_Y") = Ok (SMALL_DIVIDER_LINE_2_Y cfg)
  ∧ env_int_opt environ (lit "DETAILS_DIVIDER_LINE_1_Y") = Ok (DETAILS_DIVIDER_LINE_1_Y cfg)
  ∧ env_int_opt environ (lit "DETAILS_DIVIDER_LINE_2_Y") = Ok (DETAILS_DIVIDER_LINE_2_Y cfg)
  ∧ env_int_opt environ (lit "MESSAGE_DIVIDER_LINE_1_Y") = Ok (MESSAGE_DIVIDER_LINE_1_Y cfg)
  ∧ env_int_opt environ (lit "MESSAGE_DIVIDER_LINE_2_Y") = Ok (MESSAGE_DIVIDER_LINE_2_Y cfg).
Proof.
  intros H. unfold load_config in H.
  repeat (step_bind H; [|discriminate H]).
  injection H as <-. cbn. repeat split; assumption.
Qed.

Lemma env_color_missing_default environ key :
  environ !! key = None →
  env_color environ key (lit "180,180,180") = Ok (180, 180, 180, 255).
Proof.
  intros Hk. unfold env_color, env_str, getenv. rewrite Hk. reflexivity.
Qed.

(** The fallbacks of the configuration.  An unset RSVP size is the body
    size, as configured, and the RSVP font is then the body font; the
    thickness and the glyph gap of the small divider fall back to those
    of the other dividers.  A string key falls back only when it is
    missing: the hook font to the body font, the small glyph to the
    glyph; set to the empty string it stays empty.  The colour of the
    small divider does not follow [LINE_COLOR]: missing, it is the grey
    (180, 180, 180), whatever the colour of the other dividers. *)
Theorem load_config_fallbacks
    (environ : gmap pystr pystr) (truetype : pystr → Z → pyresult font)
    (load_default : font) (cfg : config) :
  load_config environ = Ok cfg →
  (unset environ (lit "RSVP_SIZE") →
     RSVP_SIZE cfg = BODY_SIZE cfg
     ∧ font_rsvp (load_fonts truetype load_default cfg)
       = font_body (load_fonts truetype load_default cfg))
  ∧ (unset environ (lit "SMALL_DIVIDER_THICKNESS") →
       SMALL_DIVIDER_THICKNESS cfg = LINE_THICKNESS cfg)
  ∧ (unset environ (lit "SMALL_DIVIDER_HOOK_GAP") →
       SMALL_DIVIDER_HOOK_GAP cfg = HOOK_GAP cfg)
  ∧ (environ !! lit "FONT_HOOK" = None → FONT_HOOK_PATH cfg = FONT_BODY_PATH cfg)
  ∧ (environ !! lit "FONT_HOOK" = Some [] → FONT_HOOK_PATH cfg = [])
  ∧ (environ !! lit "SMALL_DIVIDER_HOOK_CHAR" = None →
       SMALL_DIVIDER_HOOK_CHAR cfg = HOOK_CHAR cfg)
  ∧ (environ !! lit "SMALL_DIVIDER_COLOR" = None →
       SMALL_DIVIDER_COLOR cfg = (180, 180, 180, 255)).
Proof.
  intros H.
  destruct (load_config_fields environ cfg H)
    as (_ & _ & _ & Hhook & _ & _ & _ & _ & Hrsvp & _ & _ & _ & _ & Hthick & Hcol & Hgap
        & Hchar & _).
  assert (Hint : ∀ key d z, unset environ key → env_int environ key d = Ok z → z = d).
  { intros key d z Hu Hz.
    rewrite (env_int_unset environ key d Hu) in Hz. congruence. }
  split; [|split; [|split; [|split; [|split; [|split]]]]].
  - intros Hu. assert (Heq : RSVP_SIZE cfg = BODY_SIZE cfg) by (by eapply Hint).
    split; [exact Heq|]. unfold load_fonts. cbn [font_rsvp font_body]. by rewrite Heq.
  - intros Hu. by eapply Hint.
  - intros Hu. by eapply Hint.
  - intros Hk. rewrite Hhook. unfold env_str, getenv. by rewrite Hk.
  - intros Hk. rewrite Hhook. unfold env_str, getenv. by rewrite Hk.
  - intros Hk. rewrite Hchar. unfold env_str, getenv. by rewrite Hk.
  - intros Hk. rewrite (env_color_missing_default _ _ Hk) in Hcol. congruence.
Qed.

Lemma load_config_fallbacks_witness :
  let environ : gmap pystr pystr :=
    <[lit "BODY_SIZE" := lit "60"]> (<[lit "LINE_COLOR" := lit "10,20,30"]> ∅) in
  ∃ cfg, load_config environ = Ok cfg
         ∧ RSVP_SIZE cfg = 60
         ∧ LINE_COLOR cfg = (10, 20, 30, 255)
         ∧ SMALL_DIVIDER_COLOR cfg = (180, 180, 180, 255).
Proof.
  intros environ.
  destruct (load_config environ) as [cfg|e] eqn:E; [|vm_compute in E; discriminate E].
  exists cfg. split; [reflexivity|].
  destruct (load_config_fallbacks environ (λ _ sz, Ok (mono_font sz)) (mono_font 10) cfg E)
    as (Hrsvp & _ & _ & _ & _ & _ & Hcol).
  destruct Hrsvp as [Hrsvp _]; [by left|].
  split; [|split].
  - rewrite Hrsvp. vm_compute in E. by injection E as <-.
  - vm_compute in E. by injection E as <-.
  - by apply Hcol.
Defined.

(** ** Reading the document *)

(** [read_invitation_json] returns a document exactly when the path names a
    text file whose JSON is an object.  Any other JSON value (a list, a
    string, a number, null) is refused with the [ValueError] of the script;
    a missing file or a directory is an [OSError]; an error of [json.load]
    comes through as it is. *)
Theorem read_invitation_json_object_only
    (json_loads : pystr → pyresult pyval) (fs : gmap pystr file) (path : pystr) :
  (∀ d, Json.read_invitation_json json_loads fs path = Ok d
        ↔ ∃ s, fs !! path = Some (TextFile s) ∧ json_loads s = Ok (PyDict d))
  ∧ (∀ s v, fs !! path = Some (TextFile s) → json_loads s = Ok v →
       (∀ d, v ≠ PyDict d) →
       Json.read_invitation_json json_loads fs path
       = Raise (Exn ValueError (lit "Invitation JSON must be a JSON object.")))
  ∧ (∀ s e, fs !! path = Some (TextFile s) → json_loads s = Raise e →
       Json.read_invitation_json json_loads fs path = Raise e)
  ∧ (fs !! path = None ∨ fs !! path = Some Directory →
       raises (Json.read_invitation_json json_loads fs path) OSError).
Proof.
  unfold Json.read_invitation_json. split; [|split; [|split]].
  - intros d. split.
    + destruct (fs !! path) as [[|s|sz|dr]|]; try discriminate.
      destruct (json_loads s) as [[]|e] eqn:E; cbn [mbind pyresult_bind];
        try discriminate.
      intros [= <-]. by exists s.
    + intros (s & -> & ->). reflexivity.
  - intros s v -> -> Hv. cbn [mbind pyresult_bind].
    destruct v; try reflexivity. by destruct (Hv d).
  - intros s e -> ->. reflexivity.
  - intros [->| ->]; by eexists.
Qed.

Lemma read_invitation_json_object_only_witness :
  let fs : gmap pystr file := {[ lit "home.json" := TextFile (lit "[1, 2]") ]} in
  Json.read_invitation_json (λ _, Ok (PyList [PyInt 1; PyInt 2])) fs (lit "home.json")
  = Raise (Exn ValueError (lit "Invitation JSON must be a JSON object."))
  ∧ raises (Json.read_invitation_json (λ _, Ok PyNone) fs (lit "church.json")) OSError.
Proof.
  intros fs. split.
  - apply (proj1 (proj2 (read_invitation_json_object_only
             (λ _, Ok (PyList [PyInt 1; PyInt 2])) fs (lit "home.json")))
             (lit "[1, 2]") (PyList [PyInt 1; PyInt 2])); [reflexivity..|].
    intros d. discriminate.
  - apply (proj2 (proj2 (proj2 (read_invitation_json_object_only
             (λ _, Ok PyNone) fs (lit "church.json"))))).
    left. reflexivity.
Defined.

(** [get_required] refuses a missing key with a [KeyError] that names the
    key, and only a missing key; on a key that is present, null included,
    it answers as [get_optional] does. *)
Theorem get_required_key_error_iff_missing (d : gmap pystr pyval) (key : pystr) :
  (raises (Json.get_required d key) KeyError ↔ d !! key = None)
  ∧ (d !! key = None →
       Json.get_required d key
       = Raise (Exn KeyError
                  (lit "Missing required key in invitation JSON: '" ++ key ++ lit "'")))
  ∧ (is_Some (d !! key) → Json.get_required d key = Json.get_optional d key [])
  ∧ (d !! key = Some PyNone → Json.get_required d key = Ok []).
Proof.
  unfold Json.get_required, Json.get_optional. split; [split|split; [|split]].
  - destruct (d !! key) as [v|]; [|done].
    intros [msg H]. destruct v; discriminate H.
  - intros ->. by eexists.
  - by intros ->.
  - intros [v ->]. by destruct v.
  - by intros ->.
Qed.

Lemma get_required_key_error_iff_missing_witness :
  raises (Json.get_required jane_doe (lit "RSVP_TEXT")) KeyError
  ∧ Json.get_required jane_doe (lit "TITLE_LINE_1") = Ok (lit "Jane").
Proof.
  split.
  - apply (proj2 (proj1 (get_required_key_error_iff_missing jane_doe (lit "RSVP_TEXT")))).
    reflexivity.
  - rewrite (proj1 (proj2 (proj2 (get_required_key_error_iff_missing jane_doe
               (lit "TITLE_LINE_1"))))); [reflexivity|by eexists].
Defined.

(** The message of the [TypeError] of [get_optional] names the key. *)
Lemma get_optional_error d key e :
  Json.get_optional d key [] = Raise e →
  refused (d !! key)
  ∧ e = Exn TypeError (lit "Invitation JSON key '" ++ key ++ lit "' must be a string.").
Proof.
  intros H. destruct (get_optional_cases d key) as [(s & Hs & _)|(msg & Hm & Hr)];
    [congruence|].
  split; [done|]. unfold Json.get_optional in H.
  destruct (match d !! key with Some v => v | None => PyStr [] end); congruence.
Qed.

Lemma get_optional_ok d key :
  ¬ refused (d !! key) → ∃ s, Json.get_optional d key [] = Ok s.
Proof.
  intros Hn. destruct (get_optional_cases d key) as [(s & Hs & _)|(msg & _ & Hr)];
    [by exists s|done].
Qed.

Lemma load_content_error (inv : gmap pystr pyval) (e : exn) :
  Json.load_content inv = Raise e →
  ∃ key, key ∈ Json.content_keys ∧ refused (inv !! key)
         ∧ e = Exn TypeError
                 (lit "Invitation JSON key '" ++ key ++ lit "' must be a string.").
Proof.
  intros H. unfold Json.load_content in H.
  repeat (step_bind H;
          [|injection H as <-;
            match goal with
            | Hb : Json.get_optional inv ?k [] = Raise _ |- _ =>
                destruct (get_optional_error inv k _ Hb) as [Hr He];
                exists k; split; [unfold Json.content_keys;
                                 repeat first [by left | right]|by split]
            end]).
  discriminate H.
Qed.

(** The content of a document loads exactly when none of the eleven
    content fields is refused.  When it fails, the error is a [TypeError]
    whose message names a refused field.  Keys other than the eleven are
    never looked at: two documents that agree on the content fields load
    alike. *)
Theorem load_content_ok_iff_no_field_refused (inv : gmap pystr pyval) :
  ((∃ c, Json.load_content inv = Ok c)
     ↔ ∀ key, key ∈ Json.content_keys → ¬ refused (inv !! key))
  ∧ (∀ e, Json.load_content inv = Raise e →
       ∃ key, key ∈ Json.content_keys ∧ refused (inv !! key)
              ∧ e = Exn TypeError
                      (lit "Invitation JSON key '" ++ key ++ lit "' must be a string."))
  ∧ (∀ inv' : gmap pystr pyval,
       (∀ key, key ∈ Json.content_keys → inv' !! key = inv !! key) →
       Json.load_content inv' = Json.load_content inv).
Proof.
  split; [split|split].
  - intros [c Hc] key Hkey Hbad.
    destruct (load_content_refused inv key Hkey Hbad) as [msg Hmsg]. congruence.
  - intros Hall. unfold Json.load_content.
    repeat match goal with
           | |- ∃ c, mbind _ (Json.get_optional inv ?k []) = Ok c =>
               let s := fresh "s" in let Hs := fresh "Hs" in
               destruct (get_optional_ok inv k) as [s Hs];
               [apply Hall; unfold Json.content_keys;
                repeat first [by left | right]|];
               rewrite Hs; cbn [mbind pyresult_bind]
           end.
    by eexists.
  - apply load_content_error.
  - intros inv' Hagree. unfold Json.load_content.
    assert (Hget : ∀ key, key ∈ Json.content_keys →
                   Json.get_optional inv' key [] = Json.get_optional inv key []).
    { intros key Hkey. unfold Json.get_optional. by rewrite Hagree. }
    rewrite !Hget by (unfold Json.content_keys; repeat first [by left | right]).
    reflexivity.
Qed.

Lemma load_content_ok_iff_no_field_refused_witness :
  (∃ c, Json.load_content (<[lit "GUESTS" := PyInt 40]> jane_doe) = Ok c)
  ∧ Json.load_content (<[lit "GUESTS" := PyInt 40]> jane_doe) = Json.load_content jane_doe.
Proof.
  pose proof (load_content_ok_iff_no_field_refused jane_doe) as (Hok & _ & Hsame).
  assert (Hagree : ∀ key, key ∈ Json.content_keys →
            (<[lit "GUESTS" := PyInt 40]> jane_doe : gmap pystr pyval) !! key
            = jane_doe !! key).
  { intros key Hkey. apply lookup_insert_ne. intros <-.
    unfold Json.content_keys in Hkey.
    repeat (apply elem_of_cons in Hkey as [Hkey|Hkey]; [discriminate Hkey|]).
    by apply elem_of_nil in Hkey. }
  split.
  - rewrite (Hsame _ Hagree). apply Hok. intros key Hkey (v & Hv & Hnn & Hns).
    unfold Json.content_keys in Hkey.
    repeat (apply elem_of_cons in Hkey as [->|Hkey];
            [vm_compute in Hv; first [discriminate Hv
               | injection Hv as <-; apply Hns; by eexists]|]).
    by apply elem_of_nil in Hkey.
  - exact (Hsame _ Hagree).
Defined.

(** ** From configured lines to drawn lines *)

Lemma head_join_with sep (l : pystr) (ls : list pystr) :
  l ≠ [] → head (join_with sep (l :: ls)) = head l.
Proof.
  intros Hl. destruct ls as [|l' ls]; [done|].
  change (join_with sep (l :: l' :: ls)) with (l ++ sep :: join_with sep (l' :: ls)).
  by apply head_app_nonempty.
Qed.

Lemma last_join_with sep (ls : list pystr) (l : pystr) :
  l ≠ [] → last (join_with sep (ls ++ [l])) = last l.
Proof.
  intros Hl. induction ls as [|a ls IH]; [done|].
  destruct ls as [|b ls].
  - change (join_with sep ([a] ++ [l])) with (a ++ [sep] ++ l).
    rewrite app_assoc. by apply last_app_nonempty.
  - change (join_with sep ((a :: b :: ls) ++ [l]))
      with (a ++ [sep] ++ join_with sep ((b :: ls) ++ [l])).
    rewrite app_assoc, last_app_nonempty; [exact IH|].
    intros Hnil. rewrite Hnil in IH. destruct l; [done|].
    rewrite last_cons in IH. by destruct (last l).
Qed.

(** Lines without newlines, the first and the last not empty, come out of
    the assembled text as they went in. *)
Lemma split_assemble (lines : list pystr) :
  lines ≠ [] → Forall (λ l, NL ∉ l) lines →
  head lines ≠ Some [] → last lines ≠ Some [] →
  split_on NL (Json.assemble lines) = lines.
Proof.
  intros Hne Hnl Hfirst Hlast. unfold Json.assemble, strip_nl.
  rewrite strip_with_fix; [by apply split_on_join| |].
  - destruct lines as [|l ls]; [done|].
    assert (Hl : l ≠ []) by (intros ->; by apply Hfirst).
    rewrite head_join_with by done. apply not_nl_head.
    intros Hh. apply Forall_cons in Hnl as [Hl' _]. apply Hl'.
    by apply head_Some_elem_of.
  - destruct (exists_last Hne) as (ls & l & ->).
    assert (Hl : l ≠ []) by (intros ->; apply Hlast; by rewrite last_snoc).
    rewrite last_join_with by done. apply not_nl_last.
    intros Hh. apply Forall_app in Hnl as [_ Hl']. apply Forall_cons in Hl' as [Hl' _].
    apply Hl'. by apply last_Some_elem_of.
Qed.

Lemma get_optional_lines inv keys lines (line : pystr → pystr) :
  Forall2 (λ k s, Json.get_optional inv k [] = Ok s) keys lines →
  Forall (λ k, Json.get_optional inv k [] = Ok (line k)) keys →
  lines = map line keys.
Proof.
  induction 1 as [|k s keys lines Hk _ IH]; [done|].
  intros Hall. apply Forall_cons in Hall as [Hk' Hall].
  cbn [map]. rewrite (IH Hall). congruence.
Qed.

(** The renderer is handed the configured lines, one segment each.  In the
    older script this holds for every block whose lines hold no newline,
    empty lines included.  In [main] it holds when, besides, the first and
    the last line of the block are not empty; empty lines at either end
    are the ones [.strip("\n")] removes. *)
Theorem segments_are_the_configured_lines
    (environ : gmap pystr pystr) (inv : gmap pystr pyval) (c : content) (b : block)
    (line : pystr → pystr) :
  Forall (λ k, NL ∉ line k) (block_keys b) →
  ((∀ k, line k = env_str environ k []) →
     split_on NL (block_text (Legacy.load_content environ) b) = map line (block_keys b))
  ∧ (Json.load_content inv = Ok c →
     Forall (λ k, Json.get_optional inv k [] = Ok (line k)) (block_keys b) →
     head (map line (block_keys b)) ≠ Some [] →
     last (map line (block_keys b)) ≠ Some [] →
     split_on NL (block_text c b) = map line (block_keys b)).
Proof.
  intros Hnl.
  assert (Hnl' : Forall (λ l, NL ∉ l) (map line (block_keys b))).
  { apply Forall_fmap. exact Hnl. }
  assert (Hne : map line (block_keys b) ≠ []) by (by destruct b).
  split.
  - intros Hline. rewrite legacy_block_text.
    rewrite <- (map_ext line) by exact Hline. by apply split_on_join.
  - intros Hc Hget Hfirst Hlast.
    destruct (json_block_text inv c b Hc) as (lines & Hlines & ->).
    rewrite (get_optional_lines inv _ lines line Hlines Hget).
    destruct b; cbn [Json.assemble_block];
      first [by apply split_assemble | by apply split_on_join].
Qed.

Lemma not_elem_of_forallb (c : N) (l : pystr) :
  forallb (λ x, negb (x =? c)%N) l = true → c ∉ l.
Proof.
  rewrite forallb_forall. intros H Hin. apply list_elem_of_In, H in Hin.
  by rewrite N.eqb_refl in Hin.
Qed.

Lemma segments_are_the_configured_lines_witness :
  split_on NL (TITLE jane_doe_content) = [lit "Jane"; lit "Doe"]
  ∧ split_on NL (DETAILS (Legacy.load_content {[ lit "DETAIL_LINE_2" := lit "2 pm" ]}))
    = [[]; lit "2 pm"; []].
Proof.
  split.
  - pose (line := λ k : pystr,
        match jane_doe !! k with Some (PyStr s) => s | _ => [] end).
    apply (proj2 (segments_are_the_configured_lines ∅ jane_doe jane_doe_content Title line
                    ltac:(repeat constructor; apply not_elem_of_forallb; reflexivity))).
    + exact load_content_jane_doe.
    + repeat constructor.
    + vm_compute. discriminate.
    + vm_compute. discriminate.
  - pose (line := λ k : pystr,
        env_str ({[ lit "DETAIL_LINE_2" := lit "2 pm" ]} : gmap pystr pystr) k []).
    apply (proj1 (segments_are_the_configured_lines {[ lit "DETAIL_LINE_2" := lit "2 pm" ]}
                    ∅ jane_doe_content Details line
                    ltac:(repeat constructor; apply not_elem_of_forallb; reflexivity))).
    reflexivity.
Defined.

(** ** Extent of a text block *)

Lemma line_advance_height f sp seg :
  line_advance f sp seg
  = if is_blank seg then font_size f + sp else bbox_height f seg + sp.
Proof.
  unfold line_advance, bbox_height. destruct (is_blank seg); [done|].
  by destruct (textbbox f seg) as [[[x0 y0] x1] y1].
Qed.

Lemma sum_advance_nonneg f sp segs :
  0 ≤ font_size f + sp → (∀ s, 0 ≤ bbox_height f s + sp) →
  0 ≤ sum_Z (map (line_advance f sp) segs).
Proof.
  intros Hsize Hbox. induction segs as [|seg segs IH]; cbn [map sum_Z foldr]; [done|].
  fold (sum_Z (map (line_advance f sp) segs)).
  assert (0 ≤ line_advance f sp seg); [|lia].
  rewrite line_advance_height. destruct (is_blank seg); [done|apply Hbox].
Qed.

Lemma lines_text_within f cx fill sp segs : ∀ y,
  0 ≤ font_size f + sp → (∀ s, 0 ≤ bbox_height f s + sp) →
  Forall (text_within f fill y (y + sum_Z (map (line_advance f sp) segs)))
         (lines_text f cx fill sp y segs).
Proof.
  induction segs as [|seg segs IH]; intros y Hsize Hbox;
    cbn [lines_text map sum_Z foldr]; [constructor|].
  fold (sum_Z (map (line_advance f sp) segs)).
  pose proof (sum_advance_nonneg f sp segs Hsize Hbox) as Hsum.
  assert (Hadv : 0 ≤ line_advance f sp seg).
  { rewrite line_advance_height. destruct (is_blank seg); [done|apply Hbox]. }
  apply Forall_app. split.
  - unfold line_text. destruct (is_blank seg) eqn:Hb; [constructor|].
    destruct (textbbox f seg) as [[[x0 y0] x1] y1]. constructor; [|constructor].
    eexists _, _, _. split; [reflexivity|]. split; [lia|done].
  - eapply Forall_impl; [apply (IH (y + line_advance f sp seg) Hsize Hbox)|].
    intros c (x & y' & t & -> & Hy & Ht). eexists _, _, _.
    split; [reflexivity|]. split; [lia|done].
Qed.

(** When no line has a negative advance (the font size plus the spacing,
    and the height of every box plus the spacing, are at least zero), the
    cursor returned is not above the starting one, and the block stays
    between the two: what [draw_centered_multiline] adds to the surface are
    text calls only, in the given font and colour, of segments that are not
    blank, each at a height from [top_y] to the returned cursor.  The image
    and the calls already on the surface are left as they were. *)
Theorem draw_centered_multiline_extent
    (draw : ImageDraw) (text : pystr) (f : font) (center_x top_y : Z)
    (fill : color) (line_spacing_px : Z) :
  0 ≤ font_size f + line_spacing_px →
  (∀ s, 0 ≤ bbox_height f s + line_spacing_px) →
  let r := draw_centered_multiline draw text f center_x top_y fill line_spacing_px in
  top_y ≤ r.1
  ∧ im r.2 = im draw
  ∧ ∃ added, calls r.2 = calls draw ++ added
             ∧ Forall (text_within f fill top_y r.1) added.
Proof.
  intros Hsize Hbox r. unfold r, draw_centered_multiline.
  rewrite fold_line_step. cbn [fst snd im calls].
  pose proof (sum_advance_nonneg f line_spacing_px (split_on NL text) Hsize Hbox).
  split; [lia|]. split; [done|]. eexists. split; [reflexivity|].
  by apply lines_text_within.
Qed.

Lemma draw_centered_multiline_extent_witness :
  1320 ≤ (draw_centered_multiline blank_page (lit "Saturday" ++ NL :: NL :: lit "2 pm")
            (mono_font 52) 1290 1320 TEXT_COLOR 14).1.
Proof.
  apply (draw_centered_multiline_extent blank_page _ (mono_font 52) 1290 1320 TEXT_COLOR 14).
  - simpl. lia.
  - intros s. unfold bbox_height. simpl. lia.
Defined.

(** ** Trailing newlines *)

Lemma split_on_trailing (text : pystr) (n : nat) :
  split_on NL (text ++ replicate n NL) = split_on NL text ++ replicate n [].
Proof.
  destruct n as [|n]; [by rewrite !app_nil_r|].
  cbn [replicate]. rewrite split_on_app. f_equal.
  induction n as [|n IH]; [done|].
  cbn [replicate split_on]. rewrite N.eqb_refl. by rewrite IH.
Qed.

Lemma lines_text_app f cx fill sp a : ∀ b y,
  lines_text f cx fill sp y (a ++ b)
  = lines_text f cx fill sp y a
    ++ lines_text f cx fill sp (y + sum_Z (map (line_advance f sp) a)) b.
Proof.
  induction a as [|seg a IH]; intros b y; cbn [app lines_text map sum_Z foldr].
  - by rewrite Z.add_0_r.
  - fold (sum_Z (map (line_advance f sp) a)). rewrite IH, <- app_assoc.
    do 3 f_equal. lia.
Qed.

Lemma lines_text_blank f cx fill sp (n : nat) : ∀ y,
  lines_text f cx fill sp y (replicate n []) = [].
Proof. induction n as [|n IH]; intros y; [done|]. cbn [replicate lines_text]. apply IH. Qed.

Lemma sum_advance_blank f sp (n : nat) :
  sum_Z (map (line_advance f sp) (replicate n [])) = Z.of_nat n * (font_size f + sp).
Proof.
  induction n as [|n IH]; [done|]. cbn [replicate map sum_Z foldr].
  fold (sum_Z (map (line_advance f sp) (replicate n []))). rewrite IH.
  change (line_advance f sp []) with (font_size f + sp). lia.
Qed.

Lemma sum_Z_app a b : sum_Z (a ++ b) = sum_Z a + sum_Z b.
Proof.
  induction a as [|x a IH]; cbn [app sum_Z foldr]; [done|].
  fold (sum_Z (a ++ b)) (sum_Z a). lia.
Qed.

Lemma draw_trailing_newlines draw (text : pystr) (n : nat) f cx top_y fill sp :
  draw_centered_multiline draw (text ++ replicate n NL) f cx top_y fill sp
  = ((draw_centered_multiline draw text f cx top_y fill sp).1
       + Z.of_nat n * (font_size f + sp),
     (draw_centered_multiline draw text f cx top_y fill sp).2).
Proof.
  unfold draw_centered_multiline. rewrite split_on_trailing, !fold_line_step.
  cbn [fst snd]. rewrite map_app, sum_Z_app, sum_advance_blank.
  rewrite lines_text_app, lines_text_blank, app_nil_r.
  f_equal. lia.
Qed.

(** Newlines at the end of a text change the cursor returned, by one font
    size plus spacing each, and nothing on the surface. *)
Theorem draw_centered_multiline_trailing_newlines
    (draw : ImageDraw) (text : pystr) (n : nat) (f : font) (center_x top_y : Z)
    (fill : color) (line_spacing_px : Z) :
  draw_centered_multiline draw (text ++ replicate n NL) f center_x top_y fill line_spacing_px
  = ((draw_centered_multiline draw text f center_x top_y fill line_spacing_px).1
       + Z.of_nat n * (font_size f + line_spacing_px),
     (draw_centered_multiline draw text f center_x top_y fill line_spacing_px).2).
Proof. apply draw_trailing_newlines. Qed.

(** ** The two drivers side by side *)

Lemma draw_empty_text draw f cx top_y fill sp :
  (draw_centered_multiline draw [] f cx top_y fill sp).2 = draw.
Proof.
  change (@nil N) with (replicate 0 NL) at 1. by rewrite draw_blank_lines.
Qed.

Lemma all_newlines_replicate (s : pystr) :
  Forall (λ c, c = NL) s → s = replicate (length s) NL.
Proof.
  induction 1 as [|c s -> _ IH]; [done|]. cbn [length replicate]. by rewrite <- IH.
Qed.

(** A guarded step on the stripped text draws what the unguarded step
    draws on the text itself, unless the text starts with a newline that
    is followed by something to draw. *)
Lemma guarded_stripped_step draw (text : pystr) f cx top_y fill sp :
  head text ≠ Some NL ∨ strip_nl text = [] →
  (if truthy (strip_nl text)
   then (draw_centered_multiline draw (strip_nl text) f cx top_y fill sp).2
   else draw)
  = (draw_centered_multiline draw text f cx top_y fill sp).2.
Proof.
  intros Hcond.
  destruct (strip_with_decompose (N.eqb NL) text) as (pre & post & Hdec & Hpre & Hpost).
  fold (strip_nl text) in Hdec.
  assert (Hnl : ∀ l, Forall (λ c, (NL =? c)%N = true) l → Forall (λ c, c = NL) l).
  { intros l Hl. eapply Forall_impl; [exact Hl|]. intros c Hc. by apply is_nl_true. }
  apply Hnl in Hpre, Hpost.
  destruct (strip_nl text) as [|c t] eqn:Hs.
  - cbn [truthy]. rewrite Hdec, app_nil_l.
    rewrite (all_newlines_replicate _ Hpre), (all_newlines_replicate _ Hpost).
    rewrite <- replicate_add. by rewrite draw_blank_lines.
  - cbn [truthy]. destruct Hcond as [Hhead|Hnil]; [|discriminate Hnil].
    assert (pre = []) as ->.
    { destruct pre as [|p pre]; [done|]. apply Forall_cons in Hpre as [-> _].
      rewrite Hdec in Hhead. by destruct Hhead. }
    rewrite Hdec, app_nil_l, (all_newlines_replicate _ Hpost).
    by rewrite draw_trailing_newlines.
Qed.

Lemma json_build_legacy truetype load_default cfg c img :
  Json.build truetype load_default cfg c img = Legacy.build truetype load_default cfg c img.
Proof.
  rewrite json_build_steps, legacy_build_steps. cbv zeta.
  assert (Hstep : ∀ fs cx b d,
            Json.text_step cfg c fs cx b d = (Legacy.text_step cfg c fs cx b d).2).
  { intros fs cx b d. unfold Json.text_step, Legacy.text_step.
    destruct (block_text c b) as [|ch t] eqn:E; [|done].
    cbn [truthy]. by rewrite draw_empty_text. }
  by rewrite !Hstep.
Qed.

Section SideBySide.
Variable environ : gmap pystr pystr.
Variable truetype : pystr → Z → pyresult font.
Variable load_default : font.

(** On the same content the two scripts draw the same page: the guard
    [if TEXT:] of [main] skips exactly the calls that would have drawn
    nothing. *)
Theorem json_build_is_legacy_build (cfg : config) (c : content) (img : Image) :
  Json.build truetype load_default cfg c img = Legacy.build truetype load_default cfg c img.
Proof. apply json_build_legacy. Qed.

(** The same lines given to the two scripts, to one in the document and to
    the other in the environment, give the same page, provided no block
    has an empty (or newline-led) first line followed by something to
    draw: that is the one case where stripping moves the text up. *)
Theorem scripts_agree_on_same_lines (cfg : config) (inv : gmap pystr pyval) (c : content)
    (img : Image) :
  Json.load_content inv = Ok c →
  (∀ key, key ∈ Json.content_keys →
     Json.get_optional inv key [] = Ok (env_str environ key [])) →
  (∀ b, head (block_text (Legacy.load_content environ) b) ≠ Some NL
        ∨ strip_nl (block_text (Legacy.load_content environ) b) = []) →
  Json.build truetype load_default cfg c img
  = Legacy.build truetype load_default cfg (Legacy.load_content environ) img.
Proof.
  intros Hc Hget Hhead.
  rewrite json_build_steps, legacy_build_steps. cbv zeta.
  assert (Htext : ∀ b, block_text c b = block_text (Legacy.load_content environ) b
                       ∨ block_text c b
                         = strip_nl (block_text (Legacy.load_content environ) b)).
  { intros b. destruct (json_block_text inv c b Hc) as (lines & Hlines & ->).
    rewrite (get_optional_lines inv _ lines (λ k, env_str environ k []) Hlines).
    - rewrite legacy_block_text. destruct b; cbn [Json.assemble_block]; auto.
    - apply Forall_forall. intros k Hk. apply Hget.
      destruct b; cbn [block_keys] in Hk; unfold Json.content_keys;
        repeat (apply elem_of_cons in Hk as [->|Hk]; [repeat first [by left|right]|]);
        by apply elem_of_nil in Hk. }
  assert (Hstep : ∀ fs cx b d,
            Json.text_step cfg c fs cx b d
            = (Legacy.text_step cfg (Legacy.load_content environ) fs cx b d).2).
  { intros fs cx b d. unfold Json.text_step, Legacy.text_step.
    destruct (Htext b) as [->| ->].
    - destruct (block_text (Legacy.load_content environ) b) eqn:E; [|done].
      cbn [truthy]. by rewrite draw_empty_text.
    - by apply guarded_stripped_step. }
  by rewrite !Hstep.
Qed.
End SideBySide.

Lemma scripts_agree_on_same_lines_witness :
  let environ : gmap pystr pystr :=
    <[lit "TITLE_LINE_1" := lit "Jane"]> (<[lit "TITLE_LINE_2" := lit "Doe"]> ∅) in
  Json.build (λ _ sz, Ok (mono_font sz)) (mono_font 10) default_config jane_doe_content
    demo_page
  = Legacy.build (λ _ sz, Ok (mono_font sz)) (mono_font 10) default_config
      (Legacy.load_content environ) demo_page.
Proof.
  intros environ.
  apply (scripts_agree_on_same_lines environ (λ _ sz, Ok (mono_font sz)) (mono_font 10)
           default_config jane_doe jane_doe_content demo_page load_content_jane_doe).
  - intros key Hkey. unfold Json.content_keys in Hkey.
    repeat (apply elem_of_cons in Hkey as [->|Hkey]; [reflexivity|]).
    by apply elem_of_nil in Hkey.
  - intros b. destruct b; first [left; vm_compute; discriminate | right; reflexivity].
Defined.

(** ** What a finished page carries *)

Lemma lines_text_no_line f cx fill sp segs : ∀ y,
  List.filter is_line (lines_text f cx fill sp y segs) = [].
Proof.
  induction segs as [|seg segs IH]; intros y; cbn [lines_text]; [done|].
  rewrite List.filter_app, IH, app_nil_r. unfold line_text.
  destruct (is_blank seg); [done|]. by destruct (textbbox f seg) as [[[x0 y0] x1] y1].
Qed.

Lemma draw_centered_multiline_keeps draw text f cx top_y fill sp :
  segments (draw_centered_multiline draw text f cx top_y fill sp).2 = segments draw
  ∧ im (draw_centered_multiline draw text f cx top_y fill sp).2 = im draw.
Proof.
  unfold draw_centered_multiline. rewrite fold_line_step. cbn [snd im]. split; [|done].
  unfold segments. cbn [calls]. by rewrite List.filter_app, lines_text_no_line, app_nil_r.
Qed.

Lemma draw_hook_divider_keeps load_default draw cx y width fill thickness hook_char
    hook_font hook_gap :
  segments (draw_hook_divider load_default draw cx y width fill thickness hook_char
              hook_font hook_gap) = S (S (segments draw))
  ∧ im (draw_hook_divider load_default draw cx y width fill thickness hook_char
          hook_font hook_gap) = im draw.
Proof.
  pose proof (draw_hook_divider_calls load_default draw cx y width fill thickness hook_char
                hook_font hook_gap) as H. cbv zeta in H.
  destruct (textbbox _ _) as [[[x0 y0] x1] y1]. rewrite H. split; [|done].
  unfold segments. cbn [calls]. rewrite List.filter_app, length_app.
  cbn [List.filter is_line is_text negb length]. lia.
Qed.

Lemma draw_divider_pair_keeps load_default draw cx width fill thickness hook_char hook_font
    hook_gap (line_1_y line_2_y : option Z) :
  segments (draw_divider_pair load_default draw cx width fill thickness hook_char hook_font
              hook_gap line_1_y line_2_y)
  = (segments draw + 2 * (present line_1_y + present line_2_y))%nat
  ∧ im (draw_divider_pair load_default draw cx width fill thickness hook_char hook_font
          hook_gap line_1_y line_2_y) = im draw.
Proof.
  unfold draw_divider_pair.
  destruct line_1_y, line_2_y; cbn [present];
    repeat match goal with
           | |- context [draw_hook_divider ?l ?d ?a ?b ?c ?e ?f ?g ?h ?i] =>
               let Hs := fresh in let Hi := fresh in
               destruct (draw_hook_divider_keeps l d a b c e f g h i) as [Hs Hi];
               rewrite Hs, Hi; clear Hs Hi
           end; split; try done; lia.
Qed.

Lemma legacy_build_keeps truetype load_default cfg c img :
  segments (Legacy.build truetype load_default cfg c img) = (2 * dividers_set cfg)%nat
  ∧ im (Legacy.build truetype load_default cfg c img) = img.
Proof.
  rewrite legacy_build_steps. cbv zeta.
  unfold Legacy.text_step, small_divider, details_divider, message_divider.
  repeat match goal with
         | |- context [draw_centered_multiline ?d ?t ?f ?cx ?y ?fl ?sp] =>
             let Hs := fresh in let Hi := fresh in
             destruct (draw_centered_multiline_keeps d t f cx y fl sp) as [Hs Hi];
             rewrite Hs, Hi; clear Hs Hi
         | |- context [draw_divider_pair ?l ?d ?a ?b ?c ?e ?f ?g ?h ?i ?j] =>
             let Hs := fresh in let Hi := fresh in
             destruct (draw_divider_pair_keeps l d a b c e f g h i j) as [Hs Hi];
             rewrite Hs, Hi; clear Hs Hi
         end.
  cbn [im calls]. unfold segments, dividers_set. cbn [calls List.filter length].
  split; [lia|done].
Qed.

(** Whatever the texts are, a finished page of either script is drawn on
    the image it was given, and carries two line segments for each divider
    coordinate that is set and no other: the text blocks draw no line. *)
Theorem page_has_two_segments_per_divider
    (truetype : pystr → Z → pyresult font) (load_default : font)
    (cfg : config) (c : content) (img : Image) :
  segments (Json.build truetype load_default cfg c img) = (2 * dividers_set cfg)%nat
  ∧ im (Json.build truetype load_default cfg c img) = img
  ∧ segments (Legacy.build truetype load_default cfg c img) = (2 * dividers_set cfg)%nat
  ∧ im (Legacy.build truetype load_default cfg c img) = img.
Proof.
  rewrite json_build_legacy.
  destruct (legacy_build_keeps truetype load_default cfg c img) as [Hs Hi].
  by rewrite Hs, Hi.
Qed.

(** ** What a run leaves behind *)

Lemma ensure_a4_size img dpi img' :
  ensure_a4 img dpi = Ok img' → size img' = (a4_width dpi, a4_height dpi).
Proof.
  unfold ensure_a4. fold (a4_width dpi) (a4_height dpi).
  destruct (decide (size img ≠ (a4_width dpi, a4_height dpi))) as [Hne|Heq].
  - unfold resize. destruct (_ && _); [|discriminate]. by intros [= <-].
  - apply dec_stable in Heq. by intros [= <-].
Qed.

Lemma save_ok fs drawn path fs' :
  save fs drawn path = Ok fs' → fs' = <[path := SavedPng drawn]> fs ∧ path ≠ [].
Proof.
  unfold save. destruct (fs !! path) as [[]|]; try discriminate;
    destruct path; cbn [truthy]; try discriminate; by intros [= <-].
Qed.

Section Runs.
Variable environ : gmap pystr pystr.
Variable truetype : pystr → Z → pyresult font.
Variable load_default : font.
Variable json_loads : pystr → pyresult pyval.

Lemma render_ok fs json_path TEMPLATE drawn :
  Json.render environ truetype load_default json_loads fs json_path TEMPLATE = Ok drawn →
  ∃ cfg inv c img0 img,
    load_config environ = Ok cfg
    ∧ Json.read_invitation_json json_loads fs json_path = Ok inv
    ∧ Json.load_content inv = Ok c
    ∧ Image_open fs TEMPLATE = Ok img0
    ∧ ensure_a4 (convert (lit "RGBA") img0) (DPI cfg) = Ok img
    ∧ drawn = Json.build truetype load_default cfg c img.
Proof.
  intros H. unfold Json.render in H.
  repeat (step_bind H; [|discriminate H]).
  injection H as <-. by eexists _, _, _, _, _.
Qed.

(** A run of [main] that returns 0 has changed one file only, the output:
    every other path holds what it held.  The output is the page built
    from the loaded configuration; its size is the A4 size at the
    configured DPI, whatever the size of the template, and it carries two
    line segments per divider coordinate set. *)
Theorem main_success_writes_the_page (argv : list pystr) (fs fs' : gmap pystr file) :
  Json.main environ truetype load_default json_loads argv fs = (Ok 0, fs') →
  ∃ cfg drawn,
    load_config environ = Ok cfg
    ∧ fs' = <[output_path_of environ argv := SavedPng drawn]> fs
    ∧ (∀ path, path ≠ output_path_of environ argv → fs' !! path = fs !! path)
    ∧ size (im drawn) = (a4_width (DPI cfg), a4_height (DPI cfg))
    ∧ segments drawn = (2 * dividers_set cfg)%nat.
Proof.
  intros Hmain.
  destruct (main_cases environ truetype load_default json_loads argv fs)
    as [[H _]|[(e & H & _)|(drawn & fs0 & H & _ & _ & _ & Hr & Hs)]];
    rewrite H in Hmain; try discriminate Hmain.
  injection Hmain as <-.
  destruct (render_ok _ _ _ _ Hr) as (cfg & inv & c & img0 & img & Hcfg & _ & _ & _ & Ha4 & ->).
  apply save_ok in Hs as [-> _]. eexists cfg, _.
  destruct (legacy_build_keeps truetype load_default cfg c img) as [Hseg Him].
  rewrite json_build_legacy, Hseg, Him.
  split; [done|]. split; [done|]. split; [|split; [by apply ensure_a4_size in Ha4|done]].
  intros path Hne. by apply lookup_insert_ne.
Qed.

(** The order in which [main] reports what is wrong, once the document
    path and the template path have passed the first checks: a value of the
    configuration that does not parse, first; then a document that cannot be
    read; then a content field of the wrong type; only then a template that
    is no image.  Each is reported whatever the later ones would be, and
    the files are left as they were. *)
Theorem main_reports_errors_in_order (argv : list pystr) (fs : gmap pystr file) :
  (2 ≤ length argv)%nat → TEMPLATE_of environ ≠ [] → is_Some (fs !! TEMPLATE_of environ) →
  (∀ e, load_config environ = Raise e →
     Json.main environ truetype load_default json_loads argv fs
     = (Raise (Exn ValueError []), fs))
  ∧ (∀ cfg e, load_config environ = Ok cfg →
       Json.read_invitation_json json_loads fs (nth 1 argv []) = Raise e →
       Json.main environ truetype load_default json_loads argv fs = (Raise e, fs))
  ∧ (∀ cfg inv e, load_config environ = Ok cfg →
       Json.read_invitation_json json_loads fs (nth 1 argv []) = Ok inv →
       Json.load_content inv = Raise e →
       Json.main environ truetype load_default json_loads argv fs = (Raise e, fs)
       ∧ exn_is e TypeError)
  ∧ (∀ cfg inv c e, load_config environ = Ok cfg →
       Json.read_invitation_json json_loads fs (nth 1 argv []) = Ok inv →
       Json.load_content inv = Ok c →
       Image_open fs (TEMPLATE_of environ) = Raise e →
       Json.main environ truetype load_default json_loads argv fs = (Raise e, fs)).
Proof.
  intros Hargv Ht Hex.
  assert (Hgo : ∀ e,
    Json.render environ truetype load_default json_loads fs (nth 1 argv [])
      (TEMPLATE_of environ) = Raise e →
    Json.main environ truetype load_default json_loads argv fs = (Raise e, fs)).
  { intros e Hr. unfold Json.main. fold (TEMPLATE_of environ).
    rewrite decide_False by lia. apply truthy_true_iff in Ht. rewrite Ht.
    unfold path_exists. rewrite bool_decide_eq_true_2 by done. cbn [negb orb].
    by rewrite Hr. }
  split; [|split; [|split]].
  - intros e He. apply Hgo. unfold Json.render. rewrite He.
    by rewrite (load_config_error_class _ _ He).
  - intros cfg e Hcfg He. apply Hgo. unfold Json.render.
    rewrite Hcfg. cbn [mbind pyresult_bind]. by rewrite He.
  - intros cfg inv e Hcfg Hinv He. split.
    + apply Hgo. unfold Json.render. rewrite Hcfg. cbn [mbind pyresult_bind].
      rewrite Hinv. cbn [mbind pyresult_bind]. by rewrite He.
    + destruct (load_content_error inv e He) as (key & _ & _ & ->). by eexists.
  - intros cfg inv c e Hcfg Hinv Hc He. apply Hgo. unfold Json.render.
    rewrite Hcfg. cbn [mbind pyresult_bind]. rewrite Hinv. cbn [mbind pyresult_bind].
    rewrite Hc. cbn [mbind pyresult_bind]. by rewrite He.
Qed.

(** The older script has no exit status of its own: it ends by an
    exception or runs to the end.  A template that does not exist stops it
    with an [OSError] once the configuration has loaded, where [main]
    returns 2 before loading anything.  When it fails the files are left as
    they were; when it runs to the end it has written the output path only,
    with an A4 page. *)
Theorem legacy_script_effect (fs : gmap pystr file) :
  (∀ e, (Legacy.script environ truetype load_default fs).1 = Raise e →
     (Legacy.script environ truetype load_default fs).2 = fs)
  ∧ (∀ cfg, load_config environ = Ok cfg → fs !! TEMPLATE_of environ = None →
       Legacy.script environ truetype load_default fs = (Raise (Exn OSError []), fs))
  ∧ (∀ fs', Legacy.script environ truetype load_default fs = (Ok (), fs') →
       ∃ cfg drawn,
         load_config environ = Ok cfg
         ∧ fs' = <[env_str environ (lit "OUTPUT_IMAGE") (lit "invite.png")
                   := SavedPng drawn]> fs
         ∧ size (im drawn) = (a4_width (DPI cfg), a4_height (DPI cfg))
         ∧ segments drawn = (2 * dividers_set cfg)%nat).
Proof.
  unfold Legacy.script. fold (TEMPLATE_of environ).
  set (OUTPUT := env_str environ (lit "OUTPUT_IMAGE") (lit "invite.png")).
  split; [|split].
  - intros e. by destruct (mbind _ (load_config environ)).
  - intros cfg Hcfg Hnone. rewrite Hcfg. cbn [mbind pyresult_bind].
    unfold Image_open. by rewrite Hnone.
  - intros fs'.
    destruct (load_config environ) as [cfg|e] eqn:Hcfg; cbn [mbind pyresult_bind];
      [|discriminate].
    destruct (Image_open fs (TEMPLATE_of environ)) as [img0|e] eqn:Hopen;
      cbn [mbind pyresult_bind]; [|discriminate].
    destruct (ensure_a4 (convert (lit "RGBA") img0) (DPI cfg)) as [img|e] eqn:Ha4;
      cbn [mbind pyresult_bind]; [|discriminate].
    destruct (save fs _ OUTPUT) as [fs0|e] eqn:Hs; [|discriminate].
    intros [= <-]. apply save_ok in Hs as [-> _]. eexists cfg, _.
    split; [reflexivity|]. split; [reflexivity|].
    apply ensure_a4_size in Ha4.
    destruct (legacy_build_keeps truetype load_default cfg (Legacy.load_content environ) img)
      as [Hseg Him].
    by rewrite Hseg, Him.
Qed.
End Runs.

Lemma main_success_writes_the_page_witness :
  ∃ cfg drawn,
    load_config demo_environ = Ok cfg
    ∧ (Json.main demo_environ (λ _ sz, Ok (mono_font sz)) (mono_font 10)
         (λ _, Ok (PyDict jane_doe)) demo_argv demo_files).2
      = <[output_path_of demo_environ demo_argv := SavedPng drawn]> demo_files
    ∧ (∀ path, path ≠ output_path_of demo_environ demo_argv →
         (Json.main demo_environ (λ _ sz, Ok (mono_font sz)) (mono_font 10)
            (λ _, Ok (PyDict jane_doe)) demo_argv demo_files).2 !! path
         = demo_files !! path)
    ∧ size (im drawn) = (a4_width (DPI cfg), a4_height (DPI cfg))
    ∧ segments drawn = (2 * dividers_set cfg)%nat.
Proof.
  apply (main_success_writes_the_page demo_environ (λ _ sz, Ok (mono_font sz)) (mono_font 10)
           (λ _, Ok (PyDict jane_doe)) demo_argv demo_files).
  vm_compute. reflexivity.
Defined.

Lemma main_reports_errors_in_order_witness :
  Json.main (<[lit "DPI" := lit "high"]> demo_environ) (λ _ sz, Ok (mono_font sz))
    (mono_font 10) (λ _, Raise (Exn ValueError [])) demo_argv demo_files
  = (Raise (Exn ValueError []), demo_files)
  ∧ Json.main demo_environ (λ _ sz, Ok (mono_font sz)) (mono_font 10)
      (λ _, Ok (PyDict (<[lit "RSVP_TEXT" := PyInt 4]> jane_doe))) demo_argv
      (<[lit "template.png" := TextFile []]> demo_files)
    = (Raise (Exn TypeError (lit "Invitation JSON key 'RSVP_TEXT' must be a string.")),
       <[lit "template.png" := TextFile []]> demo_files).
Proof.
  split.
  - destruct (load_config (<[lit "DPI" := lit "high"]> demo_environ)) as [cfg|e] eqn:E;
      [vm_compute in E; discriminate E|].
    refine (proj1 (main_reports_errors_in_order (<[lit "DPI" := lit "high"]> demo_environ)
                     (λ _ sz, Ok (mono_font sz)) (mono_font 10)
                     (λ _, Raise (Exn ValueError [])) demo_argv demo_files _ _ _) e E).
    + simpl. lia.
    + vm_compute. discriminate.
    + vm_compute. by eexists.
  - refine (proj1 (proj1 (proj2 (proj2
              (main_reports_errors_in_order demo_environ
                 (λ _ sz, Ok (mono_font sz)) (mono_font 10)
                 (λ _, Ok (PyDict (<[lit "RSVP_TEXT" := PyInt 4]> jane_doe))) demo_argv
                 (<[lit "template.png" := TextFile []]> demo_files) _ _ _)))
              default_config (<[lit "RSVP_TEXT" := PyInt 4]> jane_doe) _ _ _ _)).
    + simpl. lia.
    + vm_compute. discriminate.
    + vm_compute. by eexists.
    + vm_compute. reflexivity.
    + vm_compute. reflexivity.
    + vm_compute. reflexivity.
Defined.

(** ** The page size at the edges *)

Lemma round53_nonneg m e : 0 ≤ m → 0 ≤ (round53 m e).1.
Proof.
  intros Hm. unfold round53.
  destruct (Z.leb_spec (Z.log2 m - 52) 0) as [Hk|Hk]; cbn [fst]; [done|].
  etransitivity; [|apply round_half_even_lower; apply Z.pow_pos_nonneg; lia].
  apply Z.div_pos; [done|]. apply Z.pow_pos_nonneg; lia.
Qed.

Lemma round_half_even_zero d : 0 < d → round_half_even 0 d = 0.
Proof.
  intros Hd. unfold round_half_even. rewrite Z.mod_0_l, Z.div_0_l by lia.
  destruct (Z.ltb_spec (2 * 0) d); [done|lia].
Qed.

(** A DPI of zero or below times a positive literal rounds to no pixel, or
    to a negative number of them. *)
Lemma scaled_nonpositive (c : float) (dpi : Z) :
  f_neg c = false → 0 ≤ f_mant c → dpi ≤ 0 →
  py_round (float_mul c (float_of_int dpi)) ≤ 0.
Proof.
  intros Hneg Hmant Hdpi. unfold float_of_int.
  pose proof (round53_nonneg (Z.abs dpi) 0 ltac:(lia)) as Hmd.
  destruct (round53 (Z.abs dpi) 0) as [md ed] eqn:Ed. cbn [fst] in Hmd.
  unfold float_mul. cbn [f_mant f_exp f_neg].
  pose proof (round53_nonneg (f_mant c * md) (f_exp c + ed) ltac:(lia)) as Hmp.
  destruct (round53 (f_mant c * md) (f_exp c + ed)) as [mp ep] eqn:Ep. cbn [fst] in Hmp.
  unfold py_round. cbn [f_mant f_exp f_neg]. rewrite Hneg. cbn [xorb].
  assert (Hval : 0 ≤ (if 0 <=? ep then mp * 2 ^ ep
                      else round_half_even mp (2 ^ (- ep)))).
  { destruct (Z.leb_spec 0 ep).
    - apply Z.mul_nonneg_nonneg; [done|]. apply Z.pow_nonneg. lia.
    - etransitivity; [|apply round_half_even_lower; apply Z.pow_pos_nonneg; lia].
      apply Z.div_pos; [done|]. apply Z.pow_pos_nonneg; lia. }
  destruct (Z.ltb_spec dpi 0) as [Hlt|Hge]; cbn [signed]; [lia|].
  assert (dpi = 0) as -> by lia.
  vm_compute in Ed. injection Ed as <- <-.
  rewrite Z.mul_0_r in Ep. unfold round53 in Ep. cbn in Ep. injection Ep as <- <-.
  destruct (Z.leb_spec 0 (f_exp c + 0)); [lia|].
  rewrite round_half_even_zero; [done|]. apply Z.pow_pos_nonneg; lia.
Qed.

(** [ensure_a4] is idempotent: a page it has returned is returned as it
    is by a second call at the same DPI, positive or not. *)
Theorem ensure_a4_idempotent (img img' : Image) (dpi : Z) :
  ensure_a4 img dpi = Ok img' → ensure_a4 img' dpi = Ok img'.
Proof.
  intros H. apply ensure_a4_size in H. unfold ensure_a4.
  fold (a4_width dpi) (a4_height dpi).
  by rewrite decide_False by (by intros Hne).
Qed.

Lemma ensure_a4_idempotent_witness :
  ensure_a4 demo_page 300 = Ok demo_page.
Proof.
  apply (ensure_a4_idempotent
           {| size := (2000, 2800);
              data := Converted (lit "RGBA") (Decoded (lit "template.png")) |}
           demo_page 300).
  vm_compute. reflexivity.
Defined.

(** A DPI of zero or below gives a target without a pixel, and
    [ensure_a4] then fails on every image that has one: the [ValueError]
    is that of [resize]. *)
Theorem ensure_a4_nonpositive_dpi (img : Image) (dpi : Z) :
  dpi ≤ 0 →
  a4_width dpi ≤ 0 ∧ a4_height dpi ≤ 0
  ∧ (0 < (size img).1 →
     ensure_a4 img dpi = Raise (Exn ValueError (lit "height and width must be > 0"))).
Proof.
  intros Hdpi.
  assert (Hw : a4_width dpi ≤ 0)
    by (apply scaled_nonpositive; [done|vm_compute; congruence|done]).
  assert (Hh : a4_height dpi ≤ 0)
    by (apply scaled_nonpositive; [done|vm_compute; congruence|done]).
  split; [done|]. split; [done|]. intros Hpos.
  unfold ensure_a4. fold (a4_width dpi) (a4_height dpi).
  rewrite decide_True by (intros Heq; rewrite Heq in Hpos; cbn [fst] in Hpos; lia).
  unfold resize. cbn [fst snd].
  destruct (Z.ltb_spec 0 (a4_width dpi)); [lia|done].
Qed.

Lemma ensure_a4_nonpositive_dpi_witness :
  ensure_a4 {| size := (2000, 2800); data := Decoded (lit "template.png") |} 0
  = Raise (Exn ValueError (lit "height and width must be > 0")).
Proof.
  apply (ensure_a4_nonpositive_dpi
           {| size := (2000, 2800); data := Decoded (lit "template.png") |} 0).
  - lia.
  - simpl. lia.
Defined.

(** ** Recipients of the mail script *)

Lemma replace_char_app old new a b :
  Mail.replace_char old new (a ++ b)
  = Mail.replace_char old new a ++ Mail.replace_char old new b.
Proof. apply fmap_app. Qed.

Lemma replace_char_id old new s : old ∉ s → Mail.replace_char old new s = s.
Proof.
  induction s as [|c s IH]; [done|]. intros Hnin.
  apply not_elem_of_cons in Hnin as [Hne Hnin].
  unfold Mail.replace_char in *. cbn [fmap list_fmap].
  destruct (N.eqb_spec c old) as [->|_]; [done|]. f_equal. by apply IH.
Qed.

Lemma replace_char_elem old new s c :
  c ∈ Mail.replace_char old new s → c ≠ old ∨ old = new.
Proof.
  unfold Mail.replace_char. intros Hin.
  apply list_elem_of_fmap in Hin as (c' & -> & _).
  destruct (N.eqb_spec c' old) as [->|Hne]; [|by left].
  destruct (N.eq_dec new old) as [->|Hne]; [by right|by left].
Qed.

Lemma replace_char_join (rs : list pystr) :
  Forall (λ r, NL ∉ r) rs →
  Mail.replace_char NL COMMA (join_with NL rs) = join_with COMMA rs
  ∧ Mail.replace_char NL COMMA (join_with COMMA rs) = join_with COMMA rs.
Proof.
  induction rs as [|r rs IH]; [done|]. intros Hall.
  apply Forall_cons in Hall as [Hr Hall]. destruct (IH Hall) as [IH1 IH2].
  destruct rs as [|r' rs].
  - cbn [join_with]. by rewrite replace_char_id.
  - change (join_with NL (r :: r' :: rs)) with (r ++ NL :: join_with NL (r' :: rs)).
    change (join_with COMMA (r :: r' :: rs))
      with (r ++ COMMA :: join_with COMMA (r' :: rs)).
    rewrite !replace_char_app, (replace_char_id _ _ r Hr).
    change (Mail.replace_char NL COMMA (NL :: join_with NL (r' :: rs)))
      with (COMMA :: Mail.replace_char NL COMMA (join_with NL (r' :: rs))).
    change (Mail.replace_char NL COMMA (COMMA :: join_with COMMA (r' :: rs)))
      with (COMMA :: Mail.replace_char NL COMMA (join_with COMMA (r' :: rs))).
    by rewrite IH1, IH2.
Qed.

(** The guard [if not value] changes nothing: the comprehension gives no
    address for the empty string. *)
Lemma parse_recipients_unfold value :
  Mail.parse_recipients value
  = py_strip <$> List.filter (λ x, truthy (py_strip x))
                   (split_on COMMA (Mail.replace_char NL COMMA value)).
Proof. by destruct value. Qed.

Lemma split_on_segment sep s seg :
  seg ∈ split_on sep s → (sep ∉ seg) ∧ ∀ c, c ∈ seg → c ∈ s.
Proof.
  revert seg. induction s as [|c s IH]; intros seg Hin.
  - apply list_elem_of_singleton in Hin as ->. split; [apply not_elem_of_nil|done].
  - cbn [split_on] in Hin. destruct (N.eqb_spec c sep) as [->|Hne].
    + apply elem_of_cons in Hin as [->|Hin].
      * split; [apply not_elem_of_nil|]. intros c Hc. by apply elem_of_nil in Hc.
      * destruct (IH _ Hin) as [H1 H2]. split; [done|].
        intros c Hc. right. by apply H2.
    + pose proof (split_on_nonempty sep s) as Hnil.
      destruct (split_on sep s) as [|seg0 rest]; [done|].
      apply elem_of_cons in Hin as [->|Hin].
      * destruct (IH seg0 ltac:(left)) as [H1 H2]. split.
        -- apply not_elem_of_cons. split; [congruence|done].
        -- intros c' Hc'. apply elem_of_cons in Hc' as [->|Hc']; [left|right; by apply H2].
      * destruct (IH seg ltac:(by right)) as [H1 H2]. split; [done|].
        intros c' Hc'. right. by apply H2.
Qed.

Lemma py_strip_elem s c : c ∈ py_strip s → c ∈ s.
Proof.
  intros Hin. destruct (strip_with_decompose is_space s) as (pre & post & Hs & _).
  rewrite Hs. apply elem_of_app. right. apply elem_of_app. by left.
Qed.

Lemma filter_nil_iff {A} (f : A → bool) (l : list A) :
  List.filter f l = [] ↔ Forall (λ x, f x = false) l.
Proof.
  induction l as [|a l IH]; cbn [List.filter]; [by split|].
  destruct (f a) eqn:E; split.
  - done.
  - intros H. apply Forall_cons in H as [H _]. congruence.
  - intros H. apply Forall_cons. split; [done|by apply IH].
  - intros H. apply Forall_cons in H as [_ H]. by apply IH.
Qed.

Lemma filter_all {A} (f : A → bool) (l : list A) :
  Forall (λ x, f x = true) l → List.filter f l = l.
Proof.
  induction 1 as [|a l Ha _ IH]; cbn [List.filter]; [done|]. by rewrite Ha, IH.
Qed.

Lemma split_on_all_blank sep s :
  Forall blank (split_on sep s) ↔ Forall (λ c, is_space c = true ∨ c = sep) s.
Proof.
  induction s as [|c s IH]; cbn [split_on].
  - split; [done|]. intros _. by repeat constructor.
  - destruct (N.eqb_spec c sep) as [->|Hne].
    + rewrite !Forall_cons, IH. split.
      * intros [_ H]. split; [by right|done].
      * intros [_ H]. split; [constructor|done].
    + pose proof (split_on_nonempty sep s) as Hnil.
      destruct (split_on sep s) as [|seg rest]; [done|].
      rewrite !Forall_cons in *. unfold blank in *. rewrite Forall_cons.
      rewrite <- IH. split.
      * intros [[Hc Hseg] Hrest]. split; [by left|done].
      * intros [[Hc|Hc] [Hseg Hrest]]; [done|congruence].
Qed.

Lemma address_kept (rs : list pystr) :
  Forall address rs →
  py_strip <$> List.filter (λ x, truthy (py_strip x)) rs = rs.
Proof.
  intros Hall. rewrite filter_all.
  - induction Hall as [|r rs (_ & _ & _ & Hr) _ IH]; [done|].
    cbn [fmap list_fmap]. rewrite Hr. f_equal. exact IH.
  - eapply Forall_impl; [exact Hall|]. intros r (Hne & _ & _ & Hr).
    rewrite Hr. by apply truthy_true_iff.
Qed.

Lemma parse_recipients_gives_addresses_aux (value : pystr) :
  Forall address (Mail.parse_recipients value).
Proof.
  rewrite parse_recipients_unfold. apply Forall_fmap, Forall_forall.
  intros x Hx. apply list_elem_of_In, filter_In in Hx as [Hin Ht].
  apply list_elem_of_In, split_on_segment in Hin as [Hcomma Hsub].
  unfold address, compose. split; [by apply truthy_true_iff|].
  split; [|split].
  - intros Hc. by apply py_strip_elem in Hc.
  - intros Hc. apply py_strip_elem, Hsub, replace_char_elem in Hc.
    by destruct Hc.
  - apply strip_with_idemp.
Qed.

(** Whatever the value, what [parse_recipients] returns are addresses:
    none is empty, none holds a comma or a newline, none begins or ends
    with white space. *)
Theorem parse_recipients_gives_addresses (value : pystr) :
  Forall address (Mail.parse_recipients value).
Proof. apply parse_recipients_gives_addresses_aux. Qed.

(** A comma and a newline separate alike, and the lists of the two sides
    are concatenated: nothing of one side reaches the other. *)
Theorem parse_recipients_app (a b : pystr) :
  Mail.parse_recipients (a ++ COMMA :: b)
  = Mail.parse_recipients a ++ Mail.parse_recipients b
  ∧ Mail.parse_recipients (a ++ NL :: b)
    = Mail.parse_recipients a ++ Mail.parse_recipients b.
Proof.
  rewrite !parse_recipients_unfold, !replace_char_app.
  change (Mail.replace_char NL COMMA (COMMA :: b))
    with (COMMA :: Mail.replace_char NL COMMA b).
  change (Mail.replace_char NL COMMA (NL :: b))
    with (COMMA :: Mail.replace_char NL COMMA b).
  by rewrite split_on_app, List.filter_app, fmap_app.
Qed.

(** Round trip: addresses joined by commas, or by newlines, are read back
    as they were, in order and with their repetitions. *)
Theorem parse_recipients_join (rs : list pystr) :
  Forall address rs →
  Mail.parse_recipients (join_with COMMA rs) = rs
  ∧ Mail.parse_recipients (join_with NL rs) = rs.
Proof.
  intros Hall. destruct rs as [|r rs]; [done|].
  rewrite !parse_recipients_unfold.
  destruct (replace_char_join (r :: rs)) as [-> ->].
  { eapply Forall_impl; [exact Hall|]. by intros ? (_ & _ & ? & _). }
  rewrite split_on_join.
  - split; by apply address_kept.
  - done.
  - eapply Forall_impl; [exact Hall|]. by intros ? (_ & ? & _ & _).
Qed.

Lemma parse_recipients_join_witness :
  Mail.parse_recipients (lit "a@b.dk,c@d.dk") = [lit "a@b.dk"; lit "c@d.dk"]
  ∧ Mail.parse_recipients (lit "a@b.dk" ++ NL :: lit "c@d.dk")
    = [lit "a@b.dk"; lit "c@d.dk"].
Proof.
  apply (parse_recipients_join [lit "a@b.dk"; lit "c@d.dk"]).
  repeat constructor; try (apply not_elem_of_forallb; reflexivity); discriminate.
Defined.

Lemma parse_recipients_none_aux (value : pystr) :
  Forall filler value ↔ Mail.parse_recipients value = [].
Proof.
  symmetry.
  rewrite parse_recipients_unfold.
  transitivity (List.filter (λ x, truthy (py_strip x))
                  (split_on COMMA (Mail.replace_char NL COMMA value)) = []).
  { split; [apply fmap_nil_inv|by intros ->]. }
  rewrite filter_nil_iff.
  transitivity (Forall blank (split_on COMMA (Mail.replace_char NL COMMA value))).
  { apply Forall_iff. intros seg. rewrite <- py_strip_blank.
    destruct (py_strip seg); cbn [truthy]; by split. }
  rewrite split_on_all_blank. unfold Mail.replace_char. rewrite Forall_fmap.
  apply Forall_iff. intros c. unfold compose, filler.
  destruct (N.eqb_spec c NL) as [->|Hne]; [|done].
  split; intros _; [by left|by right].
Qed.

(** No address comes out exactly when the value is made of white space
    and commas only. *)
Theorem parse_recipients_none_iff_filler (value : pystr) :
  Mail.parse_recipients value = [] ↔ Forall filler value.
Proof. symmetry. apply parse_recipients_none_aux. Qed.

(** ** The checks before the first mail *)

Lemma nonempty_true_iff {A} (l : list A) : Mail.nonempty l = true ↔ l ≠ [].
Proof. by destruct l. Qed.

(** The main block goes on to send only with an address in one group at
    least and with both image paths set, the second also when there is
    nobody in the second group.  Missing recipients are reported first,
    then the first image, then the second. *)
Theorem checks_need_both_images (environ : gmap pystr pystr) :
  (∀ g, Mail.checks environ = Ok g →
        Mail.to_church g ++ Mail.to_home g ≠ []
        ∧ Forall address (Mail.to_church g ++ Mail.to_home g)
        ∧ ¬ blank (env_str environ (lit "IMAGE_PATH_1") [])
        ∧ ¬ blank (env_str environ (lit "IMAGE_PATH_2") []))
  ∧ (Forall filler (env_str environ (lit "TO_CHURCH") []) →
     Forall filler (env_str environ (lit "TO_HOME") []) →
     Mail.checks environ
     = Raise (Exn ValueError (lit "No recipients. Set TO_CHURCH and/or TO_HOME.")))
  ∧ (¬ Forall filler (env_str environ (lit "TO_CHURCH") []) →
     Forall filler (env_str environ (lit "TO_HOME") []) →
     ¬ blank (env_str environ (lit "IMAGE_PATH_1") []) →
     blank (env_str environ (lit "IMAGE_PATH_2") []) →
     Mail.checks environ
     = Raise (Exn ValueError
                (lit "IMAGE_PATH_2 is required when sending home variant."))).
Proof.
  unfold Mail.checks.
  set (church := Mail.parse_recipients (env_str environ (lit "TO_CHURCH") [])).
  set (home := Mail.parse_recipients (env_str environ (lit "TO_HOME") [])).
  set (i1 := env_str environ (lit "IMAGE_PATH_1") []).
  set (i2 := env_str environ (lit "IMAGE_PATH_2") []).
  split; [|split].
  - intros g.
    destruct (Mail.nonempty church || Mail.nonempty home) eqn:Hto; cbn [negb];
      [|discriminate].
    destruct (truthy (py_strip i1)) eqn:H1; cbn [negb]; [|discriminate].
    destruct (truthy (py_strip i2)) eqn:H2; cbn [negb]; [|discriminate].
    intros [= <-]. cbn [Mail.to_church Mail.to_home].
    apply truthy_true_iff in H1, H2. rewrite py_strip_blank in H1, H2.
    split; [|split; [|done]].
    + apply orb_true_iff in Hto as [Hto|Hto]; apply nonempty_true_iff in Hto;
        intros Happ; apply app_eq_nil in Happ as [? ?]; done.
    + apply Forall_app. split; apply parse_recipients_gives_addresses_aux.
  - intros Hc Hh. apply parse_recipients_none_aux in Hc, Hh.
    fold church in Hc. fold home in Hh. by rewrite Hc, Hh.
  - intros Hc Hh H1 H2.
    apply parse_recipients_none_aux in Hh. fold home in Hh. rewrite Hh.
    destruct church as [|r rs] eqn:Hch.
    { exfalso. apply Hc. apply parse_recipients_none_aux. exact Hch. }
    cbn [Mail.nonempty orb negb].
    apply py_strip_blank in H2. rewrite H2.
    destruct (py_strip i1) eqn:E1; [|done].
    exfalso. apply H1. by apply py_strip_blank.
Qed.

Lemma checks_need_both_images_witness :
  Mail.checks (<[lit "TO_CHURCH" := lit "a@b.dk"]>
                 (<[lit "IMAGE_PATH_1" := lit "church.png"]> ∅))
  = Raise (Exn ValueError (lit "IMAGE_PATH_2 is required when sending home variant.")).
Proof.
  apply (proj2 (proj2 (checks_need_both_images
           (<[lit "TO_CHURCH" := lit "a@b.dk"]>
              (<[lit "IMAGE_PATH_1" := lit "church.png"]> ∅))))).
  - vm_compute. intros H. apply Forall_cons in H as [[H|H] _]; discriminate H.
  - vm_compute. constructor.
  - vm_compute. intros H. apply Forall_cons in H as [H _]. discriminate H.
  - vm_compute. constructor.
Defined.

(** ** The plain-text body *)

Lemma join_with_elem sep (parts : list pystr) (p : pystr) (c : N) :
  p ∈ parts → c ∈ p → c ∈ join_with sep parts.
Proof.
  intros Hp Hc. induction parts as [|q parts IH]; [by apply elem_of_nil in Hp|].
  destruct parts as [|q' parts].
  - apply list_elem_of_singleton in Hp as ->. exact Hc.
  - change (join_with sep (q :: q' :: parts))
      with (q ++ sep :: join_with sep (q' :: parts)).
    apply elem_of_app. apply elem_of_cons in Hp as [->|Hp]; [by left|].
    right. right. by apply IH.
Qed.

(** Whatever the seven fields hold, empty or white space included, the
    plain text is a body followed by one newline: the body is not empty
    and neither begins nor ends with white space, so the newline is the
    only one at the end.  A preheader of white space counts as none. *)
Theorem build_plain_text_shape
    (preheader name date time_ addr deadline signoff : pystr) :
  (∃ body,
     Mail.build_plain_text preheader name date time_ addr deadline signoff = body ++ [NL]
     ∧ body ≠ [] ∧ py_strip body = body)
  ∧ (blank preheader →
     Mail.build_plain_text preheader name date time_ addr deadline signoff
     = Mail.build_plain_text [] name date time_ addr deadline signoff).
Proof.
  split.
  - eexists. split; [reflexivity|]. split; [|apply strip_with_idemp].
    intros H. apply py_strip_blank in H.
    assert (Hin : 73%N ∈ lit "Invitation til konfirmation") by (vm_compute; left).
    eapply join_with_elem in Hin.
    + eapply Forall_forall in H; [|exact Hin]. discriminate H.
    + cbv zeta. do 12 (apply elem_of_app; left). apply elem_of_app. right.
      by apply list_elem_of_singleton.
  - intros Hb. apply py_strip_blank in Hb. unfold Mail.build_plain_text.
    rewrite Hb. reflexivity.
Qed.
